(** * A shallow embedding of the CHIP-8 interpreter core

    The development follows [chip-8.hpp] and the implementation of class
    [Chip8]: the machine state is a record with one field per data member,
    every member function is a function on that record, and the 16-bit and
    8-bit unsigned arithmetic of the C++ code is written out on [Z] with its
    wrap-around.  Arrays are lists read and written by index.  An index that
    the C++ code does not guard and that leaves the array is undefined
    behaviour there; here it makes the operation yield [Undefined]. *)

From Stdlib Require Import ZArith List Lia Bool.
From stdpp Require Import base tactics option list.

Local Open Scope Z_scope.

(** ** Constants of chip-8.hpp *)

Definition CHIP8_MEMORY_SIZE : Z := 4096.
Definition CHIP8_FONT_BUFFER_SIZE : Z := 80.
Definition CHIP8_FONT_START_ADDRESS_IN_MEMORY : Z := 0x50.
Definition CHIP8_REGISTERS_COUNT : Z := 16.
Definition CHIP8_STACK_SIZE : Z := 16.
Definition CHIP8_SCREEN_WIDTH : Z := 64.
Definition CHIP8_SCREEN_HEIGHT : Z := 32.
Definition CHIP8_VIDEO_BUFFER_SIZE : Z := CHIP8_SCREEN_WIDTH * CHIP8_SCREEN_HEIGHT.
Definition CHIP8_START_PROGRAM_ADDRESS : Z := 0x200.
Definition CHIP8_KEYBOARD_SIZE : Z := 16.

Definition sprite_font : list Z :=
  [ 0xF0; 0x90; 0x90; 0x90; 0xF0;
    0x20; 0x60; 0x20; 0x20; 0x70;
    0xF0; 0x10; 0xF0; 0x80; 0xF0;
    0xF0; 0x10; 0xF0; 0x10; 0xF0;
    0x90; 0x90; 0xF0; 0x10; 0x10;
    0xF0; 0x80; 0xF0; 0x10; 0xF0;
    0xF0; 0x80; 0xF0; 0x90; 0xF0;
    0xF0; 0x10; 0x20; 0x40; 0x40;
    0xF0; 0x90; 0xF0; 0x90; 0xF0;
    0xF0; 0x90; 0xF0; 0x10; 0xF0;
    0xF0; 0x90; 0xF0; 0x90; 0x90;
    0xE0; 0x90; 0xE0; 0x90; 0xE0;
    0xF0; 0x80; 0x80; 0x80; 0xF0;
    0xE0; 0x90; 0x90; 0x90; 0xE0;
    0xF0; 0x80; 0xF0; 0x80; 0xF0;
    0xF0; 0x80; 0xF0; 0x80; 0x80 ].

(** ** Unsigned machine integers and arrays *)

(** Conversion to [uint8_t] and [uint16_t]. *)
Definition u8 (z : Z) : Z := z mod 256.
Definition u16 (z : Z) : Z := z mod 65536.

Definition is_u8 (z : Z) : Prop := 0 <= z < 256.
Definition is_u16 (z : Z) : Prop := 0 <= z < 65536.

(** [a[i]] where the index is in range by construction (a decoded nibble, a
    loop counter below the array size, a coordinate reduced modulo the
    screen size). *)
Definition get (a : list Z) (i : Z) : Z := a !!! Z.to_nat i.
Definition put (a : list Z) (i v : Z) : list Z := <[Z.to_nat i := v]> a.

(** [a[i]] where the index is data of the running program: outside the
    array there is no result. *)
Definition ld (a : list Z) (i : Z) : option Z :=
  if (0 <=? i) && (i <? Z.of_nat (length a)) then a !! Z.to_nat i else None.
Definition sto (a : list Z) (i v : Z) : option (list Z) :=
  if (0 <=? i) && (i <? Z.of_nat (length a)) then Some (<[Z.to_nat i := v]> a) else None.

(** ** The machine state: the data members of class Chip8 *)

Record Chip8 : Type := mkChip8 {
  loaded_rom_size : Z;
  draw_flag : bool;
  memory : list Z;
  V : list Z;
  I : Z;
  pc : Z;
  stack : list Z;
  sp : Z;
  delayTimer : Z;
  soundTimer : Z;
  gfx : list Z;
  key : list Z
}.

Definition set_loaded_rom_size (v : Z) (s : Chip8) : Chip8 :=
  mkChip8 v (draw_flag s) (memory s) (V s) (I s) (pc s) (stack s) (sp s)
          (delayTimer s) (soundTimer s) (gfx s) (key s).
Definition set_draw_flag (v : bool) (s : Chip8) : Chip8 :=
  mkChip8 (loaded_rom_size s) v (memory s) (V s) (I s) (pc s) (stack s) (sp s)
          (delayTimer s) (soundTimer s) (gfx s) (key s).
Definition set_memory (v : list Z) (s : Chip8) : Chip8 :=
  mkChip8 (loaded_rom_size s) (draw_flag s) v (V s) (I s) (pc s) (stack s) (sp s)
          (delayTimer s) (soundTimer s) (gfx s) (key s).
Definition set_V (v : list Z) (s : Chip8) : Chip8 :=
  mkChip8 (loaded_rom_size s) (draw_flag s) (memory s) v (I s) (pc s) (stack s) (sp s)
          (delayTimer s) (soundTimer s) (gfx s) (key s).
Definition set_I (v : Z) (s : Chip8) : Chip8 :=
  mkChip8 (loaded_rom_size s) (draw_flag s) (memory s) (V s) v (pc s) (stack s) (sp s)
          (delayTimer s) (soundTimer s) (gfx s) (key s).
Definition set_pc (v : Z) (s : Chip8) : Chip8 :=
  mkChip8 (loaded_rom_size s) (draw_flag s) (memory s) (V s) (I s) v (stack s) (sp s)
          (delayTimer s) (soundTimer s) (gfx s) (key s).
Definition set_stack (v : list Z) (s : Chip8) : Chip8 :=
  mkChip8 (loaded_rom_size s) (draw_flag s) (memory s) (V s) (I s) (pc s) v (sp s)
          (delayTimer s) (soundTimer s) (gfx s) (key s).
Definition set_sp (v : Z) (s : Chip8) : Chip8 :=
  mkChip8 (loaded_rom_size s) (draw_flag s) (memory s) (V s) (I s) (pc s) (stack s) v
          (delayTimer s) (soundTimer s) (gfx s) (key s).
Definition set_delayTimer (v : Z) (s : Chip8) : Chip8 :=
  mkChip8 (loaded_rom_size s) (draw_flag s) (memory s) (V s) (I s) (pc s) (stack s) (sp s)
          v (soundTimer s) (gfx s) (key s).
Definition set_soundTimer (v : Z) (s : Chip8) : Chip8 :=
  mkChip8 (loaded_rom_size s) (draw_flag s) (memory s) (V s) (I s) (pc s) (stack s) (sp s)
          (delayTimer s) v (gfx s) (key s).
Definition set_gfx (v : list Z) (s : Chip8) : Chip8 :=
  mkChip8 (loaded_rom_size s) (draw_flag s) (memory s) (V s) (I s) (pc s) (stack s) (sp s)
          (delayTimer s) (soundTimer s) v (key s).
Definition set_keys (v : list Z) (s : Chip8) : Chip8 :=
  mkChip8 (loaded_rom_size s) (draw_flag s) (memory s) (V s) (I s) (pc s) (stack s) (sp s)
          (delayTimer s) (soundTimer s) (gfx s) v.

(** [V[x] = v] for a decoded register number [x]. *)
Definition set_reg (x v : Z) (s : Chip8) : Chip8 := set_V (put (V s) x v) s.
Definition reg (s : Chip8) (x : Z) : Z := get (V s) x.

(** ** How one call of emulate_cycle ends *)

(** The conditions the code reports before it leaves emulate_cycle early. *)
Inductive condition : Type :=
  | PcOutOfRange
  | StackUnderflow
  | StackOverflow
  | IndexOutOfRange.

Inductive outcome : Type :=
  | Done (s : Chip8)
      (* control reached the end of the function *)
  | Aborted (c : condition) (s : Chip8)
      (* an early [return] after reporting [c]; [s] is the state left behind *)
  | Undefined.
      (* an array was indexed outside its bounds *)

Definition state_after (o : outcome) : option Chip8 :=
  match o with
  | Done s => Some s
  | Aborted _ s => Some s
  | Undefined => None
  end.

(** ** Construction *)

(** A run of consecutive byte stores [mem[addr + k] = bytes[k]]. *)
Fixpoint write_bytes (mem : list Z) (addr : Z) (bytes : list Z) : list Z :=
  match bytes with
  | [] => mem
  | b :: bs => write_bytes (put mem addr b) (addr + 1) bs
  end.

Definition copy_sprite_font_into_memory (s : Chip8) : Chip8 :=
  set_memory (write_bytes (memory s) CHIP8_FONT_START_ADDRESS_IN_MEMORY sprite_font) s.

(** The default member initialisers followed by the constructor body. *)
Definition Chip8_new : Chip8 :=
  copy_sprite_font_into_memory
    {| loaded_rom_size := 0;
       draw_flag := false;
       memory := replicate (Z.to_nat CHIP8_MEMORY_SIZE) 0;
       V := replicate (Z.to_nat CHIP8_REGISTERS_COUNT) 0;
       I := 0;
       pc := CHIP8_START_PROGRAM_ADDRESS;
       stack := replicate (Z.to_nat CHIP8_STACK_SIZE) 0;
       sp := 0;
       delayTimer := 0;
       soundTimer := 0;
       gfx := replicate (Z.to_nat CHIP8_VIDEO_BUFFER_SIZE) 0;
       key := replicate (Z.to_nat CHIP8_KEYBOARD_SIZE) 0 |}.

(** ** The small member functions *)

Definition clear_video_buffer (s : Chip8) : Chip8 :=
  set_gfx (replicate (length (gfx s)) 0) s.

(** The result and whether the out-of-range condition was reported. *)
Definition get_screen_pixel (x y : Z) (s : Chip8) : Z * bool :=
  if (x <? 0) || (CHIP8_SCREEN_WIDTH <=? x) || (y <? 0) || (CHIP8_SCREEN_HEIGHT <=? y)
  then (0, true)
  else (get (gfx s) (y * 64 + x), false).

Definition pc_instruction_overflow (s : Chip8) : bool :=
  CHIP8_START_PROGRAM_ADDRESS + loaded_rom_size s <=? pc s.

Definition set_key (key_index value : Z) (s : Chip8) : Chip8 :=
  if key_index <? CHIP8_KEYBOARD_SIZE
  then set_keys (put (key s) key_index value) s
  else s.

Definition is_screen_ready_to_redraw (s : Chip8) : bool := draw_flag s.

Definition play_sound (s : Chip8) : bool := 0 <? soundTimer s.

(** Both paths of render_screen leave the flag false; the console picture
    of the debug mode is not part of the state. *)
Definition render_screen (s : Chip8) : Chip8 :=
  if negb (draw_flag s) then s else set_draw_flag false s.

(** load_rom on the contents of the file, [None] when it cannot be opened.
    The size is stored in a [uint16_t]. *)
Definition load_rom (file : option (list Z)) (s : Chip8) : bool * Chip8 :=
  match file with
  | None => (false, s)
  | Some bytes =>
      let s1 := set_loaded_rom_size (u16 (Z.of_nat (length bytes))) s in
      if CHIP8_MEMORY_SIZE - CHIP8_START_PROGRAM_ADDRESS <? loaded_rom_size s1
      then (false, s1)
      else (true,
            set_memory (write_bytes (memory s1) CHIP8_START_PROGRAM_ADDRESS
                          (take (Z.to_nat (loaded_rom_size s1)) bytes)) s1)
  end.

(** ** Sprite drawing *)

Definition sprite_pixel_of (sprite_byte col : Z) : Z :=
  Z.land (Z.shiftr sprite_byte (7 - col)) 0x01.

Definition pixel_index_of (x_coord y_coord row col : Z) : Z :=
  let screen_x := (x_coord + col) mod 64 in
  let screen_y := (y_coord + row) mod 32 in
  screen_y * 64 + screen_x.

(** The body of the inner loop of draw_sprite for one pixel. *)
Definition plot (pixel_index sprite_pixel : Z) (s : Chip8) : Chip8 :=
  let s1 :=
    if (get (gfx s) pixel_index =? 1) && (sprite_pixel =? 1)
    then set_reg 0xF 1 s
    else s in
  set_gfx (put (gfx s1) pixel_index (Z.lxor (get (gfx s1) pixel_index) sprite_pixel)) s1.

(** [for (col = ...; col < 8; ++col)], with [n] iterations left. *)
Fixpoint draw_cols (n : nat) (col sprite_byte x_coord y_coord row : Z) (s : Chip8) : Chip8 :=
  match n with
  | O => s
  | S n' =>
      draw_cols n' (col + 1) sprite_byte x_coord y_coord row
        (plot (pixel_index_of x_coord y_coord row col) (sprite_pixel_of sprite_byte col) s)
  end.

(** [for (row = ...; row < height; ++row)], with [n] iterations left; the
    sprite byte is read from [memory[I + row]] without a test of the index. *)
Fixpoint draw_rows (n : nat) (row x_coord y_coord : Z) (s : Chip8) : option Chip8 :=
  match n with
  | O => Some s
  | S n' =>
      if 32 <=? y_coord + row then Some s
      else
        match ld (memory s) (I s + row) with
        | None => None
        | Some sprite_byte =>
            draw_rows n' (row + 1) x_coord y_coord
              (draw_cols 8 0 sprite_byte x_coord y_coord row s)
        end
  end.

Definition draw_sprite (x_coord y_coord height : Z) (s : Chip8) : outcome :=
  let s0 := set_reg 0xF 0 s in
  let x_coord := x_coord mod 64 in
  let y_coord := y_coord mod 32 in
  match draw_rows (Z.to_nat height) 0 x_coord y_coord s0 with
  | None => Undefined
  | Some s1 => Done (set_draw_flag true s1)
  end.

(** ** Instruction decoding *)

Definition op_x (opcode : Z) : Z := Z.shiftr (Z.land opcode 0x0F00) 8.
Definition op_y (opcode : Z) : Z := Z.shiftr (Z.land opcode 0x00F0) 4.
Definition op_nn (opcode : Z) : Z := Z.land opcode 0x00FF.
Definition op_nnn (opcode : Z) : Z := Z.land opcode 0x0FFF.

Definition skip_if (b : bool) (s : Chip8) : Chip8 :=
  if b then set_pc (u16 (pc s + 2)) s else s.

(** ** The instructions, in the order of the switch of emulate_cycle *)

Definition op_ret (s : Chip8) : outcome :=
  if sp s =? 0 then Aborted StackUnderflow s
  else
    let s1 := set_sp (u8 (sp s - 1)) s in
    match ld (stack s1) (sp s1) with
    | None => Undefined
    | Some a => Done (set_pc a s1)
    end.

Definition op_call (opcode : Z) (s : Chip8) : outcome :=
  if CHIP8_STACK_SIZE <=? sp s then Aborted StackOverflow s
  else
    match sto (stack s) (sp s) (pc s) with
    | None => Undefined
    | Some stk => Done (set_pc (op_nnn opcode) (set_sp (u8 (sp s + 1)) (set_stack stk s)))
    end.

Definition op_add_xy (opcode : Z) (s : Chip8) : Chip8 :=
  let x := op_x opcode in
  let y := op_y opcode in
  let sum := u16 (reg s x + reg s y) in
  let s1 := set_reg 0xF (if 255 <? sum then 1 else 0) s in
  set_reg x (Z.land sum 0xFF) s1.

Definition op_sub_xy (opcode : Z) (s : Chip8) : Chip8 :=
  let x := op_x opcode in
  let y := op_y opcode in
  let s1 := set_reg 0xF (if reg s y <? reg s x then 1 else 0) s in
  set_reg x (u8 (reg s1 x - reg s1 y)) s1.

Definition op_shr (opcode : Z) (s : Chip8) : Chip8 :=
  let x := op_x opcode in
  let s1 := set_reg 0xF (Z.land (reg s x) 0x01) s in
  set_reg x (Z.shiftr (reg s1 x) 1) s1.

Definition op_subn_xy (opcode : Z) (s : Chip8) : Chip8 :=
  let x := op_x opcode in
  let y := op_y opcode in
  let s1 := set_reg 0xF (if reg s x <? reg s y then 1 else 0) s in
  set_reg x (u8 (reg s1 y - reg s1 x)) s1.

Definition op_shl (opcode : Z) (s : Chip8) : Chip8 :=
  let x := op_x opcode in
  let s1 := set_reg 0xF (Z.shiftr (Z.land (reg s x) 0x80) 7) s in
  set_reg x (u8 (Z.shiftl (reg s1 x) 1)) s1.

Definition op_alu (opcode : Z) (s : Chip8) : Chip8 :=
  let x := op_x opcode in
  let y := op_y opcode in
  let k := Z.land opcode 0x000F in
  if k =? 0x0 then set_reg x (reg s y) s
  else if k =? 0x1 then set_reg x (Z.lor (reg s x) (reg s y)) s
  else if k =? 0x2 then set_reg x (Z.land (reg s x) (reg s y)) s
  else if k =? 0x3 then set_reg x (Z.lxor (reg s x) (reg s y)) s
  else if k =? 0x4 then op_add_xy opcode s
  else if k =? 0x5 then op_sub_xy opcode s
  else if k =? 0x6 then op_shr opcode s
  else if k =? 0x7 then op_subn_xy opcode s
  else if k =? 0xE then op_shl opcode s
  else s.

(** SKP and SKNP index [key] with the whole byte [V[x]]. *)
Definition op_skp (opcode : Z) (s : Chip8) : outcome :=
  match ld (key s) (reg s (op_x opcode)) with
  | None => Undefined
  | Some k => Done (skip_if (negb (k =? 0)) s)
  end.

Definition op_sknp (opcode : Z) (s : Chip8) : outcome :=
  match ld (key s) (reg s (op_x opcode)) with
  | None => Undefined
  | Some k => Done (skip_if (k =? 0) s)
  end.

(** The scan of LD Vx, K from index [i], with [n] iterations left. *)
Fixpoint first_key (n : nat) (i : Z) (keys : list Z) : option Z :=
  match n with
  | O => None
  | S n' => if negb (get keys i =? 0) then Some i else first_key n' (i + 1) keys
  end.

Definition op_ld_vx_k (opcode : Z) (s : Chip8) : Chip8 :=
  let x := op_x opcode in
  match first_key (Z.to_nat CHIP8_KEYBOARD_SIZE) 0 (key s) with
  | Some i => set_reg x i s
  | None => set_pc (u16 (pc s - 2)) s
  end.

Definition op_add_i (opcode : Z) (s : Chip8) : Chip8 :=
  let s1 := set_I (u16 (I s + reg s (op_x opcode))) s in
  if CHIP8_MEMORY_SIZE <=? I s1 then set_I 0 s1 else s1.

Definition op_ld_f (opcode : Z) (s : Chip8) : Chip8 :=
  let x := op_x opcode in
  if 16 <=? reg s x then set_I 0 s
  else set_I (u16 (CHIP8_FONT_START_ADDRESS_IN_MEMORY + reg s x * 5)) s.

(** LD B, Vx: three stores through [I], none of them guarded. *)
Definition op_bcd (opcode : Z) (s : Chip8) : outcome :=
  let value := reg s (op_x opcode) in
  match sto (memory s) (I s) (value / 100) with
  | None => Undefined
  | Some m1 =>
      match sto m1 (I s + 1) ((value / 10) mod 10) with
      | None => Undefined
      | Some m2 =>
          match sto m2 (I s + 2) (value mod 10) with
          | None => Undefined
          | Some m3 => Done (set_memory m3 s)
          end
      end
  end.

(** [for (i = ...; i <= x; ++i) memory[I + i] = V[i]], [n] iterations left. *)
Fixpoint dump_regs (n : nat) (i : Z) (s : Chip8) : option Chip8 :=
  match n with
  | O => Some s
  | S n' =>
      match sto (memory s) (I s + i) (reg s i) with
      | None => None
      | Some m => dump_regs n' (i + 1) (set_memory m s)
      end
  end.

(** [for (i = ...; i <= x; ++i) V[i] = memory[I + i]], [n] iterations left. *)
Fixpoint load_regs (n : nat) (i : Z) (s : Chip8) : option Chip8 :=
  match n with
  | O => Some s
  | S n' =>
      match ld (memory s) (I s + i) with
      | None => None
      | Some b => load_regs n' (i + 1) (set_reg i b s)
      end
  end.

Definition op_dump (opcode : Z) (s : Chip8) : outcome :=
  let x := op_x opcode in
  if CHIP8_MEMORY_SIZE <=? I s + x then Aborted IndexOutOfRange s
  else
    match dump_regs (Z.to_nat (x + 1)) 0 s with
    | None => Undefined
    | Some s1 => Done s1
    end.

Definition op_load (opcode : Z) (s : Chip8) : outcome :=
  let x := op_x opcode in
  if CHIP8_MEMORY_SIZE <=? I s + x then Aborted IndexOutOfRange s
  else
    match load_regs (Z.to_nat (x + 1)) 0 s with
    | None => Undefined
    | Some s1 => Done s1
    end.

Definition op_misc (opcode : Z) (s : Chip8) : outcome :=
  let x := op_x opcode in
  let k := Z.land opcode 0x00FF in
  if k =? 0x07 then Done (set_reg x (delayTimer s) s)
  else if k =? 0x0A then Done (op_ld_vx_k opcode s)
  else if k =? 0x15 then Done (set_delayTimer (reg s x) s)
  else if k =? 0x18 then Done (set_soundTimer (reg s x) s)
  else if k =? 0x1E then Done (op_add_i opcode s)
  else if k =? 0x29 then Done (op_ld_f opcode s)
  else if k =? 0x33 then op_bcd opcode s
  else if k =? 0x55 then op_dump opcode s
  else if k =? 0x65 then op_load opcode s
  else Done s.

(** The switch on [opcode & 0xF000].  [rnd] is the value rand() returns
    when RND calls it.  There is no case for 0x9000: it takes the default
    branch like any unknown instruction. *)
Definition execute (rnd opcode : Z) (s : Chip8) : outcome :=
  let h := Z.land opcode 0xF000 in
  let x := op_x opcode in
  let y := op_y opcode in
  let nn := op_nn opcode in
  if h =? 0x0000 then
    if opcode =? 0x00E0 then Done (clear_video_buffer s)
    else if opcode =? 0x00EE then op_ret s
    else Done s
  else if h =? 0x1000 then Done (set_pc (op_nnn opcode) s)
  else if h =? 0x2000 then op_call opcode s
  else if h =? 0x3000 then Done (skip_if (reg s x =? nn) s)
  else if h =? 0x4000 then Done (skip_if (negb (reg s x =? nn)) s)
  else if h =? 0x5000 then Done (skip_if (reg s x =? reg s y) s)
  else if h =? 0x6000 then Done (set_reg x nn s)
  else if h =? 0x7000 then Done (set_reg x (u8 (reg s x + nn)) s)
  else if h =? 0x8000 then Done (op_alu opcode s)
  else if h =? 0xA000 then Done (set_I (op_nnn opcode) s)
  else if h =? 0xB000 then Done (set_pc (u16 (reg s 0 + op_nnn opcode)) s)
  else if h =? 0xC000 then Done (set_reg x (Z.land (rnd mod 256) nn) s)
  else if h =? 0xD000 then draw_sprite (reg s x) (reg s y) (Z.land opcode 0x000F) s
  else if h =? 0xE000 then
    let k := Z.land opcode 0x00FF in
    if k =? 0x9E then op_skp opcode s
    else if k =? 0xA1 then op_sknp opcode s
    else Done s
  else if h =? 0xF000 then op_misc opcode s
  else Done s.

(** ** One cycle *)

Definition fetch (s : Chip8) : option Z :=
  match ld (memory s) (pc s), ld (memory s) (pc s + 1) with
  | Some hi, Some lo => Some (u16 (Z.lor (Z.shiftl hi 8) lo))
  | _, _ => None
  end.

Definition tick (t : Z) : Z := if 0 <? t then u8 (t - 1) else t.

Definition timers (s : Chip8) : Chip8 :=
  let s1 := set_delayTimer (tick (delayTimer s)) s in
  set_soundTimer (tick (soundTimer s1)) s1.

Definition emulate_cycle (rnd : Z) (s : Chip8) : outcome :=
  if CHIP8_MEMORY_SIZE - 1 <=? pc s then Aborted PcOutOfRange s
  else
    match fetch s with
    | None => Undefined
    | Some opcode =>
        match execute rnd opcode (set_pc (u16 (pc s + 2)) s) with
        | Done s1 => Done (timers s1)
        | Aborted c s1 => Aborted c s1
        | Undefined => Undefined
        end
    end.

(** ** Well-formed states

    Every data member holds a value of its C++ type, every array has its
    declared size, and the stack pointer does not exceed the stack. *)

Record wf (s : Chip8) : Prop := mk_wf {
  wf_loaded_rom_size : is_u16 (loaded_rom_size s);
  wf_memory_len : Z.of_nat (length (memory s)) = 4096;
  wf_memory : Forall is_u8 (memory s);
  wf_V_len : Z.of_nat (length (V s)) = 16;
  wf_V : Forall is_u8 (V s);
  wf_I : is_u16 (I s);
  wf_pc : is_u16 (pc s);
  wf_stack_len : Z.of_nat (length (stack s)) = 16;
  wf_stack : Forall is_u16 (stack s);
  wf_sp : 0 <= sp s <= 16;
  wf_delayTimer : is_u8 (delayTimer s);
  wf_soundTimer : is_u8 (soundTimer s);
  wf_gfx_len : Z.of_nat (length (gfx s)) = 2048;
  wf_gfx : Forall is_u8 (gfx s);
  wf_key_len : Z.of_nat (length (key s)) = 16;
  wf_key : Forall is_u8 (key s)
}.

Definition in_u8 (z : Z) : bool := (0 <=? z) && (z <? 256).
Definition in_u16 (z : Z) : bool := (0 <=? z) && (z <? 65536).

(** An executable test of [wf], for concrete states. *)
Definition wf_check (s : Chip8) : bool :=
  in_u16 (loaded_rom_size s)
  && (Z.of_nat (length (memory s)) =? 4096) && forallb in_u8 (memory s)
  && (Z.of_nat (length (V s)) =? 16) && forallb in_u8 (V s)
  && in_u16 (I s) && in_u16 (pc s)
  && (Z.of_nat (length (stack s)) =? 16) && forallb in_u16 (stack s)
  && (0 <=? sp s) && (sp s <=? 16)
  && in_u8 (delayTimer s) && in_u8 (soundTimer s)
  && (Z.of_nat (length (gfx s)) =? 2048) && forallb in_u8 (gfx s)
  && (Z.of_nat (length (key s)) =? 16) && forallb in_u8 (key s).

(** The states a driver can reach: construction, then any sequence of ROM
    loads, cycles that do not run into undefined behaviour, key updates and
    render calls.  The bytes of a file and the arguments of set_key are
    [uint8_t] values; rand() is not negative. *)
Inductive reachable : Chip8 -> Prop :=
  | reach_new : reachable Chip8_new
  | reach_load_rom file s :
      reachable s ->
      (forall bytes, file = Some bytes -> Forall is_u8 bytes) ->
      reachable (snd (load_rom file s))
  | reach_cycle rnd s s' :
      reachable s -> 0 <= rnd ->
      state_after (emulate_cycle rnd s) = Some s' ->
      reachable s'
  | reach_set_key key_index value s :
      reachable s -> is_u8 key_index -> is_u8 value ->
      reachable (set_key key_index value s)
  | reach_render_screen s :
      reachable s -> reachable (render_screen s).

(** [n] cycles in a row with the values [rnds] of rand(), as the main loop
    runs them; a cycle that was left early is followed by the next one. *)
Fixpoint run (rnds : list Z) (s : Chip8) : option Chip8 :=
  match rnds with
  | [] => Some s
  | rnd :: rest =>
      match state_after (emulate_cycle rnd s) with
      | None => None
      | Some s' => run rest s'
      end
  end.

(** ** Auxiliary notions for the proofs *)

Definition holds_after (P : Chip8 -> Prop) (o : outcome) : Prop :=
  match state_after o with
  | Some s => P s
  | None => True
  end.

(** Everything but the framebuffer, the registers and the redraw flag. *)
Record draw_frame (s s' : Chip8) : Prop := mk_draw_frame {
  df_loaded_rom_size : loaded_rom_size s' = loaded_rom_size s;
  df_memory : memory s' = memory s;
  df_I : I s' = I s;
  df_pc : pc s' = pc s;
  df_stack : stack s' = stack s;
  df_sp : sp s' = sp s;
  df_delayTimer : delayTimer s' = delayTimer s;
  df_soundTimer : soundTimer s' = soundTimer s;
  df_key : key s' = key s
}.

(** [s'] has the index register and both timers of [s]. *)
Definition ctl_frame (s s' : Chip8) : Prop :=
  I s' = I s /\ delayTimer s' = delayTimer s /\ soundTimer s' = soundTimer s.

(** The two instructions that write a timer: Fx15 and Fx18. *)
Definition is_ld_dt (opcode : Z) : bool :=
  (Z.land opcode 0xF000 =? 0xF000) && (Z.land opcode 0x00FF =? 0x15).
Definition is_ld_st (opcode : Z) : bool :=
  (Z.land opcode 0xF000 =? 0xF000) && (Z.land opcode 0x00FF =? 0x18).

Definition ctl_post (opcode : Z) (s s' : Chip8) : Prop :=
  (0 <= I s < CHIP8_MEMORY_SIZE -> 0 <= I s' < CHIP8_MEMORY_SIZE)
  /\ delayTimer s' = (if is_ld_dt opcode then reg s (op_x opcode) else delayTimer s)
  /\ soundTimer s' = (if is_ld_st opcode then reg s (op_x opcode) else soundTimer s).

(** A machine freshly constructed, with [rom] loaded. *)
Definition boot (rom : list Z) : Chip8 := snd (load_rom (Some rom) Chip8_new).

(** The state [n] cycles after [boot rom], none of which calls rand(). *)
Definition after (n : nat) (rom : list Z) : Chip8 :=
  default Chip8_new (run (replicate n 0) (boot rom)).

(** LD I, 0xFFF brings [I] to the last address. *)
Definition rom_ld_i_fff : list Z := [0xAF; 0xFF].

(** ** The timers across one cycle *)

(** A timer that held [before] holds [after] once it has been counted down:
    one less if it was not zero, zero otherwise. *)
Definition ticked (before after : Z) : Prop :=
  after = (if 0 <? before then before - 1 else 0).

(** The three places where emulate_cycle returns after a successful fetch
    and before the timers: RET on an empty stack, CALL on a full stack, and
    Fx55 or Fx65 with [I + x] outside memory. *)
Definition returns_early (opcode : Z) (s : Chip8) : bool :=
  (opcode =? 0x00EE) && (sp s =? 0)
  || (Z.land opcode 0xF000 =? 0x2000) && (CHIP8_STACK_SIZE <=? sp s)
  || (Z.land opcode 0xF000 =? 0xF000)
     && ((Z.land opcode 0x00FF =? 0x55) || (Z.land opcode 0x00FF =? 0x65))
     && (CHIP8_MEMORY_SIZE <=? I s + op_x opcode).

(** LD V0, 5; LD DT, V0; RET. *)
Definition rom_ret_underflow : list Z := [0x60; 0x05; 0xF0; 0x15; 0x00; 0xEE].

(** ** Programs used as concrete inputs *)

(** LD I, 0x050 (the font sprite of digit 0); DRW V0, V1, 5; CLS. *)
Definition rom_draw_then_cls : list Z := [0xA0; 0x50; 0xD0; 0x15; 0x00; 0xE0].

(** LD I, 0xFFF; LD B, V0. *)
Definition rom_bcd_at_fff : list Z := [0xAF; 0xFF; 0xF0; 0x33].

(** LD I, 0xFFF; DRW V0, V0, 2. *)
Definition rom_draw_at_fff : list Z := [0xAF; 0xFF; 0xD0; 0x02].

(** LD V0, 0xFF; SKP V0. *)
Definition rom_skp_ff : list Z := [0x60; 0xFF; 0xE0; 0x9E].

(** LD V0, 0xFF; SKNP V0. *)
Definition rom_sknp_ff : list Z := [0x60; 0xFF; 0xE0; 0xA1].

(** LD VF, 1; LD V0, 1; ADD VF, V0. *)
Definition rom_add_into_vf : list Z := [0x6F; 0x01; 0x60; 0x01; 0x8F; 0x04].

(** LD V0, 0xF0; LD V1, 0x20; ADD V0, V1. *)
Definition rom_add_carry : list Z := [0x60; 0xF0; 0x61; 0x20; 0x80; 0x14].

(** ** Bulk register transfers *)

Inductive bulk : Type :=
  | Dump  (* Fx55, LD [I], Vx *)
  | Load. (* Fx65, LD Vx, [I] *)

Definition bulk_opcode (b : bulk) (x : Z) : Z :=
  match b with
  | Dump => 0xF055
  | Load => 0xF065
  end + 256 * x.

(** LD I, 0xFFF; LD [I], V1. *)
Definition rom_dump_out_of_range : list Z := [0xAF; 0xFF; 0xF1; 0x55].

(** LD I, 0x300; LD V0, 7; LD V1, 9; LD [I], V1. *)
Definition rom_dump : list Z := [0xA3; 0x00; 0x60; 0x07; 0x61; 0x09; 0xF1; 0x55].

(** LD I, 0x050; LD V2, [I]. *)
Definition rom_load : list Z := [0xA0; 0x50; 0xF2; 0x65].

(** ** LD Vx, K *)

(** [pressed] is the lowest index of a pressed key among the 16 keys, or
    [None] when no key is pressed. *)
Definition lowest_pressed (keys : list Z) (pressed : option Z) : Prop :=
  match pressed with
  | None => forall i, 0 <= i < CHIP8_KEYBOARD_SIZE -> get keys i = 0
  | Some k =>
      0 <= k < CHIP8_KEYBOARD_SIZE
      /\ get keys k <> 0
      /\ forall j, 0 <= j < k -> get keys j = 0
  end.

(** LD V3, K. *)
Definition rom_wait_key : list Z := [0xF3; 0x0A].

(** ** CALL after CALL *)

(** The next cycle of [s] fetches a CALL instruction. *)
Definition fetches_call (s : Chip8) : Prop :=
  pc s < CHIP8_MEMORY_SIZE - 1
  /\ exists nnn, 0 <= nnn < 4096 /\ fetch s = Some (0x2000 + nnn).

(** [calls n s rets s']: [n] cycles in a row from [s], each of which fetches
    a CALL, lead to [s']; [rets] lists, in order, the return address of each
    of them, the address after the CALL. *)
Inductive calls : nat -> Chip8 -> list Z -> Chip8 -> Prop :=
  | calls_O s : calls O s [] s
  | calls_S n s rnd s1 rets s2 :
      fetches_call s ->
      state_after (emulate_cycle rnd s) = Some s1 ->
      calls n s1 rets s2 ->
      calls (S n) s (pc s + 2 :: rets) s2.

(** Seventeen CALLs, each to the next address: CALL 0x202 at 0x200, CALL
    0x204 at 0x202, and so on up to CALL 0x222 at 0x220. *)
Definition rom_17_calls : list Z :=
  [0x22; 0x02; 0x22; 0x04; 0x22; 0x06; 0x22; 0x08; 0x22; 0x0A; 0x22; 0x0C;
   0x22; 0x0E; 0x22; 0x10; 0x22; 0x12; 0x22; 0x14; 0x22; 0x16; 0x22; 0x18;
   0x22; 0x1A; 0x22; 0x1C; 0x22; 0x1E; 0x22; 0x20; 0x22; 0x22].

(** ** The pixels of one draw *)

(** The pixels the inner loop of draw_sprite visits from column [col] on,
    [n] of them, in order, each with its sprite bit. *)
Fixpoint row_cells (n : nat) (col sprite_byte x_coord y_coord row : Z) : list (Z * Z) :=
  match n with
  | O => []
  | S n' =>
      (pixel_index_of x_coord y_coord row col, sprite_pixel_of sprite_byte col)
      :: row_cells n' (col + 1) sprite_byte x_coord y_coord row
  end.

(** The pixels the outer loop visits from row [row] on, for the sprite at
    [mem[i ...]]. *)
Fixpoint sprite_cells (n : nat) (row x_coord y_coord : Z) (mem : list Z) (i : Z)
  : list (Z * Z) :=
  match n with
  | O => []
  | S n' =>
      if 32 <=? y_coord + row then []
      else
        match ld mem (i + row) with
        | None => []
        | Some sprite_byte =>
            row_cells 8 0 sprite_byte x_coord y_coord row
            ++ sprite_cells n' (row + 1) x_coord y_coord mem i
        end
  end.

(** Plotting a list of pixels, first to last. *)
Definition blit (cells : list (Z * Z)) (s : Chip8) : Chip8 :=
  fold_left (fun s c => plot (fst c) (snd c) s) cells s.

(** The exclusive or of all the bits that [cells] has for pixel [p]. *)
Definition xacc (cells : list (Z * Z)) (p : Z) : Z :=
  fold_right (fun c acc => if fst c =? p then Z.lxor (snd c) acc else acc) 0 cells.

(** Some pixel of [cells] has its bit set where [g] is lit. *)
Definition hit (cells : list (Z * Z)) (g : list Z) : bool :=
  existsb (fun c => (get g (fst c) =? 1) && (snd c =? 1)) cells.

(** LD I, 0x050 (the font sprite of digit 0); DRW V0, V1, 5. *)
Definition rom_draw : list Z := [0xA0; 0x50; 0xD0; 0x15].

(** ** The font table in memory *)

(** The 80 bytes from CHIP8_FONT_START_ADDRESS_IN_MEMORY on are the font. *)
Definition font_in_memory (s : Chip8) : Prop :=
  forall i, 0 <= i < CHIP8_FONT_BUFFER_SIZE ->
    get (memory s) (CHIP8_FONT_START_ADDRESS_IN_MEMORY + i) = get sprite_font i.

(** A two-byte program file, and one that is one byte too long. *)
Definition file_two_bytes : list Z := [0x12; 0x00].
Definition file_too_long : list Z := replicate (Z.to_nat 3585) 0xAA.

(** LD V4, 0x0B; LD F, V4. *)
Definition rom_ld_f : list Z := [0x64; 0x0B; 0xF4; 0x29].

(** An executable test of [font_in_memory], for concrete states. *)
Definition font_check (s : Chip8) : bool :=
  forallb (fun i => get (memory s) (CHIP8_FONT_START_ADDRESS_IN_MEMORY + i) =? get sprite_font i)
          (seqZ 0 CHIP8_FONT_BUFFER_SIZE).

(** ** The instruction table

    The opcodes that reach a case of the switch other than a default one,
    by their hexadecimal digits. *)
Definition implemented (opcode : Z) : bool :=
  let h := opcode / 4096 in
  let lo := opcode mod 256 in
  let k := opcode mod 16 in
  if h =? 0x0 then (opcode =? 0x00E0) || (opcode =? 0x00EE)
  else if h =? 0x8 then (k <=? 7) || (k =? 0xE)
  else if h =? 0x9 then false
  else if h =? 0xE then (lo =? 0x9E) || (lo =? 0xA1)
  else if h =? 0xF then
    (lo =? 0x07) || (lo =? 0x0A) || (lo =? 0x15) || (lo =? 0x18) || (lo =? 0x1E)
    || (lo =? 0x29) || (lo =? 0x33) || (lo =? 0x55) || (lo =? 0x65)
  else true.

(** JP 0xABC. *)
Definition rom_jp : list Z := [0x1A; 0xBC].

(** LD V1, 7; SE V1, 7.   LD V1, 7; SNE V1, 7. *)
Definition rom_se : list Z := [0x61; 0x07; 0x31; 0x07].
Definition rom_sne : list Z := [0x61; 0x07; 0x41; 0x07].

(** LD V1, 1; LD V2, 2; SNE V1, V2 (9120). *)
Definition rom_sne_xy : list Z := [0x61; 0x01; 0x62; 0x02; 0x91; 0x20].

(** LD V0, 0xFF; ADD V0, 2. *)
Definition rom_add_imm : list Z := [0x60; 0xFF; 0x70; 0x02].

(** LD V0, 5; LD V1, 5; then SUB V0, V1 (8015) or SUBN V0, V1 (8017). *)
Definition rom_sub_equal : list Z := [0x60; 0x05; 0x61; 0x05; 0x80; 0x15].
Definition rom_subn_equal : list Z := [0x60; 0x05; 0x61; 0x05; 0x80; 0x17].

(** LD V0, 0x85; then SHR V0 {, V1} (8016) or SHL V0 {, V1} (801E). *)
Definition rom_shr : list Z := [0x60; 0x85; 0x80; 0x16].
Definition rom_shl : list Z := [0x60; 0x85; 0x80; 0x1E].

(** RND V0, 0x0F. *)
Definition rom_rnd : list Z := [0xC0; 0x0F].

(** CALL 0x204; (unused word); RET - the subroutine at 0x204 returns at once. *)
Definition rom_call_ret : list Z := [0x22; 0x04; 0x00; 0x00; 0x00; 0xEE].

(** RET as the first instruction, on the empty stack. *)
Definition rom_ret_first : list Z := [0x00; 0xEE].

(** LD V0, 234; LD I, 0x300; LD B, V0. *)
Definition rom_bcd : list Z := [0x60; 0xEA; 0xA3; 0x00; 0xF0; 0x33].

(** LD V0, 7; LD V1, 9; LD I, 0x300; LD [I], V1; LD V0, 0; LD V1, 0;
    LD V1, [I]. *)
Definition rom_save_restore : list Z :=
  [0x60; 0x07; 0x61; 0x09; 0xA3; 0x00; 0xF1; 0x55;
   0x60; 0x00; 0x61; 0x00; 0xF1; 0x65].

(** LD V2, 5; SKP V2.   LD V2, 5; SKNP V2. *)
Definition rom_skp : list Z := [0x62; 0x05; 0xE2; 0x9E].
Definition rom_sknp : list Z := [0x62; 0x05; 0xE2; 0xA1].

(** LD V0, 1; LD ST, V0.   LD V0, 3; LD DT, V0. *)
Definition rom_ld_st_one : list Z := [0x60; 0x01; 0xF0; 0x18].
Definition rom_ld_dt_three : list Z := [0x60; 0x03; 0xF0; 0x15].

(** JP 0xFFF. *)
Definition rom_jp_fff : list Z := [0x1F; 0xFF].

(** ** Accesses that the code does not guard *)

(** The instructions that index an array with a value they have not
    tested, in a state where that value is outside the array: LD B, Vx with
    [I + 2] beyond memory, DRW with height [n > 0] whose last row read is
    beyond memory, SKP and SKNP with [Vx >= 16]. *)
Definition unguarded (opcode : Z) (s : Chip8) : bool :=
  let h := opcode / 4096 in
  let x := (opcode / 256) mod 16 in
  let y := (opcode / 16) mod 16 in
  let n := opcode mod 16 in
  let lo := opcode mod 256 in
  (h =? 0xF) && (lo =? 0x33) && (CHIP8_MEMORY_SIZE <=? I s + 2)
  || (h =? 0xD) && (0 <? n)
     && (CHIP8_MEMORY_SIZE <=? I s + Z.min n (32 - reg s y mod 32) - 1)
  || (h =? 0xE) && ((lo =? 0x9E) || (lo =? 0xA1)) && (CHIP8_KEYBOARD_SIZE <=? reg s x).

(** LD I, 0xFFE; LD B, V0: the third digit would go to address 4096. *)
Definition rom_bcd_at_ffe : list Z := [0xAF; 0xFE; 0xF0; 0x33].

(** ** The driver: main.cpp

    What main.cpp takes from the Allegro library: the sixteen key codes that
    map_key names, and the keyboard state that al_get_keyboard_state has
    just read, as the function al_key_down answers for it. *)
Record Allegro : Type := mkAllegro {
  ALLEGRO_KEY_1 : Z; ALLEGRO_KEY_2 : Z; ALLEGRO_KEY_3 : Z; ALLEGRO_KEY_4 : Z;
  ALLEGRO_KEY_Q : Z; ALLEGRO_KEY_W : Z; ALLEGRO_KEY_E : Z; ALLEGRO_KEY_R : Z;
  ALLEGRO_KEY_A : Z; ALLEGRO_KEY_S : Z; ALLEGRO_KEY_D : Z; ALLEGRO_KEY_F : Z;
  ALLEGRO_KEY_Z : Z; ALLEGRO_KEY_X : Z; ALLEGRO_KEY_C : Z; ALLEGRO_KEY_V : Z;
  al_key_down : Z -> bool
}.

Definition map_key (A : Allegro) (i : Z) : Z :=
  if i =? 0x0 then ALLEGRO_KEY_1 A
  else if i =? 0x1 then ALLEGRO_KEY_2 A
  else if i =? 0x2 then ALLEGRO_KEY_3 A
  else if i =? 0x3 then ALLEGRO_KEY_4 A
  else if i =? 0x4 then ALLEGRO_KEY_Q A
  else if i =? 0x5 then ALLEGRO_KEY_W A
  else if i =? 0x6 then ALLEGRO_KEY_E A
  else if i =? 0x7 then ALLEGRO_KEY_R A
  else if i =? 0x8 then ALLEGRO_KEY_A A
  else if i =? 0x9 then ALLEGRO_KEY_S A
  else if i =? 0xA then ALLEGRO_KEY_D A
  else if i =? 0xB then ALLEGRO_KEY_F A
  else if i =? 0xC then ALLEGRO_KEY_Z A
  else if i =? 0xD then ALLEGRO_KEY_X A
  else if i =? 0xE then ALLEGRO_KEY_C A
  else if i =? 0xF then ALLEGRO_KEY_V A
  else -1.

(** [for (i = ...; i < CHIP8_KEYBOARD_SIZE; i++)] of the main loop, with
    [n] iterations left: every key is set to 1 or 0 as it is held or not. *)
Fixpoint scan_keys (A : Allegro) (n : nat) (i : Z) (s : Chip8) : Chip8 :=
  match n with
  | O => s
  | S n' =>
      scan_keys A n' (i + 1)
        (if al_key_down A (map_key A i) then set_key i 1 s else set_key i 0 s)
  end.

(** One turn of the main loop: the cycle, the repaint when the redraw flag
    is up, the key scan, the beep when the sound timer runs, and the call
    of render_screen.  The result is the machine after the turn, whether
    the window was repainted, and whether the beep was played; there is
    none when the cycle indexed an array out of bounds. *)
Definition main_loop_turn (A : Allegro) (rnd : Z) (s : Chip8) : option (Chip8 * bool * bool) :=
  match state_after (emulate_cycle rnd s) with
  | None => None
  | Some s1 =>
      let repaint := is_screen_ready_to_redraw s1 in
      let s2 := scan_keys A (Z.to_nat CHIP8_KEYBOARD_SIZE) 0 s1 in
      let beep := play_sound s2 in
      Some (render_screen s2, repaint, beep)
  end.

(** A keyboard on which only the key mapped to CHIP-8 key 0x5 is down. *)
Definition allegro_w_down : Allegro :=
  mkAllegro 28 29 30 31 17 23 5 18 1 19 4 6 26 24 3 22 (fun code => code =? 23).

(** CLS. *)
Definition rom_cls : list Z := [0x00; 0xE0].

(** LD V0, 0xFF; JP V0, 0xFFF. *)
Definition rom_jp_v0 : list Z := [0x60; 0xFF; 0xBF; 0xFF].

(** LD I, 0xFFF; LD V0, 1; ADD I, V0. *)
Definition rom_add_i : list Z := [0xAF; 0xFF; 0x60; 0x01; 0xF0; 0x1E].

(** LD V0, 0x0F; LD V1, 0x55; XOR V0, V1. *)
Definition rom_xor : list Z := [0x60; 0x0F; 0x61; 0x55; 0x80; 0x13].

(** LD V1, 7; LD V2, 7; then 0x512F, an SE V1, V2 with a low nibble of F. *)
Definition rom_se_xy_odd : list Z := [0x61; 0x07; 0x62; 0x07; 0x51; 0x2F].

(** What 8xy0 .. 8xy3 store in Vx. *)
Definition logic_result (k a b : Z) : Z :=
  if k =? 0 then b
  else if k =? 1 then Z.lor a b
  else if k =? 2 then Z.land a b
  else Z.lxor a b.

(** * Basic facts *)

Section Arith.

Lemma in_u8_spec z : in_u8 z = true <-> is_u8 z.
Proof. unfold in_u8, is_u8. rewrite andb_true_iff, Z.leb_le, Z.ltb_lt. tauto. Qed.

Lemma in_u16_spec z : in_u16 z = true <-> is_u16 z.
Proof. unfold in_u16, is_u16. rewrite andb_true_iff, Z.leb_le, Z.ltb_lt. tauto. Qed.

Lemma u8_is_u8 z : is_u8 (u8 z).
Proof. unfold is_u8, u8. apply Z.mod_pos_bound. lia. Qed.

Lemma u16_is_u16 z : is_u16 (u16 z).
Proof. unfold is_u16, u16. apply Z.mod_pos_bound. lia. Qed.

Lemma u8_small z : is_u8 z -> u8 z = z.
Proof. unfold is_u8, u8. intros. apply Z.mod_small. lia. Qed.

Lemma u16_small z : is_u16 z -> u16 z = z.
Proof. unfold is_u16, u16. intros. apply Z.mod_small. lia. Qed.

Lemma land_0xFF z : Z.land z 0xFF = z mod 256.
Proof. change 0xFF with (Z.ones 8). rewrite Z.land_ones by lia. reflexivity. Qed.

Lemma land_0xFFF z : Z.land z 0xFFF = z mod 4096.
Proof. change 0xFFF with (Z.ones 12). rewrite Z.land_ones by lia. reflexivity. Qed.

Lemma land_0xF z : Z.land z 0xF = z mod 16.
Proof. change 0xF with (Z.ones 4). rewrite Z.land_ones by lia. reflexivity. Qed.

Lemma land_1 z : Z.land z 1 = z mod 2.
Proof. change 1 with (Z.ones 1). rewrite Z.land_ones by lia. reflexivity. Qed.

Lemma op_x_eq opcode : op_x opcode = (opcode / 256) mod 16.
Proof.
  unfold op_x. rewrite Z.shiftr_land. change (Z.shiftr 0xF00 8) with 0xF.
  rewrite land_0xF, Z.shiftr_div_pow2 by lia. reflexivity.
Qed.

Lemma op_y_eq opcode : op_y opcode = (opcode / 16) mod 16.
Proof.
  unfold op_y. rewrite Z.shiftr_land. change (Z.shiftr 0xF0 4) with 0xF.
  rewrite land_0xF, Z.shiftr_div_pow2 by lia. reflexivity.
Qed.

Lemma op_x_range opcode : 0 <= op_x opcode < 16.
Proof. rewrite op_x_eq. apply Z.mod_pos_bound. lia. Qed.

Lemma op_y_range opcode : 0 <= op_y opcode < 16.
Proof. rewrite op_y_eq. apply Z.mod_pos_bound. lia. Qed.

Lemma op_nn_range opcode : is_u8 (op_nn opcode).
Proof. unfold op_nn. rewrite land_0xFF. apply u8_is_u8. Qed.

Lemma op_nnn_range opcode : 0 <= op_nnn opcode < 4096.
Proof. unfold op_nnn. rewrite land_0xFFF. apply Z.mod_pos_bound. lia. Qed.

(** A byte is its own low eight bits. *)
Lemma is_u8_land z : is_u8 z <-> Z.land z 0xFF = z.
Proof.
  rewrite land_0xFF. unfold is_u8. split.
  - intros. apply Z.mod_small. lia.
  - intros <-. apply Z.mod_pos_bound. lia.
Qed.

Lemma lor_is_u8 a b : is_u8 a -> is_u8 b -> is_u8 (Z.lor a b).
Proof.
  rewrite !is_u8_land. intros Ha Hb.
  rewrite Z.land_lor_distr_l, Ha, Hb. reflexivity.
Qed.

Lemma land_lxor_distr a b c :
  Z.land (Z.lxor a b) c = Z.lxor (Z.land a c) (Z.land b c).
Proof.
  apply Z.bits_inj'. intros n Hn.
  rewrite Z.land_spec, !Z.lxor_spec, !Z.land_spec.
  destruct (Z.testbit a n), (Z.testbit b n), (Z.testbit c n); reflexivity.
Qed.

Lemma lxor_is_u8 a b : is_u8 a -> is_u8 b -> is_u8 (Z.lxor a b).
Proof.
  rewrite !is_u8_land. intros Ha Hb.
  rewrite land_lxor_distr, Ha, Hb. reflexivity.
Qed.

Lemma land_is_u8 a b : is_u8 b -> is_u8 (Z.land a b).
Proof.
  rewrite !is_u8_land. intros Hb.
  rewrite <- Z.land_assoc, Hb. reflexivity.
Qed.

Lemma shiftr_is_u8 a n : 0 <= n -> is_u8 a -> is_u8 (Z.shiftr a n).
Proof.
  unfold is_u8. intros Hn Ha. rewrite Z.shiftr_div_pow2 by lia.
  assert (0 < 2 ^ n) by (apply Z.pow_pos_nonneg; lia).
  split.
  - apply Z.div_pos; lia.
  - apply Z.le_lt_trans with a; [|lia].
    apply Z.div_le_upper_bound; nia.
Qed.

Lemma sprite_pixel_of_bit b col : sprite_pixel_of b col = 0 \/ sprite_pixel_of b col = 1.
Proof.
  unfold sprite_pixel_of. rewrite land_1.
  pose proof (Z.mod_pos_bound (Z.shiftr b (7 - col)) 2). lia.
Qed.

Lemma tick_is_u8 t : is_u8 t -> is_u8 (tick t).
Proof. unfold tick. intros. destruct (0 <? t); [apply u8_is_u8 | assumption]. Qed.

Lemma tick_eq t : is_u8 t -> tick t = if 0 <? t then t - 1 else 0.
Proof.
  unfold tick, is_u8. intros. destruct (Z.ltb_spec 0 t).
  - apply u8_small. unfold is_u8. lia.
  - lia.
Qed.

End Arith.

Section Arrays.

Implicit Types (a : list Z) (i j v : Z).

Lemma length_put a i v : length (put a i v) = length a.
Proof. apply length_insert. Qed.

Lemma Forall_put (P : Z -> Prop) a i v : Forall P a -> P v -> Forall P (put a i v).
Proof. apply Forall_insert. Qed.

Lemma Forall_get (P : Z -> Prop) a i :
  Forall P a -> 0 <= i < Z.of_nat (length a) -> P (get a i).
Proof. intros Ha Hi. unfold get. apply Forall_lookup_total_1; [assumption | lia]. Qed.

Lemma get_put_eq a i v : 0 <= i < Z.of_nat (length a) -> get (put a i v) i = v.
Proof. intros Hi. unfold get, put. apply list_lookup_total_insert_eq. lia. Qed.

Lemma get_put_ne a i j v : 0 <= i -> 0 <= j -> i <> j -> get (put a i v) j = get a j.
Proof. intros Hi Hj Hne. unfold get, put. apply list_lookup_total_insert_ne. lia. Qed.

Lemma put_put_eq a i v w : put (put a i v) i w = put a i w.
Proof. apply list_insert_insert_eq. Qed.

Lemma lookup_get a i v : a !! Z.to_nat i = Some v -> get a i = v.
Proof. intros H. unfold get. apply list_lookup_total_correct. assumption. Qed.

Lemma get_lookup a i : 0 <= i < Z.of_nat (length a) -> a !! Z.to_nat i = Some (get a i).
Proof. intros Hi. unfold get. apply list_lookup_lookup_total_lt. lia. Qed.

Lemma ld_in_range a i : 0 <= i < Z.of_nat (length a) -> ld a i = Some (get a i).
Proof.
  intros Hi. unfold ld.
  destruct (Z.leb_spec 0 i), (Z.ltb_spec i (Z.of_nat (length a))); try lia.
  simpl. apply get_lookup. lia.
Qed.

Lemma ld_out_of_range a i : ~ 0 <= i < Z.of_nat (length a) -> ld a i = None.
Proof.
  intros Hi. unfold ld.
  destruct (Z.leb_spec 0 i), (Z.ltb_spec i (Z.of_nat (length a))); try lia; reflexivity.
Qed.

Lemma ld_Some a i v : ld a i = Some v -> 0 <= i < Z.of_nat (length a) /\ get a i = v.
Proof.
  intros H. destruct (decide (0 <= i < Z.of_nat (length a))) as [Hi|Hi].
  - rewrite ld_in_range in H by assumption. split; congruence.
  - rewrite ld_out_of_range in H by assumption. discriminate.
Qed.

Lemma sto_in_range a i v : 0 <= i < Z.of_nat (length a) -> sto a i v = Some (put a i v).
Proof.
  intros Hi. unfold sto.
  destruct (Z.leb_spec 0 i), (Z.ltb_spec i (Z.of_nat (length a))); try lia.
  reflexivity.
Qed.

Lemma sto_out_of_range a i v : ~ 0 <= i < Z.of_nat (length a) -> sto a i v = None.
Proof.
  intros Hi. unfold sto.
  destruct (Z.leb_spec 0 i), (Z.ltb_spec i (Z.of_nat (length a))); try lia; reflexivity.
Qed.

Lemma sto_Some a i v a' :
  sto a i v = Some a' -> 0 <= i < Z.of_nat (length a) /\ a' = put a i v.
Proof.
  intros H. destruct (decide (0 <= i < Z.of_nat (length a))) as [Hi|Hi].
  - rewrite sto_in_range in H by assumption. split; congruence.
  - rewrite sto_out_of_range in H by assumption. discriminate.
Qed.

Lemma length_write_bytes bytes : forall a i, length (write_bytes a i bytes) = length a.
Proof.
  induction bytes as [|b bs IH]; intros a i; simpl; [reflexivity|].
  rewrite IH. apply length_put.
Qed.

Lemma Forall_write_bytes (P : Z -> Prop) bytes :
  forall a i, Forall P a -> Forall P bytes -> Forall P (write_bytes a i bytes).
Proof.
  induction bytes as [|b bs IH]; intros a i Ha Hb; simpl; [assumption|].
  inversion Hb; subst. apply IH; [apply Forall_put|]; assumption.
Qed.

Lemma forallb_Forall (f : Z -> bool) (P : Z -> Prop) a :
  (forall z, f z = true -> P z) -> forallb f a = true -> Forall P a.
Proof.
  intros Hf. induction a as [|z a IH]; simpl; intros H; constructor.
  - apply Hf. apply andb_true_iff in H. tauto.
  - apply IH. apply andb_true_iff in H. tauto.
Qed.

Lemma Forall_replicate_0 (P : Z -> Prop) n : P 0 -> Forall P (replicate n 0).
Proof. intros H. induction n; simpl; constructor; assumption. Qed.

End Arrays.

Lemma wf_check_sound s : wf_check s = true -> wf s.
Proof.
  unfold wf_check. intros H.
  repeat (apply andb_prop in H; destruct H as [H ?]).
  pose proof (fun a => forallb_Forall in_u8 is_u8 a (fun z => proj1 (in_u8_spec z))) as B8.
  pose proof (fun a => forallb_Forall in_u16 is_u16 a (fun z => proj1 (in_u16_spec z))) as B16.
  repeat match goal with
    | E : (_ <=? _) = true |- _ => apply Z.leb_le in E
    | E : (_ <? _) = true |- _ => apply Z.ltb_lt in E
    | E : (_ =? _) = true |- _ => apply Z.eqb_eq in E
    end.
  constructor;
    first [ apply B8; assumption | apply B16; assumption
          | apply in_u8_spec; assumption | apply in_u16_spec; assumption
          | unfold is_u8, is_u16; lia ].
Qed.

(** ** Writing one member keeps the state well formed *)

Section WfSetters.

Variable s : Chip8.
Hypothesis Hwf : wf s.

Lemma wf_set_loaded_rom_size v : is_u16 v -> wf (set_loaded_rom_size v s).
Proof. intros; destruct Hwf; constructor; simpl; assumption. Qed.

Lemma wf_set_draw_flag b : wf (set_draw_flag b s).
Proof. destruct Hwf; constructor; simpl; assumption. Qed.

Lemma wf_set_memory m :
  Z.of_nat (length m) = 4096 -> Forall is_u8 m -> wf (set_memory m s).
Proof. intros; destruct Hwf; constructor; simpl; assumption. Qed.

Lemma wf_set_V v : Z.of_nat (length v) = 16 -> Forall is_u8 v -> wf (set_V v s).
Proof. intros; destruct Hwf; constructor; simpl; assumption. Qed.

Lemma wf_set_I v : is_u16 v -> wf (set_I v s).
Proof. intros; destruct Hwf; constructor; simpl; assumption. Qed.

Lemma wf_set_pc v : is_u16 v -> wf (set_pc v s).
Proof. intros; destruct Hwf; constructor; simpl; assumption. Qed.

Lemma wf_set_stack v : Z.of_nat (length v) = 16 -> Forall is_u16 v -> wf (set_stack v s).
Proof. intros; destruct Hwf; constructor; simpl; assumption. Qed.

Lemma wf_set_sp v : 0 <= v <= 16 -> wf (set_sp v s).
Proof. intros; destruct Hwf; constructor; simpl; assumption. Qed.

Lemma wf_set_delayTimer v : is_u8 v -> wf (set_delayTimer v s).
Proof. intros; destruct Hwf; constructor; simpl; assumption. Qed.

Lemma wf_set_soundTimer v : is_u8 v -> wf (set_soundTimer v s).
Proof. intros; destruct Hwf; constructor; simpl; assumption. Qed.

Lemma wf_set_gfx v : Z.of_nat (length v) = 2048 -> Forall is_u8 v -> wf (set_gfx v s).
Proof. intros; destruct Hwf; constructor; simpl; assumption. Qed.

Lemma wf_set_keys v : Z.of_nat (length v) = 16 -> Forall is_u8 v -> wf (set_keys v s).
Proof. intros; destruct Hwf; constructor; simpl; assumption. Qed.

Lemma wf_set_reg x v : is_u8 v -> wf (set_reg x v s).
Proof.
  intros Hv. unfold set_reg. apply wf_set_V.
  - rewrite length_put. apply Hwf.
  - apply Forall_put; [apply Hwf | assumption].
Qed.

Lemma reg_is_u8 x : 0 <= x < 16 -> is_u8 (reg s x).
Proof.
  intros Hx. unfold reg. apply Forall_get; [apply Hwf|].
  rewrite (wf_V_len s Hwf). lia.
Qed.

Lemma wf_skip_if b : wf (skip_if b s).
Proof. unfold skip_if. destruct b; [apply wf_set_pc, u16_is_u16 | assumption]. Qed.

End WfSetters.

Create HintDb chip8.

#[local] Hint Resolve wf_set_loaded_rom_size wf_set_draw_flag wf_set_memory wf_set_V
  wf_set_I wf_set_pc wf_set_stack wf_set_sp wf_set_delayTimer wf_set_soundTimer
  wf_set_gfx wf_set_keys wf_set_reg wf_skip_if reg_is_u8
  u8_is_u8 u16_is_u16 op_x_range op_y_range op_nn_range
  lor_is_u8 lxor_is_u8 land_is_u8 shiftr_is_u8 tick_is_u8 : chip8.

(** ** Every operation keeps the state well formed *)

Section WfPreserved.

Lemma wf_clear_video_buffer s : wf s -> wf (clear_video_buffer s).
Proof.
  intros Hwf. unfold clear_video_buffer. apply wf_set_gfx; [assumption| |].
  - rewrite length_replicate. apply Hwf.
  - apply Forall_replicate_0. unfold is_u8. lia.
Qed.

Lemma wf_op_ret s : wf s -> holds_after wf (op_ret s).
Proof.
  intros Hwf. unfold op_ret, holds_after.
  destruct (Z.eqb_spec (sp s) 0) as [H0|H0]; simpl; [assumption|].
  pose proof (wf_sp s Hwf) as Hsp.
  rewrite u8_small by (unfold is_u8; lia).
  rewrite ld_in_range by (rewrite (wf_stack_len s Hwf); lia). simpl.
  apply wf_set_pc; [apply wf_set_sp; [assumption | lia]|].
  apply Forall_get; [apply Hwf|]. rewrite (wf_stack_len s Hwf). lia.
Qed.

Lemma wf_op_call opcode s : wf s -> holds_after wf (op_call opcode s).
Proof.
  intros Hwf. unfold op_call, holds_after, CHIP8_STACK_SIZE.
  destruct (Z.leb_spec 16 (sp s)) as [H0|H0]; simpl; [assumption|].
  pose proof (wf_sp s Hwf) as Hsp.
  rewrite sto_in_range by (rewrite (wf_stack_len s Hwf); lia). simpl.
  rewrite u8_small by (unfold is_u8; lia).
  apply wf_set_pc; [apply wf_set_sp; [apply wf_set_stack; [assumption| |] | lia]|].
  - rewrite length_put. apply Hwf.
  - apply Forall_put; apply Hwf.
  - pose proof (op_nnn_range opcode). unfold is_u16. lia.
Qed.

Lemma wf_op_alu opcode s : wf s -> wf (op_alu opcode s).
Proof.
  intros Hwf. unfold op_alu, op_add_xy, op_sub_xy, op_shr, op_subn_xy, op_shl.
  assert (H01 : forall b : bool, is_u8 (if b then 1 else 0))
    by (intros []; unfold is_u8; lia).
  assert (Hbit : forall z, is_u8 (Z.land z 0x01))
    by (intros z; apply land_is_u8; unfold is_u8; lia).
  repeat match goal with |- context [if ?c then _ else _] =>
    lazymatch c with Z.eqb _ _ => destruct c end end;
    auto 10 using land_is_u8 with chip8.
  - apply wf_set_reg; [auto with chip8|]. rewrite land_0xFF. apply u8_is_u8.
  - apply wf_set_reg; [auto with chip8|]. apply shiftr_is_u8; [lia|].
    apply reg_is_u8; auto with chip8.
  - apply wf_set_reg; [apply wf_set_reg; [assumption|]|auto with chip8].
    apply shiftr_is_u8; [lia|]. apply land_is_u8. unfold is_u8; lia.
Qed.

Lemma wf_op_skp opcode s : wf s -> holds_after wf (op_skp opcode s).
Proof.
  intros Hwf. unfold op_skp, holds_after.
  destruct (ld (key s) _); simpl; auto with chip8.
Qed.

Lemma wf_op_sknp opcode s : wf s -> holds_after wf (op_sknp opcode s).
Proof.
  intros Hwf. unfold op_sknp, holds_after.
  destruct (ld (key s) _); simpl; auto with chip8.
Qed.

Lemma first_key_range keys : forall n i k,
  0 <= i -> first_key n i keys = Some k -> i <= k < i + Z.of_nat n.
Proof.
  induction n as [|n IH]; intros i k Hi; simpl; [discriminate|].
  destruct (negb _).
  - intros [= <-]. lia.
  - intros H. apply IH in H; lia.
Qed.

Lemma wf_op_ld_vx_k opcode s : wf s -> wf (op_ld_vx_k opcode s).
Proof.
  intros Hwf. unfold op_ld_vx_k.
  destruct (first_key _ 0 (key s)) as [k|] eqn:Hk; [|auto with chip8].
  apply first_key_range in Hk; [|lia]. apply wf_set_reg; [assumption|].
  unfold is_u8, CHIP8_KEYBOARD_SIZE in *. lia.
Qed.

Lemma wf_op_add_i opcode s : wf s -> wf (op_add_i opcode s).
Proof.
  intros Hwf. unfold op_add_i. simpl.
  destruct (_ <=? _); repeat apply wf_set_I; auto with chip8.
  unfold is_u16. lia.
Qed.

Lemma wf_op_ld_f opcode s : wf s -> wf (op_ld_f opcode s).
Proof.
  intros Hwf. unfold op_ld_f.
  destruct (_ <=? _); apply wf_set_I; auto with chip8. unfold is_u16. lia.
Qed.

Lemma bcd_digits value :
  is_u8 value -> is_u8 (value / 100) /\ is_u8 ((value / 10) mod 10) /\ is_u8 (value mod 10).
Proof.
  unfold is_u8. intros H.
  pose proof (Z.mod_pos_bound (value / 10) 10).
  pose proof (Z.mod_pos_bound value 10).
  assert (0 <= value / 100 < 3); [|lia].
  split; [apply Z.div_pos; lia | apply Z.div_lt_upper_bound; lia].
Qed.

Lemma wf_op_bcd opcode s : wf s -> holds_after wf (op_bcd opcode s).
Proof.
  intros Hwf. unfold op_bcd, holds_after.
  destruct (bcd_digits (reg s (op_x opcode))) as (H1 & H2 & H3); [auto with chip8|].
  destruct (sto (memory s) _ _) as [m1|] eqn:E1; [|exact Logic.I].
  destruct (sto m1 _ _) as [m2|] eqn:E2; [|exact Logic.I].
  destruct (sto m2 _ _) as [m3|] eqn:E3; [|exact Logic.I].
  apply sto_Some in E1 as [_ ->], E2 as [_ ->], E3 as [_ ->]. simpl.
  apply wf_set_memory; [assumption| |].
  - rewrite !length_put. apply Hwf.
  - repeat apply Forall_put; try assumption. apply Hwf.
Qed.

Lemma wf_dump_regs : forall n i s s',
  wf s -> 0 <= i -> i + Z.of_nat n <= 16 -> dump_regs n i s = Some s' -> wf s'.
Proof.
  induction n as [|n IH]; intros i s s' Hwf Hi Hn; simpl.
  - intros [= <-]. assumption.
  - destruct (sto (memory s) _ _) as [m|] eqn:E; [|discriminate].
    apply sto_Some in E as [_ ->]. apply IH; [|lia|lia].
    apply wf_set_memory; [assumption| |].
    + rewrite length_put. apply Hwf.
    + apply Forall_put; [apply Hwf|]. apply reg_is_u8; [assumption|lia].
Qed.

Lemma wf_load_regs : forall n i s s',
  wf s -> load_regs n i s = Some s' -> wf s'.
Proof.
  induction n as [|n IH]; intros i s s' Hwf; simpl.
  - intros [= <-]. assumption.
  - destruct (ld (memory s) _) as [b|] eqn:E; [|discriminate].
    apply ld_Some in E as [Hr <-]. apply IH.
    apply wf_set_reg; [assumption|]. apply Forall_get; [apply Hwf | assumption].
Qed.

Lemma wf_op_dump opcode s : wf s -> holds_after wf (op_dump opcode s).
Proof.
  intros Hwf. unfold op_dump, holds_after.
  destruct (_ <=? _); simpl; [assumption|].
  destruct (dump_regs _ 0 s) as [s1|] eqn:E; simpl; [|exact Logic.I].
  pose proof (op_x_range opcode).
  eapply wf_dump_regs in E; [eassumption|assumption|lia|lia].
Qed.

Lemma wf_op_load opcode s : wf s -> holds_after wf (op_load opcode s).
Proof.
  intros Hwf. unfold op_load, holds_after.
  destruct (_ <=? _); simpl; [assumption|].
  destruct (load_regs _ 0 s) as [s1|] eqn:E; simpl; [|exact Logic.I].
  eapply wf_load_regs in E; eassumption.
Qed.

Lemma wf_op_misc opcode s : wf s -> holds_after wf (op_misc opcode s).
Proof.
  intros Hwf. unfold op_misc.
  repeat match goal with |- context [if ?c then _ else _] =>
    lazymatch c with Z.eqb _ _ => destruct c end end;
    auto using wf_op_bcd, wf_op_dump, wf_op_load;
    unfold holds_after; simpl;
    auto using wf_op_ld_vx_k, wf_op_add_i, wf_op_ld_f with chip8.
  apply wf_set_reg; [assumption | apply Hwf].
Qed.

End WfPreserved.

Section WfDraw.

Lemma wf_plot p b s : wf s -> is_u8 b -> wf (plot p b s).
Proof.
  intros Hwf Hb. unfold plot.
  match goal with |- wf (set_gfx _ ?t) => set (s1 := t) end.
  assert (H1 : wf s1).
  { unfold s1. destruct (_ && _); [|assumption].
    apply wf_set_reg; [assumption|]. unfold is_u8. lia. }
  apply wf_set_gfx; [assumption| |].
  - rewrite length_put. apply H1.
  - apply Forall_put; [apply H1|].
    apply lxor_is_u8; [|assumption].
    destruct (decide (0 <= p < Z.of_nat (length (gfx s1)))) as [Hp|Hp].
    + apply Forall_get; [apply H1 | assumption].
    + unfold get. rewrite list_lookup_total_alt.
      destruct (gfx s1 !! Z.to_nat p) as [z|] eqn:E; simpl.
      * eapply Forall_lookup_1; [apply (wf_gfx s1 H1) | eassumption].
      * unfold is_u8. lia.
Qed.

Lemma sprite_pixel_of_u8 b col : is_u8 (sprite_pixel_of b col).
Proof. unfold is_u8. destruct (sprite_pixel_of_bit b col); lia. Qed.

Lemma wf_draw_cols : forall n col b x y row s,
  wf s -> wf (draw_cols n col b x y row s).
Proof.
  induction n as [|n IH]; intros; simpl; [assumption|].
  apply IH. apply wf_plot; [assumption | apply sprite_pixel_of_u8].
Qed.

Lemma wf_draw_rows : forall n row x y s s',
  wf s -> draw_rows n row x y s = Some s' -> wf s'.
Proof.
  induction n as [|n IH]; intros row x y s s' Hwf; cbn [draw_rows].
  - intros [= <-]. assumption.
  - destruct (_ <=? _); [intros [= <-]; assumption|].
    destruct (ld (memory s) _) as [b|]; [|discriminate].
    apply IH. apply wf_draw_cols. assumption.
Qed.

Lemma wf_draw_sprite x y h s : wf s -> holds_after wf (draw_sprite x y h s).
Proof.
  intros Hwf. unfold draw_sprite, holds_after.
  destruct (draw_rows _ _ _ _ _) as [s1|] eqn:E; simpl; [|exact Logic.I].
  apply wf_set_draw_flag. eapply wf_draw_rows; [|eassumption].
  apply wf_set_reg; [assumption|]. unfold is_u8. lia.
Qed.

End WfDraw.

Section WfCycle.

Lemma wf_execute rnd opcode s : wf s -> holds_after wf (execute rnd opcode s).
Proof.
  intros Hwf. unfold execute.
  pose proof (op_nnn_range opcode) as Hnnn.
  repeat match goal with |- context [if ?c then _ else _] =>
    lazymatch c with Z.eqb _ _ => destruct c end end;
    auto using wf_op_ret, wf_op_call, wf_draw_sprite, wf_op_skp, wf_op_sknp, wf_op_misc;
    unfold holds_after; simpl;
    auto using wf_clear_video_buffer, wf_op_alu with chip8.
  - apply wf_set_pc; [assumption|]. unfold is_u16. lia.
  - apply wf_set_I; [assumption|]. unfold is_u16. lia.
Qed.

Lemma wf_timers s : wf s -> wf (timers s).
Proof.
  intros Hwf. unfold timers. apply wf_set_soundTimer.
  - apply wf_set_delayTimer; [assumption|]. apply tick_is_u8, Hwf.
  - simpl. apply tick_is_u8, Hwf.
Qed.

Lemma wf_emulate_cycle rnd s : wf s -> holds_after wf (emulate_cycle rnd s).
Proof.
  intros Hwf. unfold emulate_cycle.
  destruct (_ <=? _); [exact Hwf|].
  destruct (fetch s) as [opcode|]; [|exact Logic.I].
  pose proof (wf_execute rnd opcode (set_pc (u16 (pc s + 2)) s)) as H.
  unfold holds_after in *.
  destruct (execute _ _ _); simpl in *; auto using wf_timers with chip8.
Qed.

Lemma wf_Chip8_new : wf Chip8_new.
Proof. apply wf_check_sound. vm_compute. reflexivity. Qed.

Lemma wf_load_rom file s :
  wf s -> (forall bytes, file = Some bytes -> Forall is_u8 bytes) ->
  wf (snd (load_rom file s)).
Proof.
  intros Hwf Hfile. unfold load_rom. destruct file as [bytes|]; [|assumption].
  specialize (Hfile bytes eq_refl). simpl loaded_rom_size.
  assert (H1 : wf (set_loaded_rom_size (u16 (Z.of_nat (length bytes))) s))
    by auto with chip8.
  destruct (_ <? _); simpl snd; [assumption|].
  apply wf_set_memory; [assumption| |].
  - rewrite length_write_bytes. apply Hwf.
  - apply Forall_write_bytes; [apply Hwf|]. apply Forall_take. assumption.
Qed.

Lemma wf_set_key key_index value s : wf s -> is_u8 value -> wf (set_key key_index value s).
Proof.
  intros Hwf Hv. unfold set_key. destruct (_ <? _); [|assumption].
  apply wf_set_keys; [assumption| |].
  - rewrite length_put. apply Hwf.
  - apply Forall_put; [apply Hwf | assumption].
Qed.

Lemma wf_render_screen s : wf s -> wf (render_screen s).
Proof. intros Hwf. unfold render_screen. destruct (negb _); auto with chip8. Qed.

Lemma reachable_wf s : reachable s -> wf s.
Proof.
  induction 1 as [|file s _ IH Hf|rnd s s' _ IH _ Hs|k v s _ IH _ Hv|s _ IH].
  - apply wf_Chip8_new.
  - apply wf_load_rom; assumption.
  - pose proof (wf_emulate_cycle rnd s IH) as H. unfold holds_after in H.
    rewrite Hs in H. assumption.
  - apply wf_set_key; assumption.
  - apply wf_render_screen. assumption.
Qed.

End WfCycle.

(** * Decoding *)

Section Decode.

Lemma land_0xF000 z : Z.land z 0xF000 = 4096 * ((z / 4096) mod 16).
Proof.
  transitivity (Z.shiftl (Z.land (Z.shiftr z 12) (Z.ones 4)) 12).
  2:{ rewrite Z.shiftl_mul_pow2, Z.land_ones, Z.shiftr_div_pow2 by lia.
      change (2 ^ 12) with 4096. change (2 ^ 4) with 16. lia. }
  apply Z.bits_inj'. intros n Hn.
  rewrite Z.land_spec.
  destruct (Z.ltb_spec n 12).
  - rewrite Z.shiftl_spec_low by lia.
    change 0xF000 with (Z.shiftl 0xF 12). rewrite Z.shiftl_spec_low by lia.
    apply andb_false_r.
  - rewrite Z.shiftl_spec by lia. rewrite Z.land_spec, Z.shiftr_spec by lia.
    change 0xF000 with (Z.shiftl (Z.ones 4) 12). rewrite Z.shiftl_spec by lia.
    replace (n - 12 + 12) with n by lia. reflexivity.
Qed.

End Decode.

(** The fields of an opcode as quotients and remainders, then arithmetic. *)
Ltac decode :=
  unfold op_nn, op_nnn;
  rewrite ?land_0xF000, ?land_0xFF, ?land_0xFFF, ?land_0xF, ?op_x_eq, ?op_y_eq;
  Z.div_mod_to_equations; lia.

(** Case analysis along a chain of [if _ =? _ then _ else _]. *)
Ltac switch :=
  repeat match goal with
  | |- context [if ?a =? ?b then _ else _] => destruct (Z.eqb_spec a b)
  end.

(** * What the loops leave alone *)

Section Frames.

Lemma draw_frame_refl s : draw_frame s s.
Proof. constructor; reflexivity. Qed.

Lemma draw_frame_trans s1 s2 s3 : draw_frame s1 s2 -> draw_frame s2 s3 -> draw_frame s1 s3.
Proof. intros [] []. constructor; congruence. Qed.

Lemma draw_frame_plot p b s : draw_frame s (plot p b s).
Proof. unfold plot. destruct (_ && _); constructor; reflexivity. Qed.

Lemma draw_frame_draw_cols : forall n col b x y row s,
  draw_frame s (draw_cols n col b x y row s).
Proof.
  induction n as [|n IH]; intros; simpl; [apply draw_frame_refl|].
  eapply draw_frame_trans; [apply draw_frame_plot | apply IH].
Qed.

Lemma draw_frame_draw_rows : forall n row x y s s',
  draw_rows n row x y s = Some s' -> draw_frame s s'.
Proof.
  induction n as [|n IH]; intros row x y s s'; cbn [draw_rows].
  - intros [= <-]. apply draw_frame_refl.
  - destruct (_ <=? _); [intros [= <-]; apply draw_frame_refl|].
    destruct (ld (memory s) _) as [b|]; [|discriminate].
    intros H. apply IH in H.
    eapply draw_frame_trans; [apply draw_frame_draw_cols | exact H].
Qed.

Lemma draw_frame_draw_sprite x y h s s' :
  draw_sprite x y h s = Done s' -> draw_frame s s'.
Proof.
  unfold draw_sprite. destruct (draw_rows _ _ _ _ _) as [s1|] eqn:E; [|discriminate].
  intros [= <-]. apply draw_frame_draw_rows in E. destruct E. constructor; assumption.
Qed.

(** The register dump writes memory only. *)
Lemma dump_regs_frame : forall n i s s',
  dump_regs n i s = Some s' -> s' = set_memory (memory s') s.
Proof.
  induction n as [|n IH]; intros i s s'; simpl.
  - intros [= <-]. destruct s; reflexivity.
  - destruct (sto (memory s) _ _) as [m|]; [|discriminate].
    intros H. apply IH in H. rewrite H. reflexivity.
Qed.

(** The register load writes registers only. *)
Lemma load_regs_frame : forall n i s s',
  load_regs n i s = Some s' -> s' = set_V (V s') s.
Proof.
  induction n as [|n IH]; intros i s s'; simpl.
  - intros [= <-]. destruct s; reflexivity.
  - destruct (ld (memory s) _) as [b|]; [|discriminate].
    intros H. apply IH in H. rewrite H. reflexivity.
Qed.

End Frames.

(** * The index register and the timers across one instruction *)

Section Control.

Lemma ctl_frame_refl s : ctl_frame s s.
Proof. repeat split. Qed.

Ltac frame_triv := unfold ctl_frame; simpl; repeat split; reflexivity.

Lemma ctl_frame_of_draw s s' : draw_frame s s' -> ctl_frame s s'.
Proof. intros []. repeat split; assumption. Qed.

Lemma ctl_op_ret s : holds_after (ctl_frame s) (op_ret s).
Proof.
  unfold op_ret, holds_after. destruct (_ =? _); simpl; [frame_triv|].
  destruct (ld _ _); simpl; [frame_triv | exact Logic.I].
Qed.

Lemma ctl_op_call opcode s : holds_after (ctl_frame s) (op_call opcode s).
Proof.
  unfold op_call, holds_after. destruct (_ <=? _); simpl; [frame_triv|].
  destruct (sto _ _ _); simpl; [frame_triv | exact Logic.I].
Qed.

Lemma ctl_op_alu opcode s : ctl_frame s (op_alu opcode s).
Proof. unfold op_alu. switch; frame_triv. Qed.

Lemma ctl_skip_if b s : ctl_frame s (skip_if b s).
Proof. destruct b; frame_triv. Qed.

Lemma ctl_op_skp opcode s : holds_after (ctl_frame s) (op_skp opcode s).
Proof.
  unfold op_skp, holds_after.
  destruct (ld _ _); simpl; [apply ctl_skip_if | exact Logic.I].
Qed.

Lemma ctl_op_sknp opcode s : holds_after (ctl_frame s) (op_sknp opcode s).
Proof.
  unfold op_sknp, holds_after.
  destruct (ld _ _); simpl; [apply ctl_skip_if | exact Logic.I].
Qed.

Lemma ctl_draw_sprite x y h s : holds_after (ctl_frame s) (draw_sprite x y h s).
Proof.
  unfold holds_after. destruct (draw_sprite x y h s) as [s'| |] eqn:E; simpl.
  - apply ctl_frame_of_draw. eapply draw_frame_draw_sprite. eassumption.
  - unfold draw_sprite in E. destruct (draw_rows _ _ _ _ _); discriminate.
  - exact Logic.I.
Qed.

Lemma ctl_op_ld_vx_k opcode s : ctl_frame s (op_ld_vx_k opcode s).
Proof. unfold op_ld_vx_k. destruct (first_key _ _ _); frame_triv. Qed.

Lemma ctl_op_bcd opcode s : holds_after (ctl_frame s) (op_bcd opcode s).
Proof.
  unfold op_bcd, holds_after.
  repeat (destruct (sto _ _ _); [|exact Logic.I]). frame_triv.
Qed.

Lemma ctl_op_dump opcode s : holds_after (ctl_frame s) (op_dump opcode s).
Proof.
  unfold op_dump, holds_after. destruct (_ <=? _); simpl; [frame_triv|].
  destruct (dump_regs _ _ _) as [s'|] eqn:E; simpl; [|exact Logic.I].
  apply dump_regs_frame in E. rewrite E. frame_triv.
Qed.

Lemma ctl_op_load opcode s : holds_after (ctl_frame s) (op_load opcode s).
Proof.
  unfold op_load, holds_after. destruct (_ <=? _); simpl; [frame_triv|].
  destruct (load_regs _ _ _) as [s'|] eqn:E; simpl; [|exact Logic.I].
  apply load_regs_frame in E. rewrite E. frame_triv.
Qed.

(** ADD I, Vx and LD F, Vx leave a valid address in I, whatever it was. *)
Lemma I_op_add_i opcode s : 0 <= I (op_add_i opcode s) < CHIP8_MEMORY_SIZE.
Proof.
  unfold op_add_i. simpl. destruct (Z.leb_spec CHIP8_MEMORY_SIZE (u16 (I s + reg s (op_x opcode)))).
  - simpl. unfold CHIP8_MEMORY_SIZE. lia.
  - simpl. pose proof (u16_is_u16 (I s + reg s (op_x opcode))) as Hu.
    unfold is_u16 in Hu. lia.
Qed.

Lemma I_op_ld_f opcode s : wf s -> 0 <= I (op_ld_f opcode s) < CHIP8_MEMORY_SIZE.
Proof.
  intros Hwf. unfold op_ld_f, CHIP8_MEMORY_SIZE, CHIP8_FONT_START_ADDRESS_IN_MEMORY.
  pose proof (reg_is_u8 s Hwf _ (op_x_range opcode)) as Hr. unfold is_u8 in Hr.
  destruct (Z.leb_spec 16 (reg s (op_x opcode))); simpl; [lia|].
  rewrite u16_small by (unfold is_u16; lia). lia.
Qed.

(** An operation that keeps I and the timers, away from Fx15 and Fx18. *)
Lemma ctl_post_of_frame opcode s o :
  is_ld_dt opcode = false -> is_ld_st opcode = false ->
  holds_after (ctl_frame s) o -> holds_after (ctl_post opcode s) o.
Proof.
  intros Hd Hs. unfold holds_after. destruct (state_after o); [|trivial].
  intros (H1 & H2 & H3). unfold ctl_post. rewrite Hd, Hs, H1, H2, H3. tauto.
Qed.

Lemma ctl_op_misc opcode s :
  wf s -> Z.land opcode 0xF000 = 0xF000 ->
  holds_after (ctl_post opcode s) (op_misc opcode s).
Proof.
  intros Hwf Hh.
  destruct (Z.eqb_spec (Z.land opcode 0xFF) 0x15) as [E15|E15];
    [|destruct (Z.eqb_spec (Z.land opcode 0xFF) 0x18) as [E18|E18]].
  - unfold op_misc. rewrite E15. cbn -[reg op_x].
    unfold holds_after, ctl_post, is_ld_dt, is_ld_st. rewrite Hh, E15. simpl. tauto.
  - unfold op_misc. rewrite E18. cbn -[reg op_x].
    unfold holds_after, ctl_post, is_ld_dt, is_ld_st. rewrite Hh, E18. simpl. tauto.
  - assert (Hd : is_ld_dt opcode = false).
    { unfold is_ld_dt. apply andb_false_intro2, Z.eqb_neq. assumption. }
    assert (Hs : is_ld_st opcode = false).
    { unfold is_ld_st. apply andb_false_intro2, Z.eqb_neq. assumption. }
    unfold op_misc. switch; try lia;
      try (apply ctl_post_of_frame; [assumption..|];
           first [ apply ctl_op_bcd | apply ctl_op_dump | apply ctl_op_load
                 | unfold holds_after; simpl;
                   first [ frame_triv | apply ctl_op_ld_vx_k ] ]).
    + unfold holds_after, ctl_post. cbn [state_after]. rewrite Hd, Hs.
      split; [intros _; apply I_op_add_i|]. unfold op_add_i. simpl. destruct (_ <=? _); simpl; tauto.
    + unfold holds_after, ctl_post. cbn [state_after]. rewrite Hd, Hs.
      split; [intros _; apply I_op_ld_f; assumption|]. unfold op_ld_f. destruct (_ <=? _); simpl; tauto.
Qed.

Lemma ctl_execute rnd opcode s :
  wf s -> holds_after (ctl_post opcode s) (execute rnd opcode s).
Proof.
  intros Hwf.
  destruct (Z.eqb_spec (Z.land opcode 0xF000) 0xF000) as [EF|EF].
  - unfold execute. rewrite EF. cbn -[op_misc reg op_x op_y op_nn]. apply ctl_op_misc; assumption.
  - assert (Hd : is_ld_dt opcode = false).
    { unfold is_ld_dt. apply andb_false_intro1, Z.eqb_neq. assumption. }
    assert (Hs : is_ld_st opcode = false).
    { unfold is_ld_st. apply andb_false_intro1, Z.eqb_neq. assumption. }
    pose proof (op_nnn_range opcode) as Hnnn.
    unfold execute. switch; try lia;
      try (apply ctl_post_of_frame; [assumption..|];
           first [ apply ctl_op_ret | apply ctl_op_call | apply ctl_draw_sprite
                 | apply ctl_op_skp | apply ctl_op_sknp
                 | unfold holds_after; simpl;
                   first [ frame_triv | apply ctl_op_alu | apply ctl_skip_if ] ]).
    unfold holds_after, ctl_post, CHIP8_MEMORY_SIZE. rewrite Hd, Hs. simpl. lia.
Qed.

End Control.

(** * Reachable states *)

Section Reachable.

Lemma reachable_boot rom : forallb in_u8 rom = true -> reachable (boot rom).
Proof.
  intros H. unfold boot. apply reach_load_rom; [apply reach_new|].
  intros bytes [= <-]. eapply forallb_Forall; [|exact H].
  intros z. apply in_u8_spec.
Qed.

Lemma reachable_run rnds : forall s s',
  reachable s -> forallb (Z.leb 0) rnds = true -> run rnds s = Some s' -> reachable s'.
Proof.
  induction rnds as [|rnd rest IH]; intros s s' Hs Hr; simpl.
  - intros [= <-]. assumption.
  - simpl in Hr. apply andb_prop in Hr as [H0 Hr]. apply Z.leb_le in H0.
    destruct (state_after (emulate_cycle rnd s)) as [s1|] eqn:E; [|discriminate].
    apply IH; [|assumption]. eapply reach_cycle; eassumption.
Qed.

Lemma reachable_after n rom s :
  forallb in_u8 rom = true -> run (replicate n 0) (boot rom) = Some s -> reachable s.
Proof.
  intros Hrom Hrun. eapply reachable_run; [apply reachable_boot, Hrom| |exact Hrun].
  clear. induction n; simpl; [reflexivity | assumption].
Qed.

Lemma I_emulate_cycle rnd s :
  wf s -> 0 <= I s < CHIP8_MEMORY_SIZE ->
  holds_after (fun s' => 0 <= I s' < CHIP8_MEMORY_SIZE) (emulate_cycle rnd s).
Proof.
  intros Hwf HI. unfold emulate_cycle.
  destruct (_ <=? _); [exact HI|].
  destruct (fetch s) as [opcode|]; [|exact Logic.I].
  pose proof (ctl_execute rnd opcode (set_pc (u16 (pc s + 2)) s)) as H.
  unfold holds_after, ctl_post in *.
  destruct (execute _ _ _); simpl in *; [| |exact Logic.I];
    apply H; auto with chip8.
Qed.

End Reachable.

(** * The index register stays inside memory *)

(** C9: in every state reachable from construction by ROM loads and cycles
    (and the key and render calls of the driver), the index register [I] is
    a valid memory address: [0 <= I < 4096]. *)
Theorem C9_index_register_below_memory_size s :
  reachable s -> 0 <= I s < CHIP8_MEMORY_SIZE.
Proof.
  induction 1 as [|file s Hr IH Hf|rnd s s' Hr IH _ Hs|k v s _ IH _ Hv|s _ IH].
  - vm_compute. split; [discriminate | reflexivity].
  - unfold load_rom. destruct file as [bytes|]; [|exact IH].
    destruct (_ <? _); exact IH.
  - pose proof (I_emulate_cycle rnd s (reachable_wf s Hr) IH) as H.
    unfold holds_after in H. rewrite Hs in H. exact H.
  - unfold set_key. destruct (_ <? _); exact IH.
  - unfold render_screen. destruct (negb _); exact IH.
Qed.

Lemma C9_witness : 0 <= I (after 1 rom_ld_i_fff) < CHIP8_MEMORY_SIZE.
Proof.
  apply C9_index_register_below_memory_size.
  apply (reachable_after 1 rom_ld_i_fff); vm_compute; reflexivity.
Defined.

(** * The timers *)

Section EarlyReturn.

Lemma op_ret_early s :
  match op_ret s with
  | Aborted _ s' => sp s = 0 /\ s' = s
  | _ => sp s <> 0
  end.
Proof.
  unfold op_ret. destruct (Z.eqb_spec (sp s) 0); [tauto|].
  destruct (ld _ _); assumption.
Qed.

Lemma op_call_early opcode s :
  match op_call opcode s with
  | Aborted _ s' => CHIP8_STACK_SIZE <= sp s /\ s' = s
  | _ => sp s < CHIP8_STACK_SIZE
  end.
Proof.
  unfold op_call. destruct (Z.leb_spec CHIP8_STACK_SIZE (sp s)); [tauto|].
  destruct (sto _ _ _); assumption.
Qed.

Lemma op_dump_early opcode s :
  match op_dump opcode s with
  | Aborted _ s' => CHIP8_MEMORY_SIZE <= I s + op_x opcode /\ s' = s
  | _ => I s + op_x opcode < CHIP8_MEMORY_SIZE
  end.
Proof.
  unfold op_dump. destruct (Z.leb_spec CHIP8_MEMORY_SIZE (I s + op_x opcode)); [tauto|].
  destruct (dump_regs _ _ _); assumption.
Qed.

Lemma op_load_early opcode s :
  match op_load opcode s with
  | Aborted _ s' => CHIP8_MEMORY_SIZE <= I s + op_x opcode /\ s' = s
  | _ => I s + op_x opcode < CHIP8_MEMORY_SIZE
  end.
Proof.
  unfold op_load. destruct (Z.leb_spec CHIP8_MEMORY_SIZE (I s + op_x opcode)); [tauto|].
  destruct (load_regs _ _ _); assumption.
Qed.

Lemma draw_sprite_not_aborted x y h s c s' : draw_sprite x y h s <> Aborted c s'.
Proof. unfold draw_sprite. destruct (draw_rows _ _ _ _ _); discriminate. Qed.

Lemma returns_early_ret s : returns_early 0x00EE s = (sp s =? 0).
Proof.
  unfold returns_early.
  change (Z.land 0x00EE 0xF000) with 0. change (0x00EE =? 0x00EE) with true.
  change (0 =? 0x2000) with false. change (0 =? 0xF000) with false.
  cbn [andb orb]. rewrite !orb_false_r. reflexivity.
Qed.

Lemma returns_early_call opcode s :
  Z.land opcode 0xF000 = 0x2000 -> returns_early opcode s = (CHIP8_STACK_SIZE <=? sp s).
Proof.
  intros Hh. unfold returns_early. rewrite Hh.
  destruct (Z.eqb_spec opcode 0x00EE) as [->|_]; [discriminate Hh|].
  cbn [Z.eqb Pos.eqb andb orb]. apply orb_false_r.
Qed.

Lemma returns_early_bulk opcode s :
  Z.land opcode 0xF000 = 0xF000 ->
  Z.land opcode 0xFF = 0x55 \/ Z.land opcode 0xFF = 0x65 ->
  returns_early opcode s = (CHIP8_MEMORY_SIZE <=? I s + op_x opcode).
Proof.
  intros Hh Hk. unfold returns_early. rewrite Hh.
  destruct (Z.eqb_spec opcode 0x00EE) as [->|_]; [discriminate Hh|].
  destruct Hk as [-> | ->]; reflexivity.
Qed.

Lemma returns_early_other opcode s :
  opcode <> 0x00EE -> Z.land opcode 0xF000 <> 0x2000 ->
  (Z.land opcode 0xF000 = 0xF000 ->
   Z.land opcode 0xFF <> 0x55 /\ Z.land opcode 0xFF <> 0x65) ->
  returns_early opcode s = false.
Proof.
  intros H1 H2 H3. unfold returns_early.
  destruct (Z.eqb_spec opcode 0x00EE); [contradiction|].
  destruct (Z.eqb_spec (Z.land opcode 0xF000) 0x2000); [contradiction|].
  destruct (Z.eqb_spec (Z.land opcode 0xF000) 0xF000) as [E|E]; [|reflexivity].
  destruct (H3 E) as [H5 H6].
  destruct (Z.eqb_spec (Z.land opcode 0xFF) 0x55); [contradiction|].
  destruct (Z.eqb_spec (Z.land opcode 0xFF) 0x65); [contradiction|].
  reflexivity.
Qed.

Lemma op_misc_early opcode s :
  Z.land opcode 0xF000 = 0xF000 ->
  match op_misc opcode s with
  | Aborted _ s' => returns_early opcode s = true /\ s' = s
  | _ => returns_early opcode s = false
  end.
Proof.
  intros Hh.
  assert (Hne : opcode <> 0x00EE) by (intros ->; discriminate Hh).
  pose proof (op_dump_early opcode s) as Hdump.
  pose proof (op_load_early opcode s) as Hload.
  unfold op_misc. switch;
    try (apply returns_early_other; [assumption | lia | lia]).
  - rewrite returns_early_other by (assumption || lia).
    unfold op_bcd. repeat (destruct (sto _ _ _); [|reflexivity]). reflexivity.
  - rewrite returns_early_bulk by tauto.
    destruct (op_dump opcode s); [apply Z.leb_gt; assumption | | apply Z.leb_gt; assumption].
    split; [apply Z.leb_le|]; tauto.
  - rewrite returns_early_bulk by tauto.
    destruct (op_load opcode s); [apply Z.leb_gt; assumption | | apply Z.leb_gt; assumption].
    split; [apply Z.leb_le|]; tauto.
Qed.

Lemma ret_high_nibble opcode : opcode = 0x00EE -> Z.land opcode 0xF000 = 0.
Proof. intros ->. reflexivity. Qed.

(** [execute] returns early exactly as [returns_early] says, and then
    leaves the state as it found it. *)
Lemma execute_early rnd opcode s :
  match execute rnd opcode s with
  | Aborted _ s' => returns_early opcode s = true /\ s' = s
  | _ => returns_early opcode s = false
  end.
Proof.
  pose proof (op_ret_early s) as Hret.
  pose proof (op_call_early opcode s) as Hcall.
  pose proof (ret_high_nibble opcode) as Hee.
  unfold execute. switch;
    try (apply op_misc_early; assumption);
    try (apply returns_early_other; lia).
  - subst opcode. rewrite returns_early_ret.
    destruct (op_ret s); [apply Z.eqb_neq; assumption | | apply Z.eqb_neq; assumption].
    split; [apply Z.eqb_eq|]; tauto.
  - rewrite returns_early_call by assumption.
    destruct (op_call opcode s); [apply Z.leb_gt; assumption | | apply Z.leb_gt; assumption].
    split; [apply Z.leb_le|]; tauto.
  - rewrite returns_early_other by lia.
    unfold draw_sprite. destruct (draw_rows _ _ _ _ _); reflexivity.
  - rewrite returns_early_other by lia.
    unfold op_skp. destruct (ld _ _); reflexivity.
  - rewrite returns_early_other by lia.
    unfold op_sknp. destruct (ld _ _); reflexivity.
Qed.

End EarlyReturn.

Section Timers.

Lemma timers_ticked s :
  wf s ->
  ticked (delayTimer s) (delayTimer (timers s))
  /\ ticked (soundTimer s) (soundTimer (timers s)).
Proof.
  intros Hwf. unfold ticked, timers. simpl.
  split; apply tick_eq; apply Hwf.
Qed.

(** The state of a step that was left early is the state after the fetch. *)
Lemma emulate_cycle_cases rnd s opcode :
  pc s < CHIP8_MEMORY_SIZE - 1 -> fetch s = Some opcode ->
  emulate_cycle rnd s =
    match execute rnd opcode (set_pc (u16 (pc s + 2)) s) with
    | Done s1 => Done (timers s1)
    | Aborted c s1 => Aborted c s1
    | Undefined => Undefined
    end.
Proof.
  intros Hpc Hf. unfold emulate_cycle. rewrite Hf.
  destruct (Z.leb_spec (CHIP8_MEMORY_SIZE - 1) (pc s)); [lia | reflexivity].
Qed.

End Timers.

(** C3, as the code has it: a cycle whose fetch succeeds and that reaches the
    end of emulate_cycle counts both timers down by one, to no less than
    zero, from the value the instruction left in them (Fx15 and Fx18 load
    them from Vx, every other instruction leaves them alone).  A cycle that
    returns early - RET on an empty stack, CALL on a full stack, Fx55 or
    Fx65 with [I + x] outside memory, and only those - leaves both timers as
    they were. *)
Theorem C3_timers_tick_unless_cycle_returns_early rnd s opcode :
  wf s -> pc s < CHIP8_MEMORY_SIZE - 1 -> fetch s = Some opcode ->
  match emulate_cycle rnd s with
  | Done s' =>
      returns_early opcode s = false
      /\ ticked (if is_ld_dt opcode then reg s (op_x opcode) else delayTimer s)
                (delayTimer s')
      /\ ticked (if is_ld_st opcode then reg s (op_x opcode) else soundTimer s)
                (soundTimer s')
  | Aborted _ s' =>
      returns_early opcode s = true
      /\ delayTimer s' = delayTimer s /\ soundTimer s' = soundTimer s
  | Undefined => returns_early opcode s = false
  end.
Proof.
  intros Hwf Hpc Hf. rewrite (emulate_cycle_cases rnd s opcode Hpc Hf).
  set (s0 := set_pc (u16 (pc s + 2)) s).
  assert (Hwf0 : wf s0) by (apply wf_set_pc; [assumption | apply u16_is_u16]).
  pose proof (execute_early rnd opcode s0) as Hearly.
  pose proof (ctl_execute rnd opcode s0 Hwf0) as Hctl.
  pose proof (wf_execute rnd opcode s0 Hwf0) as Hwf1.
  unfold holds_after, ctl_post in Hctl, Hwf1.
  change (returns_early opcode s0) with (returns_early opcode s) in Hearly.
  destruct (execute rnd opcode s0) as [s1|c s1|]; simpl in Hctl, Hwf1.
  - split; [assumption|].
    destruct Hctl as (_ & Hd & Hs). change (reg s0) with (reg s) in Hd, Hs.
    change (delayTimer s0) with (delayTimer s) in Hd.
    change (soundTimer s0) with (soundTimer s) in Hs.
    rewrite <- Hd, <- Hs. apply timers_ticked. assumption.
  - destruct Hearly as [He ->]. repeat split. assumption.
  - assumption.
Qed.

Lemma C3_witness :
  match emulate_cycle 0 (after 1 rom_ret_underflow) with
  | Done s' =>
      returns_early 0xF015 (after 1 rom_ret_underflow) = false
      /\ ticked (if is_ld_dt 0xF015 then reg (after 1 rom_ret_underflow) (op_x 0xF015)
                 else delayTimer (after 1 rom_ret_underflow))
                (delayTimer s')
      /\ ticked (if is_ld_st 0xF015 then reg (after 1 rom_ret_underflow) (op_x 0xF015)
                 else soundTimer (after 1 rom_ret_underflow))
                (soundTimer s')
  | Aborted _ s' =>
      returns_early 0xF015 (after 1 rom_ret_underflow) = true
      /\ delayTimer s' = delayTimer (after 1 rom_ret_underflow)
      /\ soundTimer s' = soundTimer (after 1 rom_ret_underflow)
  | Undefined => returns_early 0xF015 (after 1 rom_ret_underflow) = false
  end.
Proof.
  apply C3_timers_tick_unless_cycle_returns_early.
  - apply wf_check_sound. vm_compute. reflexivity.
  - vm_compute. reflexivity.
  - vm_compute. reflexivity.
Defined.

(** C3 as the claim states it fails: after LD V0, 5 and LD DT, V0 the delay
    timer holds 4; RET on the empty stack then returns before the timers are
    counted, and the delay timer still holds 4. *)
Lemma C3_counterexample :
  reachable (after 2 rom_ret_underflow)
  /\ pc (after 2 rom_ret_underflow) < CHIP8_MEMORY_SIZE - 1
  /\ fetch (after 2 rom_ret_underflow) = Some 0x00EE
  /\ delayTimer (after 2 rom_ret_underflow) = 4
  /\ exists s',
       emulate_cycle 0 (after 2 rom_ret_underflow) = Aborted StackUnderflow s'
       /\ ~ ticked (delayTimer (after 2 rom_ret_underflow)) (delayTimer s').
Proof.
  split; [apply (reachable_after 2 rom_ret_underflow); vm_compute; reflexivity|].
  split; [vm_compute; reflexivity|].
  split; [vm_compute; reflexivity|].
  split; [vm_compute; reflexivity|].
  eexists. split; [vm_compute; reflexivity|].
  vm_compute. discriminate.
Qed.

(** * CLS *)

(** CLS zeroes the whole framebuffer and does not write the redraw flag. *)
Lemma cls_clears_and_keeps_draw_flag rnd s :
  wf s -> pc s < CHIP8_MEMORY_SIZE - 1 -> fetch s = Some 0x00E0 ->
  exists s',
    emulate_cycle rnd s = Done s'
    /\ gfx s' = replicate (Z.to_nat CHIP8_VIDEO_BUFFER_SIZE) 0
    /\ draw_flag s' = draw_flag s.
Proof.
  intros Hwf Hpc Hf. rewrite (emulate_cycle_cases rnd s _ Hpc Hf).
  eexists. split; [reflexivity|]. split; [|reflexivity].
  cbn [gfx timers execute clear_video_buffer set_gfx set_delayTimer set_soundTimer].
  change CHIP8_VIDEO_BUFFER_SIZE with 2048.
  rewrite <- (wf_gfx_len s Hwf), Nat2Z.id. reflexivity.
Qed.

(** C2, at a concrete input: a sprite is drawn, which raises the redraw
    flag, and rendered, so the screen shows lit pixels and the redraw flag is
    down; CLS then zeroes the framebuffer, and the redraw flag is still
    down. *)
Theorem C2_cls_leaves_redraw_flag_down :
  is_screen_ready_to_redraw (after 2 rom_draw_then_cls) = true
  /\ reachable (render_screen (after 2 rom_draw_then_cls))
  /\ fetch (render_screen (after 2 rom_draw_then_cls)) = Some 0x00E0
  /\ get (gfx (render_screen (after 2 rom_draw_then_cls))) 0 = 1
  /\ is_screen_ready_to_redraw (render_screen (after 2 rom_draw_then_cls)) = false
  /\ exists s',
       emulate_cycle 0 (render_screen (after 2 rom_draw_then_cls)) = Done s'
       /\ gfx s' = replicate (Z.to_nat CHIP8_VIDEO_BUFFER_SIZE) 0
       /\ is_screen_ready_to_redraw s' = false.
Proof.
  split; [vm_compute; reflexivity|].
  split.
  { apply reach_render_screen.
    apply (reachable_after 2 rom_draw_then_cls); vm_compute; reflexivity. }
  split; [vm_compute; reflexivity|].
  split; [vm_compute; reflexivity|].
  split; [vm_compute; reflexivity|].
  eexists. split; [vm_compute; reflexivity|].
  split; vm_compute; reflexivity.
Qed.

(** * Unguarded indices *)

(** C1, at concrete inputs: with [I = 0xFFF], a state that LD I, 0xFFF
    reaches, LD B, Vx stores to [memory[I + 1]] and DRW with two rows reads
    [memory[I + 1]], address 4096, and neither tests the address first.  In
    the same state LD [I], V1 does test [I + 1] and returns with the
    out-of-range condition. *)
Theorem C1_bcd_and_draw_index_memory_unchecked :
  (reachable (after 1 rom_bcd_at_fff)
   /\ fetch (after 1 rom_bcd_at_fff) = Some 0xF033
   /\ I (after 1 rom_bcd_at_fff) = 0xFFF
   /\ emulate_cycle 0 (after 1 rom_bcd_at_fff) = Undefined)
  /\ (reachable (after 1 rom_draw_at_fff)
      /\ fetch (after 1 rom_draw_at_fff) = Some 0xD002
      /\ I (after 1 rom_draw_at_fff) = 0xFFF
      /\ emulate_cycle 0 (after 1 rom_draw_at_fff) = Undefined)
  /\ (fetch (after 1 rom_dump_out_of_range) = Some 0xF155
      /\ I (after 1 rom_dump_out_of_range) = 0xFFF
      /\ exists s',
           emulate_cycle 0 (after 1 rom_dump_out_of_range) = Aborted IndexOutOfRange s').
Proof.
  split; [|split].
  - split; [apply (reachable_after 1 rom_bcd_at_fff); vm_compute; reflexivity|].
    repeat split; vm_compute; reflexivity.
  - split; [apply (reachable_after 1 rom_draw_at_fff); vm_compute; reflexivity|].
    repeat split; vm_compute; reflexivity.
  - split; [vm_compute; reflexivity|]. split; [vm_compute; reflexivity|].
    eexists. vm_compute. reflexivity.
Qed.

(** SKP and SKNP read [key[V[x]]]: the access is inside the array exactly
    when [V[x] < 16]. *)
Lemma skp_sknp_defined_iff opcode s :
  wf s ->
  (op_skp opcode s <> Undefined <-> reg s (op_x opcode) < 16)
  /\ (op_sknp opcode s <> Undefined <-> reg s (op_x opcode) < 16).
Proof.
  intros Hwf. unfold op_skp, op_sknp.
  pose proof (reg_is_u8 s Hwf _ (op_x_range opcode)) as Hr. unfold is_u8 in Hr.
  destruct (decide (reg s (op_x opcode) < 16)) as [Hlt|Hge].
  - rewrite ld_in_range by (rewrite (wf_key_len s Hwf); lia).
    split; (split; [intros _; assumption | intros _; discriminate]).
  - rewrite ld_out_of_range by (rewrite (wf_key_len s Hwf); lia).
    split; (split; [intros H; contradiction | intros H; contradiction]).
Qed.

(** C10, at concrete inputs: after LD V0, 0xFF the register holds 255, and
    SKP V0 and SKNP V0 index the 16 keys at 255.  set_key, given the same
    index, tests it and leaves the keys alone. *)
Theorem C10_skp_sknp_index_keys_out_of_bounds :
  (reachable (after 1 rom_skp_ff)
   /\ fetch (after 1 rom_skp_ff) = Some 0xE09E
   /\ reg (after 1 rom_skp_ff) 0 = 255
   /\ emulate_cycle 0 (after 1 rom_skp_ff) = Undefined)
  /\ (reachable (after 1 rom_sknp_ff)
      /\ fetch (after 1 rom_sknp_ff) = Some 0xE0A1
      /\ reg (after 1 rom_sknp_ff) 0 = 255
      /\ emulate_cycle 0 (after 1 rom_sknp_ff) = Undefined)
  /\ set_key 255 1 (after 1 rom_skp_ff) = after 1 rom_skp_ff.
Proof.
  split; [|split].
  - split; [apply (reachable_after 1 rom_skp_ff); vm_compute; reflexivity|].
    repeat split; vm_compute; reflexivity.
  - split; [apply (reachable_after 1 rom_sknp_ff); vm_compute; reflexivity|].
    repeat split; vm_compute; reflexivity.
  - vm_compute. reflexivity.
Qed.

(** * ADD Vx, Vy *)

Section Add.

Lemma execute_add_xy rnd x y s :
  0 <= x < 16 -> 0 <= y < 16 ->
  execute rnd (0x8004 + 256 * x + 16 * y) s
  = Done (op_add_xy (0x8004 + 256 * x + 16 * y) s)
  /\ op_x (0x8004 + 256 * x + 16 * y) = x
  /\ op_y (0x8004 + 256 * x + 16 * y) = y.
Proof.
  intros Hx Hy. set (opcode := 0x8004 + 256 * x + 16 * y).
  assert (Hh : Z.land opcode 0xF000 = 0x8000) by (unfold opcode; decode).
  assert (Hk : Z.land opcode 0xF = 4) by (unfold opcode; decode).
  split; [|split; unfold opcode; decode].
  unfold execute. rewrite Hh. switch; try lia.
  unfold op_alu. rewrite Hk. switch; try lia. reflexivity.
Qed.

Lemma op_add_xy_regs opcode s :
  wf s ->
  let sum := reg s (op_x opcode) + reg s (op_y opcode) in
  reg (op_add_xy opcode s) (op_x opcode) = sum mod 256
  /\ (op_x opcode <> 0xF ->
      reg (op_add_xy opcode s) 0xF = if 255 <? sum then 1 else 0).
Proof.
  intros Hwf sum.
  pose proof (op_x_range opcode) as Hx. pose proof (op_y_range opcode) as Hy.
  pose proof (reg_is_u8 s Hwf _ Hx) as Hvx. pose proof (reg_is_u8 s Hwf _ Hy) as Hvy.
  pose proof (wf_V_len s Hwf) as Hlen. unfold is_u8 in *.
  unfold op_add_xy. fold sum. rewrite (u16_small sum) by (unfold is_u16, sum; lia).
  unfold reg, set_reg. simpl. split.
  - rewrite get_put_eq by (rewrite length_put; lia). apply land_0xFF.
  - intros Hne. rewrite get_put_ne by lia. apply get_put_eq. lia.
Qed.

End Add.

(** C4, as the code has it: for registers x in 0..14 and y in 0..15,
    ADD Vx, Vy leaves in VF the carry - 1 if the unsigned sum of the two
    registers exceeds 255 and 0 otherwise - and in Vx the sum modulo 256.
    With x = 15 the register written last is VF itself, and it holds the sum
    modulo 256. *)
Theorem C4_add_sets_carry_unless_x_is_vf rnd s x y :
  wf s -> pc s < CHIP8_MEMORY_SIZE - 1 ->
  0 <= x < 16 -> 0 <= y < 16 ->
  fetch s = Some (0x8004 + 256 * x + 16 * y) ->
  exists s',
    emulate_cycle rnd s = Done s'
    /\ reg s' x = (reg s x + reg s y) mod 256
    /\ (x <> 0xF -> reg s' 0xF = if 255 <? reg s x + reg s y then 1 else 0).
Proof.
  intros Hwf Hpc Hx Hy Hf. rewrite (emulate_cycle_cases rnd s _ Hpc Hf).
  set (s0 := set_pc (u16 (pc s + 2)) s).
  destruct (execute_add_xy rnd x y s0 Hx Hy) as (He & Ex & Ey). rewrite He.
  eexists. split; [reflexivity|].
  assert (Hwf0 : wf s0) by (apply wf_set_pc; [assumption | apply u16_is_u16]).
  pose proof (op_add_xy_regs (0x8004 + 256 * x + 16 * y) s0 Hwf0) as H.
  rewrite Ex, Ey in H. exact H.
Qed.

Lemma C4_witness :
  exists s',
    emulate_cycle 0 (after 2 rom_add_carry) = Done s'
    /\ reg s' 0 = (reg (after 2 rom_add_carry) 0 + reg (after 2 rom_add_carry) 1) mod 256
    /\ (0 <> 0xF ->
        reg s' 0xF
        = if 255 <? reg (after 2 rom_add_carry) 0 + reg (after 2 rom_add_carry) 1
          then 1 else 0).
Proof.
  apply (C4_add_sets_carry_unless_x_is_vf 0 (after 2 rom_add_carry) 0 1).
  - apply wf_check_sound. vm_compute. reflexivity.
  - vm_compute. reflexivity.
  - lia.
  - lia.
  - vm_compute. reflexivity.
Defined.

(** C4 as the claim states it fails for x = 15: with VF = 1 and V0 = 1,
    ADD VF, V0 has the sum 2, which does not exceed 255, and leaves 2 in VF
    where the claim has 0. *)
Lemma C4_counterexample :
  reachable (after 2 rom_add_into_vf)
  /\ fetch (after 2 rom_add_into_vf) = Some (0x8004 + 256 * 15 + 16 * 0)
  /\ reg (after 2 rom_add_into_vf) 15 + reg (after 2 rom_add_into_vf) 0 = 2
  /\ exists s',
       emulate_cycle 0 (after 2 rom_add_into_vf) = Done s'
       /\ reg s' 0xF = 2
       /\ reg s' 0xF
          <> (if 255 <? reg (after 2 rom_add_into_vf) 15 + reg (after 2 rom_add_into_vf) 0
              then 1 else 0).
Proof.
  split; [apply (reachable_after 2 rom_add_into_vf); vm_compute; reflexivity|].
  split; [vm_compute; reflexivity|].
  split; [vm_compute; reflexivity|].
  eexists. split; [vm_compute; reflexivity|].
  split; [vm_compute; reflexivity|].
  vm_compute. discriminate.
Qed.

(** * LD [I], Vx and LD Vx, [I] *)

Section Bulk.

Lemma execute_bulk rnd b x s :
  0 <= x < 16 ->
  execute rnd (bulk_opcode b x) s
  = match b with
    | Dump => op_dump (bulk_opcode b x) s
    | Load => op_load (bulk_opcode b x) s
    end
  /\ op_x (bulk_opcode b x) = x.
Proof.
  intros Hx. set (opcode := bulk_opcode b x).
  assert (Hh : Z.land opcode 0xF000 = 0xF000) by (unfold opcode, bulk_opcode; destruct b; decode).
  assert (Hk : Z.land opcode 0xFF = match b with Dump => 0x55 | Load => 0x65 end)
    by (unfold opcode, bulk_opcode; destruct b; decode).
  split; [|unfold opcode, bulk_opcode; destruct b; decode].
  unfold execute. rewrite Hh. switch; try lia.
  unfold op_misc. rewrite Hk. destruct b; switch; try lia; reflexivity.
Qed.

(** The dump loop from register [i] on, [n] registers: it stays inside
    memory when [I + i + n] does, and writes exactly these [n] bytes. *)
Lemma dump_regs_spec : forall n i s,
  0 <= i -> 0 <= I s ->
  I s + i + Z.of_nat n <= Z.of_nat (length (memory s)) ->
  exists m',
    dump_regs n i s = Some (set_memory m' s)
    /\ forall a, 0 <= a ->
         get m' a = if decide (I s + i <= a < I s + i + Z.of_nat n)
                    then reg s (a - I s) else get (memory s) a.
Proof.
  induction n as [|n IH]; intros i s Hi HI Hlen.
  - exists (memory s). split; [destruct s; reflexivity|].
    intros a Ha. destruct (decide _); [lia | reflexivity].
  - cbn [dump_regs]. rewrite sto_in_range by lia.
    set (s1 := set_memory (put (memory s) (I s + i) (reg s i)) s).
    destruct (IH (i + 1) s1) as (m' & Hrun & Hm').
    + lia.
    + exact HI.
    + unfold s1. simpl. rewrite length_put. lia.
    + exists m'. split; [exact Hrun|].
      intros a Ha. rewrite (Hm' a Ha). change (I s1) with (I s).
      change (reg s1) with (reg s).
      change (memory s1) with (put (memory s) (I s + i) (reg s i)).
      destruct (decide (I s + (i + 1) <= a < I s + (i + 1) + Z.of_nat n)),
               (decide (I s + i <= a < I s + i + Z.of_nat (S n))); try lia.
      * assert (a = I s + i) as -> by lia.
        rewrite get_put_eq by lia. f_equal. lia.
      * apply get_put_ne; lia.
Qed.

(** The load loop from register [i] on, [n] registers. *)
Lemma load_regs_spec : forall n i s,
  0 <= i -> 0 <= I s -> i + Z.of_nat n <= Z.of_nat (length (V s)) ->
  I s + i + Z.of_nat n <= Z.of_nat (length (memory s)) ->
  exists v',
    load_regs n i s = Some (set_V v' s)
    /\ length v' = length (V s)
    /\ forall k, 0 <= k ->
         get v' k = if decide (i <= k < i + Z.of_nat n)
                    then get (memory s) (I s + k) else reg s k.
Proof.
  induction n as [|n IH]; intros i s Hi HI Hv Hlen.
  - exists (V s). split; [destruct s; reflexivity|]. split; [reflexivity|].
    intros k Hk. destruct (decide _); [lia | reflexivity].
  - cbn [load_regs]. rewrite ld_in_range by lia.
    set (s1 := set_reg i (get (memory s) (I s + i)) s).
    destruct (IH (i + 1) s1) as (v' & Hrun & Hlen' & Hv').
    + lia.
    + exact HI.
    + unfold s1. simpl. rewrite length_put. lia.
    + unfold s1. simpl. lia.
    + exists v'. split; [exact Hrun|].
      split; [rewrite Hlen'; unfold s1; simpl; apply length_put|].
      intros k Hk. rewrite (Hv' k Hk). change (I s1) with (I s).
      change (memory s1) with (memory s).
      destruct (decide (i + 1 <= k < i + 1 + Z.of_nat n)),
               (decide (i <= k < i + Z.of_nat (S n))); try lia.
      * assert (k = i) as -> by lia.
        unfold s1, reg, set_reg. simpl. apply get_put_eq. lia.
      * unfold s1, reg, set_reg. simpl. apply get_put_ne; lia.
Qed.

End Bulk.

(** C5: for x in 0..15 and [b] one of Fx55 and Fx65.  When [I + x] is 4096
    or more the cycle returns early with the out-of-range condition, and the
    state it leaves is the state after the fetch: only the program counter
    has moved, no memory byte and no register was written.  Otherwise the
    cycle runs to its end, Fx55 has copied V0..Vx to memory[I..I+x] and
    changed no other byte and no register, and Fx65 has copied
    memory[I..I+x] to V0..Vx and changed no other register and no memory. *)
Theorem C5_bulk_transfer_checked_and_inclusive rnd s b x :
  wf s -> pc s < CHIP8_MEMORY_SIZE - 1 -> 0 <= x < 16 ->
  fetch s = Some (bulk_opcode b x) ->
  if CHIP8_MEMORY_SIZE <=? I s + x
  then emulate_cycle rnd s = Aborted IndexOutOfRange (set_pc (pc s + 2) s)
  else
    exists s',
      emulate_cycle rnd s = Done s'
      /\ match b with
         | Dump =>
             V s' = V s
             /\ forall a, 0 <= a < CHIP8_MEMORY_SIZE ->
                  get (memory s') a
                  = if decide (I s <= a <= I s + x) then reg s (a - I s)
                    else get (memory s) a
         | Load =>
             memory s' = memory s
             /\ forall k, 0 <= k < 16 ->
                  reg s' k
                  = if decide (k <= x) then get (memory s) (I s + k) else reg s k
         end.
Proof.
  intros Hwf Hpc Hx Hf. rewrite (emulate_cycle_cases rnd s _ Hpc Hf).
  pose proof (wf_pc s Hwf) as Hpc'. unfold is_u16 in Hpc'.
  rewrite u16_small by (unfold is_u16, CHIP8_MEMORY_SIZE in *; lia).
  set (s0 := set_pc (pc s + 2) s).
  destruct (execute_bulk rnd b x s0 Hx) as [He Ex]. rewrite He.
  pose proof (wf_I s Hwf) as HI. unfold is_u16 in HI.
  pose proof (wf_memory_len s Hwf) as Hml. pose proof (wf_V_len s Hwf) as Hvl.
  unfold CHIP8_MEMORY_SIZE in *.
  destruct (Z.leb_spec 4096 (I s + x)) as [Hout|Hin].
  - destruct b; [unfold op_dump | unfold op_load]; rewrite Ex;
      change (I s0) with (I s); unfold CHIP8_MEMORY_SIZE;
      destruct (Z.leb_spec 4096 (I s + x)); try lia; reflexivity.
  - destruct b.
    + unfold op_dump. rewrite Ex. change (I s0) with (I s). unfold CHIP8_MEMORY_SIZE.
      destruct (Z.leb_spec 4096 (I s + x)); try lia.
      destruct (dump_regs_spec (Z.to_nat (x + 1)) 0 s0) as (m' & Hrun & Hm');
        [lia | simpl; lia | simpl; lia |].
      rewrite Hrun. eexists. split; [reflexivity|]. split; [reflexivity|].
      intros a Ha. simpl. rewrite (Hm' a) by lia.
      change (I s0) with (I s). change (reg s0) with (reg s).
      change (memory s0) with (memory s).
      destruct (decide (I s + 0 <= a < I s + 0 + Z.of_nat (Z.to_nat (x + 1)))),
               (decide (I s <= a <= I s + x)); try lia; reflexivity.
    + unfold op_load. rewrite Ex. change (I s0) with (I s). unfold CHIP8_MEMORY_SIZE.
      destruct (Z.leb_spec 4096 (I s + x)); try lia.
      destruct (load_regs_spec (Z.to_nat (x + 1)) 0 s0) as (v' & Hrun & Hlen' & Hv');
        [lia | simpl; lia | simpl; lia | simpl; lia |].
      rewrite Hrun. eexists. split; [reflexivity|]. split; [reflexivity|].
      intros k Hk. unfold reg at 1. simpl. rewrite (Hv' k) by lia.
      change (I s0) with (I s). change (reg s0) with (reg s).
      change (memory s0) with (memory s).
      destruct (decide (0 <= k < 0 + Z.of_nat (Z.to_nat (x + 1)))),
               (decide (k <= x)); try lia; reflexivity.
Qed.

Lemma C5_witness :
  emulate_cycle 0 (after 1 rom_dump_out_of_range)
  = Aborted IndexOutOfRange
      (set_pc (pc (after 1 rom_dump_out_of_range) + 2) (after 1 rom_dump_out_of_range))
  /\ (exists s',
        emulate_cycle 0 (after 3 rom_dump) = Done s'
        /\ V s' = V (after 3 rom_dump)
        /\ forall a, 0 <= a < CHIP8_MEMORY_SIZE ->
             get (memory s') a
             = if decide (I (after 3 rom_dump) <= a <= I (after 3 rom_dump) + 1)
               then reg (after 3 rom_dump) (a - I (after 3 rom_dump))
               else get (memory (after 3 rom_dump)) a)
  /\ (exists s',
        emulate_cycle 0 (after 1 rom_load) = Done s'
        /\ memory s' = memory (after 1 rom_load)
        /\ forall k, 0 <= k < 16 ->
             reg s' k
             = if decide (k <= 2)
               then get (memory (after 1 rom_load)) (I (after 1 rom_load) + k)
               else reg (after 1 rom_load) k).
Proof.
  split; [|split].
  - pose proof (C5_bulk_transfer_checked_and_inclusive 0 (after 1 rom_dump_out_of_range) Dump 1)
      as H.
    change (CHIP8_MEMORY_SIZE <=? I (after 1 rom_dump_out_of_range) + 1) with true in H.
    apply H.
    + apply wf_check_sound. vm_compute. reflexivity.
    + vm_compute. reflexivity.
    + lia.
    + vm_compute. reflexivity.
  - pose proof (C5_bulk_transfer_checked_and_inclusive 0 (after 3 rom_dump) Dump 1) as H.
    change (CHIP8_MEMORY_SIZE <=? I (after 3 rom_dump) + 1) with false in H.
    apply H.
    + apply wf_check_sound. vm_compute. reflexivity.
    + vm_compute. reflexivity.
    + lia.
    + vm_compute. reflexivity.
  - pose proof (C5_bulk_transfer_checked_and_inclusive 0 (after 1 rom_load) Load 2) as H.
    change (CHIP8_MEMORY_SIZE <=? I (after 1 rom_load) + 2) with false in H.
    apply H.
    + apply wf_check_sound. vm_compute. reflexivity.
    + vm_compute. reflexivity.
    + lia.
    + vm_compute. reflexivity.
Defined.

(** * LD Vx, K *)

Section WaitKey.

Lemma execute_ld_vx_k rnd x s :
  0 <= x < 16 ->
  execute rnd (0xF00A + 256 * x) s = Done (op_ld_vx_k (0xF00A + 256 * x) s)
  /\ op_x (0xF00A + 256 * x) = x.
Proof.
  intros Hx. set (opcode := 0xF00A + 256 * x).
  assert (Hh : Z.land opcode 0xF000 = 0xF000) by (unfold opcode; decode).
  assert (Hk : Z.land opcode 0xFF = 0x0A) by (unfold opcode; decode).
  split; [|unfold opcode; decode].
  unfold execute. rewrite Hh. switch; try lia.
  unfold op_misc. rewrite Hk. switch; try lia. reflexivity.
Qed.

Lemma first_key_None keys : forall n i,
  (forall j, i <= j < i + Z.of_nat n -> get keys j = 0) ->
  first_key n i keys = None.
Proof.
  induction n as [|n IH]; intros i H; simpl; [reflexivity|].
  rewrite (H i) by lia. simpl. apply IH. intros j Hj. apply H. lia.
Qed.

Lemma first_key_Some keys k : forall n i,
  i <= k < i + Z.of_nat n -> get keys k <> 0 ->
  (forall j, i <= j < k -> get keys j = 0) ->
  first_key n i keys = Some k.
Proof.
  induction n as [|n IH]; intros i Hk Hne H; simpl; [lia|].
  destruct (Z.eqb_spec (get keys i) 0) as [E|E]; simpl.
  - assert (i <> k) by congruence.
    apply IH; [lia | assumption |]. intros j Hj. apply H. lia.
  - destruct (decide (i = k)) as [->|Hik]; [reflexivity|].
    contradict E. apply H. lia.
Qed.

End WaitKey.

(** C8: LD Vx, K for x in 0..15.  When no key is pressed the cycle leaves
    the program counter where it was before the cycle, so the next fetch
    reads the same instruction, and leaves all registers as they were.
    When [k] is the lowest index of a pressed key, register x receives [k],
    the other registers are unchanged, and the program counter has advanced
    by 2. *)
Theorem C8_wait_key_loops_or_takes_lowest_key rnd s x pressed :
  wf s -> pc s < CHIP8_MEMORY_SIZE - 1 -> 0 <= x < 16 ->
  fetch s = Some (0xF00A + 256 * x) ->
  lowest_pressed (key s) pressed ->
  exists s',
    emulate_cycle rnd s = Done s'
    /\ match pressed with
       | None => pc s' = pc s /\ fetch s' = fetch s /\ V s' = V s
       | Some k =>
           reg s' x = k
           /\ (forall r, 0 <= r < 16 -> r <> x -> reg s' r = reg s r)
           /\ pc s' = pc s + 2
       end.
Proof.
  intros Hwf Hpc Hx Hf Hkeys. rewrite (emulate_cycle_cases rnd s _ Hpc Hf).
  pose proof (wf_pc s Hwf) as Hpc'. unfold is_u16 in Hpc'.
  unfold CHIP8_MEMORY_SIZE in Hpc.
  rewrite u16_small by (unfold is_u16; lia).
  set (s0 := set_pc (pc s + 2) s).
  destruct (execute_ld_vx_k rnd x s0 Hx) as [He Ex]. rewrite He.
  eexists. split; [reflexivity|].
  unfold op_ld_vx_k. rewrite Ex. change (key s0) with (key s).
  unfold lowest_pressed, CHIP8_KEYBOARD_SIZE in *. destruct pressed as [k|].
  - destruct Hkeys as (Hk & Hne & Hlow).
    rewrite (first_key_Some (key s) k) by (simpl; assumption || lia).
    pose proof (wf_V_len s Hwf) as Hlen.
    unfold reg, set_reg. simpl. split; [apply get_put_eq; lia|].
    split; [|reflexivity]. intros r Hr Hne'. apply get_put_ne; lia.
  - rewrite first_key_None by (intros j Hj; apply Hkeys; simpl in Hj; lia).
    simpl. rewrite u16_small by (unfold is_u16; lia).
    replace (pc s + 2 - 2) with (pc s) by lia.
    split; [reflexivity|]. split; [|reflexivity].
    unfold fetch. simpl. replace (pc s + 2 - 2) with (pc s) by lia. reflexivity.
Qed.

Lemma C8_witness :
  (exists s',
     emulate_cycle 0 (boot rom_wait_key) = Done s'
     /\ pc s' = pc (boot rom_wait_key)
     /\ fetch s' = fetch (boot rom_wait_key)
     /\ V s' = V (boot rom_wait_key))
  /\ (exists s',
        emulate_cycle 0 (set_key 9 1 (set_key 5 1 (boot rom_wait_key))) = Done s'
        /\ reg s' 3 = 5
        /\ (forall r, 0 <= r < 16 -> r <> 3 ->
              reg s' r = reg (set_key 9 1 (set_key 5 1 (boot rom_wait_key))) r)
        /\ pc s' = pc (set_key 9 1 (set_key 5 1 (boot rom_wait_key))) + 2).
Proof.
  split.
  - apply (C8_wait_key_loops_or_takes_lowest_key 0 (boot rom_wait_key) 3 None).
    + apply wf_check_sound. vm_compute. reflexivity.
    + vm_compute. reflexivity.
    + lia.
    + vm_compute. reflexivity.
    + intros i Hi. unfold CHIP8_KEYBOARD_SIZE in Hi.
      assert (Hc : i = 0 \/ i = 1 \/ i = 2 \/ i = 3 \/ i = 4 \/ i = 5 \/ i = 6 \/ i = 7
                   \/ i = 8 \/ i = 9 \/ i = 10 \/ i = 11 \/ i = 12 \/ i = 13 \/ i = 14
                   \/ i = 15) by lia.
      repeat (destruct Hc as [->|Hc]; [vm_compute; reflexivity|]).
      subst i. vm_compute. reflexivity.
  - apply (C8_wait_key_loops_or_takes_lowest_key 0
             (set_key 9 1 (set_key 5 1 (boot rom_wait_key))) 3 (Some 5)).
    + apply wf_check_sound. vm_compute. reflexivity.
    + vm_compute. reflexivity.
    + lia.
    + vm_compute. reflexivity.
    + split; [unfold CHIP8_KEYBOARD_SIZE; lia|].
      split; [vm_compute; discriminate|].
      intros j Hj.
      assert (Hc : j = 0 \/ j = 1 \/ j = 2 \/ j = 3 \/ j = 4) by lia.
      repeat (destruct Hc as [->|Hc]; [vm_compute; reflexivity|]).
      subst j. vm_compute. reflexivity.
Defined.

(** * CALL on a full stack *)

Section Call.

Lemma execute_call rnd nnn s :
  0 <= nnn < 4096 ->
  execute rnd (0x2000 + nnn) s = op_call (0x2000 + nnn) s
  /\ op_nnn (0x2000 + nnn) = nnn.
Proof.
  intros Hn. set (opcode := 0x2000 + nnn).
  assert (Hh : Z.land opcode 0xF000 = 0x2000) by (unfold opcode; decode).
  split; [|unfold opcode; decode].
  unfold execute. rewrite Hh. switch; try lia. reflexivity.
Qed.

(** One CALL below the capacity of the stack. *)
Lemma emulate_cycle_call_pushes rnd s :
  wf s -> fetches_call s -> sp s < CHIP8_STACK_SIZE ->
  exists s',
    emulate_cycle rnd s = Done s'
    /\ sp s' = sp s + 1
    /\ stack s' = put (stack s) (sp s) (pc s + 2).
Proof.
  intros Hwf (Hpc & nnn & Hn & Hf) Hsp. rewrite (emulate_cycle_cases rnd s _ Hpc Hf).
  pose proof (wf_pc s Hwf) as Hpc'. pose proof (wf_sp s Hwf) as Hsp'.
  pose proof (wf_stack_len s Hwf) as Hlen.
  unfold is_u16, CHIP8_MEMORY_SIZE, CHIP8_STACK_SIZE in *.
  rewrite u16_small by (unfold is_u16; lia).
  destruct (execute_call rnd nnn (set_pc (pc s + 2) s) Hn) as [-> _].
  unfold op_call, CHIP8_STACK_SIZE. simpl.
  destruct (Z.leb_spec 16 (sp s)); [lia|].
  rewrite sto_in_range by lia.
  eexists. split; [reflexivity|]. simpl.
  rewrite u8_small by (unfold is_u8; lia). split; reflexivity.
Qed.

(** [n] CALLs in a row that fit on the stack push their [n] return
    addresses above what the stack held, and nothing else changes in it. *)
Lemma calls_push n s rets s' :
  calls n s rets s' -> wf s -> sp s + Z.of_nat n <= CHIP8_STACK_SIZE ->
  wf s'
  /\ sp s' = sp s + Z.of_nat n
  /\ stack s'
     = take (Z.to_nat (sp s)) (stack s) ++ rets
       ++ drop (Z.to_nat (sp s + Z.of_nat n)) (stack s).
Proof.
  induction 1 as [s|n s rnd s1 rets s2 Hcall Hstep _ IH]; intros Hwf Hfit.
  - split; [assumption|]. split; [lia|].
    rewrite Z.add_0_r. simpl. symmetry. apply take_drop.
  - pose proof (wf_sp s Hwf) as Hsp. pose proof (wf_stack_len s Hwf) as Hlen.
    unfold CHIP8_STACK_SIZE in *.
    destruct (emulate_cycle_call_pushes rnd s Hwf Hcall) as (s1' & He & Hsp1 & Hst1);
      [unfold CHIP8_STACK_SIZE; lia|].
    rewrite He in Hstep. injection Hstep as ->.
    pose proof (wf_emulate_cycle rnd s Hwf) as Hwf1.
    unfold holds_after in Hwf1. rewrite He in Hwf1. simpl in Hwf1.
    destruct (IH Hwf1) as (Hwf2 & Hsp2 & Hst2); [lia|].
    split; [assumption|]. split; [lia|].
    rewrite Hst2, Hsp1, Hst1. unfold put.
    replace (Z.to_nat (sp s + 1)) with (S (Z.to_nat (sp s))) by lia.
    replace (Z.to_nat (sp s + 1 + Z.of_nat n)) with (Z.to_nat (sp s + Z.of_nat (S n))) by lia.
    rewrite (take_S_r _ _ (pc s + 2)) by (apply list_lookup_insert_eq; lia).
    rewrite take_insert_ge by lia.
    rewrite drop_insert_lt by lia.
    rewrite <- app_assoc. reflexivity.
Qed.

End Call.

(** C6: let [s] be reached by [n] CALLs in a row from a state [s0] whose
    stack has room for exactly these [n] ([n = 0]: any state with the stack
    pointer at 16; [n = 16] from an empty stack: the 17th CALL in a row).  A
    CALL fetched in [s] returns early with the stack-overflow condition and
    leaves the stack, the stack pointer, the registers and the index
    register as they were; the stack still holds what [s0] had below its
    stack pointer followed by the [n] return addresses. *)
Theorem C6_call_on_full_stack_reports_overflow rnd s0 n rets s :
  wf s0 -> calls n s0 rets s -> sp s0 + Z.of_nat n = CHIP8_STACK_SIZE ->
  fetches_call s ->
  exists s',
    emulate_cycle rnd s = Aborted StackOverflow s'
    /\ stack s' = stack s /\ sp s' = sp s /\ V s' = V s /\ I s' = I s
    /\ sp s' = CHIP8_STACK_SIZE
    /\ stack s' = take (Z.to_nat (sp s0)) (stack s0) ++ rets.
Proof.
  intros Hwf0 Hcalls Hfull (Hpc & nnn & Hn & Hf).
  destruct (calls_push n s0 rets s Hcalls Hwf0) as (Hwf & Hsp & Hst); [lia|].
  rewrite (emulate_cycle_cases rnd s _ Hpc Hf).
  destruct (execute_call rnd nnn (set_pc (u16 (pc s + 2)) s) Hn) as [-> _].
  unfold op_call. simpl.
  destruct (Z.leb_spec CHIP8_STACK_SIZE (sp s)); [|lia].
  eexists. split; [reflexivity|]. simpl.
  repeat (split; [reflexivity|]). split; [lia|].
  rewrite Hst. rewrite drop_ge, app_nil_r; [reflexivity|].
  pose proof (wf_stack_len s0 Hwf0). unfold CHIP8_STACK_SIZE in *. lia.
Qed.

Lemma calls_S_eq n s rnd s1 ret rets s2 :
  fetches_call s -> ret = pc s + 2 ->
  state_after (emulate_cycle rnd s) = Some s1 ->
  calls n s1 rets s2 ->
  calls (S n) s (ret :: rets) s2.
Proof. intros Hc -> Hs Hr. eapply calls_S; eassumption. Qed.

(** The CALL at step [k] of [rom_17_calls], to address [a]. *)
Ltac call_step k a :=
  apply (calls_S_eq _ (after k rom_17_calls) 0 (after (S k) rom_17_calls));
  [ split; [vm_compute; reflexivity | exists a; split; [lia | vm_compute; reflexivity]]
  | vm_compute; reflexivity
  | vm_compute; reflexivity
  | ].

Lemma C6_witness :
  exists s',
    emulate_cycle 0 (after 16 rom_17_calls) = Aborted StackOverflow s'
    /\ stack s' = stack (after 16 rom_17_calls)
    /\ sp s' = sp (after 16 rom_17_calls)
    /\ V s' = V (after 16 rom_17_calls)
    /\ I s' = I (after 16 rom_17_calls)
    /\ sp s' = CHIP8_STACK_SIZE
    /\ stack s'
       = take (Z.to_nat (sp (boot rom_17_calls))) (stack (boot rom_17_calls))
         ++ [0x202; 0x204; 0x206; 0x208; 0x20A; 0x20C; 0x20E; 0x210;
             0x212; 0x214; 0x216; 0x218; 0x21A; 0x21C; 0x21E; 0x220].
Proof.
  apply (C6_call_on_full_stack_reports_overflow 0 (boot rom_17_calls) 16).
  - apply wf_check_sound. vm_compute. reflexivity.
  - change (boot rom_17_calls) with (after 0 rom_17_calls).
    call_step 0%nat 0x202. call_step 1%nat 0x204. call_step 2%nat 0x206.
    call_step 3%nat 0x208. call_step 4%nat 0x20A. call_step 5%nat 0x20C.
    call_step 6%nat 0x20E. call_step 7%nat 0x210. call_step 8%nat 0x212.
    call_step 9%nat 0x214. call_step 10%nat 0x216. call_step 11%nat 0x218.
    call_step 12%nat 0x21A. call_step 13%nat 0x21C. call_step 14%nat 0x21E.
    call_step 15%nat 0x220. apply calls_O.
  - vm_compute. reflexivity.
  - split; [vm_compute; reflexivity|].
    exists 0x222. split; [lia | vm_compute; reflexivity].
Defined.

(** * Drawing a sprite twice *)

Section Blit.

Lemma blit_app c1 c2 s : blit (c1 ++ c2) s = blit c2 (blit c1 s).
Proof. unfold blit. apply fold_left_app. Qed.

Lemma draw_cols_blit : forall n col b x y row s,
  draw_cols n col b x y row s = blit (row_cells n col b x y row) s.
Proof.
  induction n as [|n IH]; intros; [reflexivity|].
  cbn [draw_cols row_cells]. rewrite IH. reflexivity.
Qed.

Lemma draw_frame_blit cells : forall s, draw_frame s (blit cells s).
Proof.
  induction cells as [|c cells IH]; intros s; [apply draw_frame_refl|].
  eapply draw_frame_trans; [apply draw_frame_plot | apply IH].
Qed.

Lemma draw_rows_blit : forall n row x y s s',
  draw_rows n row x y s = Some s' ->
  s' = blit (sprite_cells n row x y (memory s) (I s)) s.
Proof.
  induction n as [|n IH]; intros row x y s s'; cbn [draw_rows sprite_cells].
  - intros [= <-]. reflexivity.
  - destruct (_ <=? _); [intros [= <-]; reflexivity|].
    destruct (ld (memory s) _) as [b|]; [|discriminate].
    intros H. apply IH in H. rewrite H, blit_app, draw_cols_blit.
    destruct (draw_frame_blit (row_cells 8 0 b x y row) s) as [_ -> -> _ _ _ _ _ _].
    reflexivity.
Qed.

(** The row loop stays inside memory when the rows it reads do. *)
Lemma draw_rows_defined : forall n row x y s,
  (forall r, row <= r < row + Z.of_nat n -> y + r < 32 ->
     0 <= I s + r < Z.of_nat (length (memory s))) ->
  0 <= row ->
  exists s', draw_rows n row x y s = Some s'.
Proof.
  induction n as [|n IH]; intros row x y s Hmem Hrow; cbn [draw_rows].
  - eexists. reflexivity.
  - destruct (Z.leb_spec 32 (y + row)); [eexists; reflexivity|].
    rewrite ld_in_range by (apply Hmem; lia).
    apply IH; [|lia]. intros r Hr Hy.
    destruct (draw_frame_draw_cols 8 0 (get (memory s) (I s + row)) x y row s)
      as [_ -> -> _ _ _ _ _ _].
    apply Hmem; lia.
Qed.

End Blit.

Section Cells.

Lemma pixel_index_of_range x y row col :
  0 <= pixel_index_of x y row col < 2048.
Proof. unfold pixel_index_of. Z.div_mod_to_equations. lia. Qed.

Lemma pixel_index_of_row x y row col :
  0 <= y -> 0 <= row -> y + row < 32 ->
  pixel_index_of x y row col / 64 = y + row.
Proof. intros. unfold pixel_index_of. Z.div_mod_to_equations. lia. Qed.

Lemma pixel_index_of_col_inj x y row c1 c2 :
  0 <= c1 < 8 -> 0 <= c2 < 8 ->
  pixel_index_of x y row c1 = pixel_index_of x y row c2 -> c1 = c2.
Proof. unfold pixel_index_of. intros ? ?. Z.div_mod_to_equations. lia. Qed.

Lemma elem_of_row_cells c : forall n col b x y row,
  c ∈ row_cells n col b x y row ->
  exists k, col <= k < col + Z.of_nat n
            /\ c = (pixel_index_of x y row k, sprite_pixel_of b k).
Proof.
  induction n as [|n IH]; intros col b x y row; cbn [row_cells].
  - intros H. inversion H.
  - rewrite elem_of_cons. intros [->|H].
    + exists col. split; [lia | reflexivity].
    + apply IH in H as (k & Hk & ->). exists k. split; [lia | reflexivity].
Qed.

Lemma elem_of_sprite_cells c x y mem i : forall n row,
  c ∈ sprite_cells n row x y mem i ->
  exists r k b, row <= r < row + Z.of_nat n /\ y + r < 32 /\ 0 <= k < 8
                /\ c = (pixel_index_of x y r k, sprite_pixel_of b k).
Proof.
  induction n as [|n IH]; intros row; cbn [sprite_cells].
  - intros H. inversion H.
  - destruct (Z.leb_spec 32 (y + row)) as [Hge|Hlt]; [intros H; inversion H|].
    destruct (ld mem (i + row)) as [b|]; [|intros H; inversion H].
    rewrite elem_of_app. intros [H|H].
    + apply elem_of_row_cells in H as (k & Hk & ->).
      exists row, k, b. repeat split; lia.
    + apply IH in H as (r & k & b' & Hr & Hy & Hk & ->).
      exists r, k, b'. repeat split; lia.
Qed.

Lemma NoDup_row_cells : forall n col b x y row,
  0 <= col -> col + Z.of_nat n <= 8 ->
  NoDup (fst <$> row_cells n col b x y row).
Proof.
  induction n as [|n IH]; intros col b x y row Hc Hn; cbn [row_cells fmap list_fmap].
  - apply NoDup_nil_2.
  - apply NoDup_cons_2; [|apply IH; lia].
    rewrite list_elem_of_fmap. intros ([p v] & Hp & Hin). simpl in Hp.
    apply elem_of_row_cells in Hin as (k & Hk & [= -> ->]).
    apply pixel_index_of_col_inj in Hp; lia.
Qed.

Lemma NoDup_sprite_cells x y mem i : forall n row,
  0 <= y -> 0 <= row ->
  NoDup (fst <$> sprite_cells n row x y mem i).
Proof.
  induction n as [|n IH]; intros row Hy Hrow; cbn [sprite_cells].
  - apply NoDup_nil_2.
  - destruct (Z.leb_spec 32 (y + row)) as [Hge|Hlt]; [apply NoDup_nil_2|].
    destruct (ld mem (i + row)) as [b|]; [|apply NoDup_nil_2].
    rewrite fmap_app. apply NoDup_app. split; [apply NoDup_row_cells; lia|].
    split; [|apply IH; lia].
    intros p. rewrite !list_elem_of_fmap.
    intros ([p1 v1] & -> & H1) ([p2 v2] & Hp & H2). simpl in Hp.
    apply elem_of_row_cells in H1 as (k1 & Hk1 & [= -> ->]).
    apply elem_of_sprite_cells in H2 as (r & k2 & b2 & Hr & Hy2 & Hk2 & [= -> ->]).
    pose proof (pixel_index_of_row x y row k1 Hy Hrow ltac:(lia)) as E1.
    pose proof (pixel_index_of_row x y r k2 Hy ltac:(lia) Hy2) as E2.
    rewrite Hp in E1. lia.
Qed.

(** Every pixel of a draw is inside the framebuffer and has a bit. *)
Lemma sprite_cells_range x y mem i n row :
  Forall (fun c => 0 <= fst c < 2048 /\ (snd c = 0 \/ snd c = 1))
         (sprite_cells n row x y mem i).
Proof.
  apply Forall_forall. intros c Hc.
  apply elem_of_sprite_cells in Hc as (r & k & b & _ & _ & _ & ->). simpl.
  split; [apply pixel_index_of_range | apply sprite_pixel_of_bit].
Qed.

End Cells.

Section Plot.

Lemma gfx_plot q b s :
  gfx (plot q b s) = put (gfx s) q (Z.lxor (get (gfx s) q) b).
Proof. unfold plot. destruct (_ && _); reflexivity. Qed.

Lemma V_plot q b s :
  V (plot q b s)
  = if (get (gfx s) q =? 1) && (b =? 1) then put (V s) 0xF 1 else V s.
Proof. unfold plot. destruct (_ && _); reflexivity. Qed.

Lemma length_gfx_blit cells : forall s, length (gfx (blit cells s)) = length (gfx s).
Proof.
  induction cells as [|c cells IH]; intros s; [reflexivity|].
  cbn [blit fold_left]. fold (blit cells (plot (fst c) (snd c) s)).
  rewrite IH, gfx_plot. apply length_put.
Qed.

(** After a blit every pixel is its old value, exclusive-or the bits
    plotted on it. *)
Lemma gfx_blit cells p : forall s,
  Forall (fun c => 0 <= fst c < Z.of_nat (length (gfx s))) cells ->
  0 <= p < Z.of_nat (length (gfx s)) ->
  get (gfx (blit cells s)) p = Z.lxor (get (gfx s) p) (xacc cells p).
Proof.
  induction cells as [|[q b] cells IH]; intros s Hr Hp.
  - simpl. rewrite Z.lxor_0_r. reflexivity.
  - inversion Hr as [|? ? Hq Hr']; subst. simpl in Hq.
    cbn [blit fold_left xacc fold_right fst snd].
    fold (blit cells (plot q b s)). fold (xacc cells p).
    rewrite IH; rewrite gfx_plot, ?length_put; try assumption.
    destruct (Z.eqb_spec q p) as [->|Hne].
    + rewrite get_put_eq by assumption. apply Z.lxor_assoc.
    + rewrite get_put_ne by lia. reflexivity.
Qed.

Lemma xacc_not_in cells p : p ∉ (fst <$> cells) -> xacc cells p = 0.
Proof.
  induction cells as [|[q b] cells IH]; [reflexivity|].
  cbn [fmap list_fmap xacc fold_right fst snd]. rewrite not_elem_of_cons.
  intros [Hne Hin]. fold (xacc cells p).
  destruct (Z.eqb_spec q p); [congruence | apply IH; assumption].
Qed.

Lemma xacc_in cells p b :
  NoDup (fst <$> cells) -> (p, b) ∈ cells -> xacc cells p = b.
Proof.
  induction cells as [|[q v] cells IH]; [intros _ H; inversion H|].
  cbn [fmap list_fmap xacc fold_right fst snd]. fold (xacc cells p).
  rewrite NoDup_cons, elem_of_cons. intros [Hq Hnd] [[= -> ->]|Hin].
  - rewrite Z.eqb_refl, xacc_not_in by assumption. apply Z.lxor_0_r.
  - destruct (Z.eqb_spec q p) as [->|_]; [|apply IH; assumption].
    contradict Hq. apply list_elem_of_fmap. exists (p, b). split; [reflexivity | assumption].
Qed.

Lemma hit_ext cells g g' :
  (forall c, c ∈ cells -> get g' (fst c) = get g (fst c)) -> hit cells g' = hit cells g.
Proof.
  induction cells as [|c cells IH]; intros H; [reflexivity|].
  cbn [hit existsb]. fold (hit cells g'). fold (hit cells g).
  rewrite (H c) by apply list_elem_of_here.
  rewrite IH; [reflexivity|]. intros c' Hc'. apply H. apply list_elem_of_further, Hc'.
Qed.

(** With no pixel plotted twice, VF is raised exactly when some set bit of
    the sprite falls on a pixel that was lit before the blit. *)
Lemma V_blit cells : forall s,
  NoDup (fst <$> cells) ->
  Forall (fun c => 0 <= fst c < Z.of_nat (length (gfx s))) cells ->
  V (blit cells s) = if hit cells (gfx s) then put (V s) 0xF 1 else V s.
Proof.
  induction cells as [|[q b] cells IH]; intros s Hnd Hr; [reflexivity|].
  cbn [fmap list_fmap fst] in Hnd. apply NoDup_cons in Hnd as [Hq Hnd].
  inversion Hr as [|? ? Hq' Hr']; subst. simpl in Hq'.
  cbn [blit fold_left hit existsb fst snd].
  fold (blit cells (plot q b s)). fold (hit cells (gfx s)).
  assert (El : length (gfx (plot q b s)) = length (gfx s))
    by (rewrite gfx_plot; apply length_put).
  rewrite IH;
    [|assumption|eapply Forall_impl; [exact Hr'|]; intros c Hc; rewrite El; exact Hc].
  rewrite (hit_ext cells (gfx s) (gfx (plot q b s))).
  - rewrite V_plot.
    destruct ((get (gfx s) q =? 1) && (b =? 1)), (hit cells (gfx s)); simpl;
      try reflexivity.
    apply put_put_eq.
  - intros [q' b'] Hc. cbn [fst]. rewrite gfx_plot. apply get_put_ne.
    + lia.
    + rewrite Forall_forall in Hr'. apply Hr' in Hc. simpl in Hc. lia.
    + intros ->. apply Hq. apply list_elem_of_fmap. exists (q', b'). split; [reflexivity | assumption].
Qed.

Lemma hit_true cells g :
  hit cells g = true <-> exists p b, (p, b) ∈ cells /\ get g p = 1 /\ b = 1.
Proof.
  unfold hit. rewrite existsb_exists. split.
  - intros ([p b] & Hin & H). simpl in H.
    apply andb_prop in H as [H1 H2]. apply Z.eqb_eq in H1, H2.
    exists p, b. rewrite list_elem_of_In. auto.
  - intros (p & b & Hin & H1 & H2). exists (p, b).
    rewrite <- list_elem_of_In. split; [assumption|]. simpl.
    rewrite H1, H2. reflexivity.
Qed.

End Plot.

Section DrawTwice.

Lemma list_eq_get (a b : list Z) :
  length a = length b ->
  (forall p, 0 <= p < Z.of_nat (length a) -> get a p = get b p) ->
  a = b.
Proof.
  intros Hlen H. apply list_eq. intros i.
  destruct (decide (i < length a)%nat) as [Hi|Hi].
  - specialize (H (Z.of_nat i) ltac:(lia)). unfold get in H. rewrite Nat2Z.id in H.
    rewrite (list_lookup_lookup_total_lt a i) by lia.
    rewrite (list_lookup_lookup_total_lt b i) by lia. congruence.
  - rewrite !lookup_ge_None_2 by lia. reflexivity.
Qed.

Lemma lxor_twice a b : Z.lxor (Z.lxor a b) b = a.
Proof. rewrite Z.lxor_assoc, Z.lxor_nilpotent. apply Z.lxor_0_r. Qed.

(** One draw, as a blit of the pixels of the sprite. *)
Lemma draw_sprite_blit x_coord y_coord height s :
  wf s ->
  (forall row, 0 <= row < height -> y_coord mod 32 + row < 32 ->
     I s + row < CHIP8_MEMORY_SIZE) ->
  draw_sprite x_coord y_coord height s
  = Done (set_draw_flag true
            (blit (sprite_cells (Z.to_nat height) 0 (x_coord mod 64) (y_coord mod 32)
                     (memory s) (I s))
                  (set_reg 0xF 0 s))).
Proof.
  intros Hwf Hrows. unfold draw_sprite.
  pose proof (wf_I s Hwf) as HI. pose proof (wf_memory_len s Hwf) as Hml.
  unfold is_u16, CHIP8_MEMORY_SIZE in *.
  destruct (draw_rows_defined (Z.to_nat height) 0 (x_coord mod 64) (y_coord mod 32)
              (set_reg 0xF 0 s)) as [s1 H1]; [|lia|].
  - intros r Hr Hy. simpl. specialize (Hrows r). lia.
  - rewrite H1. apply draw_rows_blit in H1. rewrite H1. reflexivity.
Qed.

End DrawTwice.

(** C7: take any well-formed state, any coordinates and any height such
    that the sprite rows the draw reads lie inside memory.  Drawing the
    sprite and then drawing it again - same coordinates, same height, the
    same [I] and memory, which a draw does not change - gives back the
    framebuffer of before the first draw.  The second draw leaves VF at 1
    if the first draw turned some pixel from 0 to 1, and at 0 if it did
    not. *)
Theorem C7_draw_twice_restores_framebuffer x_coord y_coord height s :
  wf s ->
  (forall row, 0 <= row < height -> y_coord mod 32 + row < 32 ->
     I s + row < CHIP8_MEMORY_SIZE) ->
  exists s1 s2,
    draw_sprite x_coord y_coord height s = Done s1
    /\ draw_sprite x_coord y_coord height s1 = Done s2
    /\ gfx s2 = gfx s
    /\ (reg s2 0xF = 1 \/ reg s2 0xF = 0)
    /\ (reg s2 0xF = 1 <->
        exists p, 0 <= p < CHIP8_VIDEO_BUFFER_SIZE
                  /\ get (gfx s) p = 0 /\ get (gfx s1) p = 1).
Proof.
  intros Hwf Hrows.
  pose proof (draw_sprite_blit x_coord y_coord height s Hwf Hrows) as H1.
  set (cells := sprite_cells (Z.to_nat height) 0 (x_coord mod 64) (y_coord mod 32)
                  (memory s) (I s)) in *.
  set (s1 := set_draw_flag true (blit cells (set_reg 0xF 0 s))) in *.
  assert (Hwf1 : wf s1).
  { pose proof (wf_draw_sprite x_coord y_coord height s Hwf) as H.
    unfold holds_after in H. rewrite H1 in H. exact H. }
  destruct (draw_frame_blit cells (set_reg 0xF 0 s)) as [_ Hm1 HI1 _ _ _ _ _ _].
  simpl in Hm1, HI1.
  assert (H2 : draw_sprite x_coord y_coord height s1
               = Done (set_draw_flag true (blit cells (set_reg 0xF 0 s1)))).
  { rewrite (draw_sprite_blit x_coord y_coord height s1 Hwf1).
    - unfold s1 at 2 3. simpl. rewrite Hm1, HI1. reflexivity.
    - unfold s1. simpl. rewrite HI1. exact Hrows. }
  pose proof (wf_gfx_len s Hwf) as Hgl. pose proof (wf_gfx_len s1 Hwf1) as Hgl1.
  pose proof (wf_V_len s1 Hwf1) as Hvl1.
  assert (Hnd : NoDup (fst <$> cells)).
  { apply NoDup_sprite_cells; [|lia]. apply Z.mod_pos_bound. lia. }
  assert (Hrange : forall t, Z.of_nat (length (gfx t)) = 2048 ->
            Forall (fun c => 0 <= fst c < Z.of_nat (length (gfx t))) cells).
  { intros t Ht. eapply Forall_impl; [apply sprite_cells_range|].
    intros c [Hc _]. simpl in Hc. lia. }
  assert (Hg1 : forall p, 0 <= p < 2048 ->
            get (gfx s1) p = Z.lxor (get (gfx s) p) (xacc cells p)).
  { intros p Hp. unfold s1. simpl.
    rewrite gfx_blit; [reflexivity | apply Hrange; exact Hgl | simpl; lia]. }
  clearbody s1.
  exists s1, (set_draw_flag true (blit cells (set_reg 0xF 0 s1))).
  split; [exact H1|]. split; [exact H2|]. simpl. split; [|split].
  - apply list_eq_get.
    + rewrite length_gfx_blit. simpl. lia.
    + intros p Hp. rewrite length_gfx_blit in Hp. simpl in Hp.
      rewrite gfx_blit; [|apply Hrange; exact Hgl1 | simpl; lia]. simpl.
      rewrite Hg1 by lia. apply lxor_twice.
  - unfold reg. simpl.
    rewrite V_blit; [|exact Hnd | apply Hrange; exact Hgl1]. simpl.
    destruct (hit cells (gfx s1)).
    + left. rewrite put_put_eq. apply get_put_eq. lia.
    + right. apply get_put_eq. lia.
  - unfold reg. simpl.
    rewrite V_blit; [|exact Hnd | apply Hrange; exact Hgl1]. simpl.
    unfold CHIP8_VIDEO_BUFFER_SIZE, CHIP8_SCREEN_WIDTH, CHIP8_SCREEN_HEIGHT.
    destruct (hit cells (gfx s1)) eqn:Hhit.
    + rewrite put_put_eq, get_put_eq by lia. split; [intros _|reflexivity].
      apply hit_true in Hhit as (p & b & Hin & Hlit & ->).
      assert (Hp : 0 <= p < 2048).
      { pose proof (sprite_cells_range (x_coord mod 64) (y_coord mod 32) (memory s) (I s)
                      (Z.to_nat height) 0) as Hr.
        rewrite Forall_forall in Hr. apply Hr in Hin. simpl in Hin. lia. }
      exists p. split; [lia|]. split; [|exact Hlit].
      rewrite Hg1, (xacc_in cells p 1 Hnd Hin) in Hlit by lia.
      rewrite <- (lxor_twice (get (gfx s) p) 1), Hlit. reflexivity.
    + rewrite get_put_eq by lia. split; [discriminate|].
      intros (p & Hp & H0 & Hlit). exfalso.
      rewrite Hg1, H0, Z.lxor_0_l in Hlit by lia.
      destruct (decide (p ∈ (fst <$> cells))) as [Hin|Hin].
      * apply list_elem_of_fmap in Hin as ([p' b] & -> & Hin). simpl in Hlit.
        rewrite (xacc_in cells p' b Hnd Hin) in Hlit. subst b.
        assert (hit cells (gfx s1) = true); [|congruence].
        apply hit_true. exists p', 1. split; [exact Hin|]. split; [|reflexivity].
        simpl in Hp, H0. rewrite Hg1, H0, (xacc_in cells p' 1 Hnd Hin) by lia.
        reflexivity.
      * rewrite xacc_not_in in Hlit by assumption. discriminate.
Qed.

Lemma C7_witness :
  exists s1 s2,
    draw_sprite 0 0 5 (after 1 rom_draw) = Done s1
    /\ draw_sprite 0 0 5 s1 = Done s2
    /\ gfx s2 = gfx (after 1 rom_draw)
    /\ (reg s2 0xF = 1 \/ reg s2 0xF = 0)
    /\ (reg s2 0xF = 1 <->
        exists p, 0 <= p < CHIP8_VIDEO_BUFFER_SIZE
                  /\ get (gfx (after 1 rom_draw)) p = 0 /\ get (gfx s1) p = 1).
Proof.
  apply (C7_draw_twice_restores_framebuffer 0 0 5 (after 1 rom_draw)).
  - apply wf_check_sound. vm_compute. reflexivity.
  - intros row Hrow _. change (I (after 1 rom_draw)) with 0x50.
    unfold CHIP8_MEMORY_SIZE. lia.
Defined.

(** * Loading a ROM *)

Section LoadRom.

Lemma write_bytes_get bytes : forall mem addr a,
  0 <= addr -> addr + Z.of_nat (length bytes) <= Z.of_nat (length mem) -> 0 <= a ->
  get (write_bytes mem addr bytes) a
  = if decide (addr <= a < addr + Z.of_nat (length bytes))
    then get bytes (a - addr) else get mem a.
Proof.
  induction bytes as [|b bs IH]; intros mem addr a Haddr Hlen Ha; cbn [write_bytes length].
  - destruct (decide _); [simpl in *; lia | reflexivity].
  - rewrite IH by (rewrite ?length_put; cbn [length] in Hlen; lia).
    cbn [length] in Hlen.
    destruct (decide (addr + 1 <= a < addr + 1 + Z.of_nat (length bs))),
             (decide (addr <= a < addr + Z.of_nat (S (length bs)))); try lia.
    + unfold get. replace (Z.to_nat (a - addr)) with (S (Z.to_nat (a - (addr + 1)))) by lia.
      reflexivity.
    + assert (a = addr) as -> by lia. rewrite get_put_eq by lia.
      unfold get. replace (Z.to_nat (addr - addr)) with O by lia. reflexivity.
    + apply get_put_ne; lia.
Qed.

Lemma length_take_rom (bytes : list Z) :
  Z.of_nat (length (take (Z.to_nat (u16 (Z.of_nat (length bytes)))) bytes))
  = u16 (Z.of_nat (length bytes)).
Proof.
  rewrite length_take. pose proof (u16_is_u16 (Z.of_nat (length bytes))) as H.
  unfold is_u16 in H.
  assert (u16 (Z.of_nat (length bytes)) <= Z.of_nat (length bytes)).
  { unfold u16. apply Z.mod_le; lia. }
  lia.
Qed.

(** What load_rom does to memory, whether it accepts the file or not. *)
Lemma load_rom_memory file s a :
  wf s -> 0 <= a < CHIP8_MEMORY_SIZE ->
  ~ CHIP8_START_PROGRAM_ADDRESS <= a
      < CHIP8_START_PROGRAM_ADDRESS + loaded_rom_size (snd (load_rom file s)) ->
  get (memory (snd (load_rom file s))) a = get (memory s) a.
Proof.
  intros Hwf Ha. unfold load_rom. destruct file as [bytes|]; [|reflexivity].
  cbn [loaded_rom_size set_loaded_rom_size].
  pose proof (wf_memory_len s Hwf) as Hml.
  unfold CHIP8_MEMORY_SIZE, CHIP8_START_PROGRAM_ADDRESS in *.
  destruct (Z.ltb_spec (4096 - 0x200) (u16 (Z.of_nat (length bytes)))); [reflexivity|].
  cbn [snd memory set_memory set_loaded_rom_size loaded_rom_size]. intros Hout.
  rewrite write_bytes_get by (rewrite ?length_take_rom; lia).
  rewrite length_take_rom. destruct (decide _); [lia | reflexivity].
Qed.

Lemma font_in_memory_new : font_in_memory Chip8_new.
Proof.
  intros i Hi. unfold Chip8_new, copy_sprite_font_into_memory. cbn [memory set_memory].
  unfold CHIP8_FONT_BUFFER_SIZE, CHIP8_FONT_START_ADDRESS_IN_MEMORY, CHIP8_MEMORY_SIZE in *.
  rewrite write_bytes_get.
  - change (Z.of_nat (length sprite_font)) with 80.
    destruct (decide _); [|lia]. f_equal. lia.
  - lia.
  - rewrite length_replicate. change (Z.of_nat (length sprite_font)) with 80. lia.
  - lia.
Qed.

End LoadRom.

(** X1: load_rom on a file of [bytes].  The size it records is the length
    of the file reduced to 16 bits.  When that size is at most 4096 - 0x200
    the load succeeds: memory holds the first [size] bytes of the file from
    0x200 on, every other byte of memory is as before, and nothing else in
    the machine changes.  When it is larger the load fails and memory is
    untouched, but the size has been recorded all the same. *)
Theorem X1_load_rom_copies_file_or_rejects bytes s :
  wf s ->
  let size := Z.of_nat (length bytes) mod 65536 in
  let r := load_rom (Some bytes) s in
  loaded_rom_size (snd r) = size
  /\ snd r = set_memory (memory (snd r)) (set_loaded_rom_size size s)
  /\ if size <=? CHIP8_MEMORY_SIZE - CHIP8_START_PROGRAM_ADDRESS
     then fst r = true
          /\ forall a, 0 <= a < CHIP8_MEMORY_SIZE ->
               get (memory (snd r)) a
               = if decide (CHIP8_START_PROGRAM_ADDRESS <= a
                            < CHIP8_START_PROGRAM_ADDRESS + size)
                 then get bytes (a - CHIP8_START_PROGRAM_ADDRESS)
                 else get (memory s) a
     else fst r = false /\ memory (snd r) = memory s.
Proof.
  intros Hwf size r. subst r. unfold load_rom.
  cbn [loaded_rom_size set_loaded_rom_size]. fold (u16 (Z.of_nat (length bytes))).
  change (Z.of_nat (length bytes) mod 65536) with (u16 (Z.of_nat (length bytes))) in size.
  fold size.
  pose proof (wf_memory_len s Hwf) as Hml.
  pose proof (u16_is_u16 (Z.of_nat (length bytes))) as Hsz. fold size in Hsz.
  unfold is_u16, CHIP8_MEMORY_SIZE, CHIP8_START_PROGRAM_ADDRESS in *.
  destruct (Z.ltb_spec (4096 - 0x200) size) as [Hbig|Hfit];
    destruct (Z.leb_spec size (4096 - 0x200)); try lia.
  - repeat split.
  - cbn [fst snd memory set_memory loaded_rom_size set_loaded_rom_size].
    split; [reflexivity|]. split; [reflexivity|]. split; [reflexivity|].
    intros a Ha.
    pose proof (length_take_rom bytes) as Hlt. fold size in Hlt.
    rewrite write_bytes_get by lia. rewrite Hlt.
    destruct (decide (512 <= a < 512 + size)); [|reflexivity].
    unfold get. apply lookup_total_take_lt. lia.
Qed.

Lemma X1_witness :
  (let size := Z.of_nat (length file_two_bytes) mod 65536 in
   let r := load_rom (Some file_two_bytes) Chip8_new in
   loaded_rom_size (snd r) = size
   /\ snd r = set_memory (memory (snd r)) (set_loaded_rom_size size Chip8_new)
   /\ if size <=? CHIP8_MEMORY_SIZE - CHIP8_START_PROGRAM_ADDRESS
      then fst r = true
           /\ forall a, 0 <= a < CHIP8_MEMORY_SIZE ->
                get (memory (snd r)) a
                = if decide (CHIP8_START_PROGRAM_ADDRESS <= a
                             < CHIP8_START_PROGRAM_ADDRESS + size)
                  then get file_two_bytes (a - CHIP8_START_PROGRAM_ADDRESS)
                  else get (memory Chip8_new) a
      else fst r = false /\ memory (snd r) = memory Chip8_new)
  /\ (let size := Z.of_nat (length file_too_long) mod 65536 in
      let r := load_rom (Some file_too_long) Chip8_new in
      loaded_rom_size (snd r) = size
      /\ snd r = set_memory (memory (snd r)) (set_loaded_rom_size size Chip8_new)
      /\ if size <=? CHIP8_MEMORY_SIZE - CHIP8_START_PROGRAM_ADDRESS
         then fst r = true
              /\ forall a, 0 <= a < CHIP8_MEMORY_SIZE ->
                   get (memory (snd r)) a
                   = if decide (CHIP8_START_PROGRAM_ADDRESS <= a
                                < CHIP8_START_PROGRAM_ADDRESS + size)
                     then get file_too_long (a - CHIP8_START_PROGRAM_ADDRESS)
                     else get (memory Chip8_new) a
         else fst r = false /\ memory (snd r) = memory Chip8_new).
Proof.
  split.
  - apply (X1_load_rom_copies_file_or_rejects file_two_bytes Chip8_new).
    apply wf_check_sound. vm_compute. reflexivity.
  - apply (X1_load_rom_copies_file_or_rejects file_too_long Chip8_new).
    apply wf_check_sound. vm_compute. reflexivity.
Defined.

(** X2: a machine that has just been constructed has the font table at
    0x50..0x9F, and load_rom leaves it there whatever the file is - one that
    cannot be opened, one that is rejected, or one that is loaded. *)
Theorem X2_font_table_survives_load_rom file :
  font_in_memory (snd (load_rom file Chip8_new)).
Proof.
  intros i Hi.
  unfold CHIP8_FONT_BUFFER_SIZE, CHIP8_FONT_START_ADDRESS_IN_MEMORY in *.
  rewrite load_rom_memory.
  - apply font_in_memory_new. unfold CHIP8_FONT_BUFFER_SIZE. lia.
  - apply wf_check_sound. vm_compute. reflexivity.
  - unfold CHIP8_MEMORY_SIZE. lia.
  - unfold CHIP8_START_PROGRAM_ADDRESS. lia.
Qed.

(** * One instruction at a time *)

Section Step.

Lemma emulate_cycle_step rnd s opcode :
  wf s -> pc s < CHIP8_MEMORY_SIZE - 1 -> fetch s = Some opcode ->
  emulate_cycle rnd s =
    match execute rnd opcode (set_pc (pc s + 2) s) with
    | Done s1 => Done (timers s1)
    | Aborted c s1 => Aborted c s1
    | Undefined => Undefined
    end.
Proof.
  intros Hwf Hpc Hf. rewrite (emulate_cycle_cases rnd s opcode Hpc Hf).
  pose proof (wf_pc s Hwf) as H. unfold is_u16, CHIP8_MEMORY_SIZE in *.
  rewrite u16_small by (unfold is_u16; lia). reflexivity.
Qed.

Lemma fetch_is_u16 s opcode : fetch s = Some opcode -> is_u16 opcode.
Proof.
  unfold fetch. destruct (ld _ _); [|discriminate]. destruct (ld _ _); [|discriminate].
  intros [= <-]. apply u16_is_u16.
Qed.

(** In a well-formed state the fetch succeeds whenever the guard lets it. *)
Lemma fetch_defined s :
  wf s -> pc s < CHIP8_MEMORY_SIZE - 1 -> exists opcode, fetch s = Some opcode.
Proof.
  intros Hwf Hpc. pose proof (wf_pc s Hwf) as H. pose proof (wf_memory_len s Hwf) as Hl.
  unfold is_u16, CHIP8_MEMORY_SIZE in *. unfold fetch.
  rewrite !ld_in_range by lia. eexists. reflexivity.
Qed.

Lemma font_check_sound s : font_check s = true -> font_in_memory s.
Proof.
  unfold font_check, font_in_memory. rewrite forallb_forall. intros H i Hi.
  apply Z.eqb_eq, H. apply list_elem_of_In, elem_of_seqZ. lia.
Qed.

(** Two registers written one after the other, the flag first. *)
Lemma reg_flag_then_x s x f v :
  wf s -> 0 <= x < 15 ->
  reg (set_reg x v (set_reg 0xF f s)) x = v
  /\ reg (set_reg x v (set_reg 0xF f s)) 0xF = f
  /\ forall r, 0 <= r < 15 -> r <> x ->
       reg (set_reg x v (set_reg 0xF f s)) r = reg s r.
Proof.
  intros Hwf Hx. pose proof (wf_V_len s Hwf) as Hl. unfold reg, set_reg. simpl.
  split; [apply get_put_eq; rewrite length_put; lia|].
  split; [rewrite get_put_ne by lia; apply get_put_eq; lia|].
  intros r Hr Hne. rewrite !get_put_ne by lia. reflexivity.
Qed.

End Step.

(** Resolving the switch for an opcode whose high digit is known. *)
Ltac dispatch Hh := unfold execute; rewrite Hh; switch; try lia.

(** X3: LD F, Vx in a state that still has the font table.  For a digit
    [Vx < 16] the index register ends at the first of the five bytes of that
    digit's sprite, [0x50 + 5 * Vx]; for [Vx >= 16] it ends at 0.  Memory is
    not written. *)
Theorem X3_ld_f_points_at_digit_sprite rnd s x :
  wf s -> pc s < CHIP8_MEMORY_SIZE - 1 -> 0 <= x < 16 ->
  fetch s = Some (0xF029 + 256 * x) ->
  font_in_memory s ->
  exists s',
    emulate_cycle rnd s = Done s'
    /\ memory s' = memory s
    /\ if reg s x <? 16
       then I s' = CHIP8_FONT_START_ADDRESS_IN_MEMORY + 5 * reg s x
            /\ forall k, 0 <= k < 5 ->
                 get (memory s') (I s' + k) = get sprite_font (5 * reg s x + k)
       else I s' = 0.
Proof.
  intros Hwf Hpc Hx Hf Hfont. rewrite (emulate_cycle_step rnd s _ Hwf Hpc Hf).
  set (opcode := 0xF029 + 256 * x).
  assert (Hh : Z.land opcode 0xF000 = 0xF000) by (unfold opcode; decode).
  assert (Hk : Z.land opcode 0xFF = 0x29) by (unfold opcode; decode).
  assert (Ex : op_x opcode = x) by (unfold opcode; decode).
  dispatch Hh. unfold op_misc. rewrite Hk. switch; try lia.
  eexists. split; [reflexivity|].
  unfold op_ld_f. rewrite Ex. change (reg (set_pc (pc s + 2) s) x) with (reg s x).
  pose proof (reg_is_u8 s Hwf x Hx) as Hr. unfold is_u8 in Hr.
  unfold CHIP8_FONT_START_ADDRESS_IN_MEMORY in *.
  destruct (Z.leb_spec 16 (reg s x)), (Z.ltb_spec (reg s x) 16); try lia.
  - split; reflexivity.
  - split; [reflexivity|]. cbn [I timers set_I set_delayTimer set_soundTimer memory set_pc].
    rewrite u16_small by (unfold is_u16; lia).
    split; [lia|]. intros k Hk'.
    replace (80 + reg s x * 5 + k) with (0x50 + (5 * reg s x + k)) by lia.
    apply Hfont. unfold CHIP8_FONT_BUFFER_SIZE. lia.
Qed.

Lemma X3_witness :
  exists s',
    emulate_cycle 0 (after 1 rom_ld_f) = Done s'
    /\ memory s' = memory (after 1 rom_ld_f)
    /\ if reg (after 1 rom_ld_f) 4 <? 16
       then I s' = CHIP8_FONT_START_ADDRESS_IN_MEMORY + 5 * reg (after 1 rom_ld_f) 4
            /\ forall k, 0 <= k < 5 ->
                 get (memory s') (I s' + k)
                 = get sprite_font (5 * reg (after 1 rom_ld_f) 4 + k)
       else I s' = 0.
Proof.
  apply (X3_ld_f_points_at_digit_sprite 0 (after 1 rom_ld_f) 4).
  - apply wf_check_sound. vm_compute. reflexivity.
  - vm_compute. reflexivity.
  - lia.
  - vm_compute. reflexivity.
  - apply font_check_sound. vm_compute. reflexivity.
Defined.

(** X4: JP nnn puts exactly [nnn] in the program counter; the cycle changes
    nothing else but the timers it counts down. *)
Theorem X4_jp_sets_pc rnd s nnn :
  wf s -> pc s < CHIP8_MEMORY_SIZE - 1 -> 0 <= nnn < 4096 ->
  fetch s = Some (0x1000 + nnn) ->
  emulate_cycle rnd s = Done (timers (set_pc nnn s)).
Proof.
  intros Hwf Hpc Hn Hf. rewrite (emulate_cycle_step rnd s _ Hwf Hpc Hf).
  set (opcode := 0x1000 + nnn).
  assert (Hh : Z.land opcode 0xF000 = 0x1000) by (unfold opcode; decode).
  assert (En : op_nnn opcode = nnn) by (unfold opcode; decode).
  dispatch Hh. rewrite En. reflexivity.
Qed.

Lemma X4_witness :
  emulate_cycle 0 (boot rom_jp) = Done (timers (set_pc 0xABC (boot rom_jp))).
Proof.
  apply (X4_jp_sets_pc 0 (boot rom_jp) 0xABC).
  - apply wf_check_sound. vm_compute. reflexivity.
  - vm_compute. reflexivity.
  - lia.
  - vm_compute. reflexivity.
Defined.

(** X5: SE Vx, nn (3xnn) and SNE Vx, nn (4xnn).  The program counter ends 4
    past the instruction when the test holds - [Vx = nn] for SE, [Vx <> nn]
    for SNE - and 2 past it otherwise, so of the two exactly one skips; the
    cycle changes nothing else but the timers. *)
Theorem X5_se_sne_skip_one_instruction rnd s (ne : bool) x nn :
  wf s -> pc s < CHIP8_MEMORY_SIZE - 1 -> 0 <= x < 16 -> 0 <= nn < 256 ->
  fetch s = Some ((if ne then 0x4000 else 0x3000) + 256 * x + nn) ->
  emulate_cycle rnd s
  = Done (timers (set_pc (pc s + (if xorb ne (reg s x =? nn) then 4 else 2)) s)).
Proof.
  intros Hwf Hpc Hx Hn Hf. rewrite (emulate_cycle_step rnd s _ Hwf Hpc Hf).
  set (opcode := (if ne then 0x4000 else 0x3000) + 256 * x + nn).
  assert (Hh : Z.land opcode 0xF000 = if ne then 0x4000 else 0x3000)
    by (unfold opcode; destruct ne; decode).
  assert (Ex : op_x opcode = x) by (unfold opcode; destruct ne; decode).
  assert (En : op_nn opcode = nn) by (unfold opcode; destruct ne; decode).
  pose proof (wf_pc s Hwf) as Hpc'. unfold is_u16, CHIP8_MEMORY_SIZE in *.
  destruct ne; dispatch Hh; rewrite Ex, En;
    change (reg (set_pc (pc s + 2) s) x) with (reg s x);
    destruct (reg s x =? nn); unfold skip_if; simpl; try reflexivity;
    rewrite u16_small by (unfold is_u16; lia);
    replace (pc s + 2 + 2) with (pc s + 4) by lia; reflexivity.
Qed.

Lemma X5_witness :
  emulate_cycle 0 (after 1 rom_se)
  = Done (timers (set_pc (pc (after 1 rom_se)
                          + (if xorb false (reg (after 1 rom_se) 1 =? 7) then 4 else 2))
                         (after 1 rom_se)))
  /\ emulate_cycle 0 (after 1 rom_sne)
     = Done (timers (set_pc (pc (after 1 rom_sne)
                             + (if xorb true (reg (after 1 rom_sne) 1 =? 7) then 4 else 2))
                            (after 1 rom_sne))).
Proof.
  split.
  - apply (X5_se_sne_skip_one_instruction 0 (after 1 rom_se) false 1 7).
    + apply wf_check_sound. vm_compute. reflexivity.
    + vm_compute. reflexivity.
    + lia.
    + lia.
    + vm_compute. reflexivity.
  - apply (X5_se_sne_skip_one_instruction 0 (after 1 rom_sne) true 1 7).
    + apply wf_check_sound. vm_compute. reflexivity.
    + vm_compute. reflexivity.
    + lia.
    + lia.
    + vm_compute. reflexivity.
Defined.

Section Unimplemented.

Lemma orb_false_split a b : a || b = false -> a = false /\ b = false.
Proof. destruct a, b; simpl; intros; try discriminate; split; reflexivity. Qed.

(** An opcode outside the instruction table takes a default branch. *)
Lemma execute_unimplemented rnd opcode s :
  is_u16 opcode -> implemented opcode = false -> execute rnd opcode s = Done s.
Proof.
  unfold is_u16, implemented. intros Hop Himp.
  assert (Hh : 0 <= opcode / 4096 < 16) by (Z.div_mod_to_equations; lia).
  assert (Ehi : Z.land opcode 0xF000 = 4096 * (opcode / 4096)).
  { rewrite land_0xF000. f_equal. apply Z.mod_small. assumption. }
  destruct (Z.eqb_spec (opcode / 4096) 0x0) as [E|_].
  { rewrite E in Ehi. apply orb_false_split in Himp as [H1 H2].
    apply Z.eqb_neq in H1, H2. dispatch Ehi. reflexivity. }
  destruct (Z.eqb_spec (opcode / 4096) 0x8) as [E|_].
  { rewrite E in Ehi. apply orb_false_split in Himp as [H1 H2].
    apply Z.leb_gt in H1. apply Z.eqb_neq in H2. dispatch Ehi.
    unfold op_alu. rewrite land_0xF. switch; try lia. reflexivity. }
  destruct (Z.eqb_spec (opcode / 4096) 0x9) as [E|_].
  { rewrite E in Ehi. dispatch Ehi. reflexivity. }
  destruct (Z.eqb_spec (opcode / 4096) 0xE) as [E|_].
  { rewrite E in Ehi. apply orb_false_split in Himp as [H1 H2].
    apply Z.eqb_neq in H1, H2. pose proof (land_0xFF opcode) as Hlo.
    dispatch Ehi. reflexivity. }
  destruct (Z.eqb_spec (opcode / 4096) 0xF) as [E|_]; [|discriminate].
  rewrite E in Ehi.
  repeat match type of Himp with
         | _ || _ = false => apply orb_false_split in Himp as [Himp ?]
         end.
  repeat match goal with
         | H : (_ =? _) = false |- _ => apply Z.eqb_neq in H
         end.
  dispatch Ehi. unfold op_misc. rewrite land_0xFF. switch; try lia. reflexivity.
Qed.

End Unimplemented.

(** X6: an opcode that is not in the instruction table - among them the
    whole family 9xy0, SNE Vx, Vy, for which the switch has no case - is
    skipped: the program counter moves past it, the timers are counted
    down, and nothing else changes, whatever the registers hold. *)
Theorem X6_unimplemented_opcode_is_skipped rnd s opcode :
  wf s -> pc s < CHIP8_MEMORY_SIZE - 1 ->
  fetch s = Some opcode -> implemented opcode = false ->
  emulate_cycle rnd s = Done (timers (set_pc (pc s + 2) s)).
Proof.
  intros Hwf Hpc Hf Himp. rewrite (emulate_cycle_step rnd s _ Hwf Hpc Hf).
  rewrite execute_unimplemented; [reflexivity | | assumption].
  eapply fetch_is_u16. eassumption.
Qed.

Lemma X6_witness :
  emulate_cycle 0 (after 2 rom_sne_xy)
  = Done (timers (set_pc (pc (after 2 rom_sne_xy) + 2) (after 2 rom_sne_xy))).
Proof.
  apply (X6_unimplemented_opcode_is_skipped 0 (after 2 rom_sne_xy) 0x9120).
  - apply wf_check_sound. vm_compute. reflexivity.
  - vm_compute. reflexivity.
  - vm_compute. reflexivity.
  - vm_compute. reflexivity.
Defined.

(** X7: ADD Vx, nn (7xnn) leaves [(Vx + nn) mod 256] in Vx and writes no
    carry: besides Vx the cycle changes only the program counter and the
    timers. *)
Theorem X7_add_byte_wraps_without_carry rnd s x nn :
  wf s -> pc s < CHIP8_MEMORY_SIZE - 1 -> 0 <= x < 16 -> 0 <= nn < 256 ->
  fetch s = Some (0x7000 + 256 * x + nn) ->
  emulate_cycle rnd s
  = Done (timers (set_reg x ((reg s x + nn) mod 256) (set_pc (pc s + 2) s))).
Proof.
  intros Hwf Hpc Hx Hn Hf. rewrite (emulate_cycle_step rnd s _ Hwf Hpc Hf).
  set (opcode := 0x7000 + 256 * x + nn).
  assert (Hh : Z.land opcode 0xF000 = 0x7000) by (unfold opcode; decode).
  assert (Ex : op_x opcode = x) by (unfold opcode; decode).
  assert (En : op_nn opcode = nn) by (unfold opcode; decode).
  dispatch Hh. rewrite Ex, En. reflexivity.
Qed.

Lemma X7_witness :
  emulate_cycle 0 (after 1 rom_add_imm)
  = Done (timers (set_reg 0 ((reg (after 1 rom_add_imm) 0 + 2) mod 256)
                    (set_pc (pc (after 1 rom_add_imm) + 2) (after 1 rom_add_imm)))).
Proof.
  apply (X7_add_byte_wraps_without_carry 0 (after 1 rom_add_imm) 0 2).
  - apply wf_check_sound. vm_compute. reflexivity.
  - vm_compute. reflexivity.
  - lia.
  - lia.
  - vm_compute. reflexivity.
Defined.

Section Alu.

Lemma execute_alu rnd x y k s :
  0 <= x < 16 -> 0 <= y < 16 -> 0 <= k < 16 ->
  execute rnd (0x8000 + 256 * x + 16 * y + k) s
  = Done (op_alu (0x8000 + 256 * x + 16 * y + k) s)
  /\ op_x (0x8000 + 256 * x + 16 * y + k) = x
  /\ op_y (0x8000 + 256 * x + 16 * y + k) = y
  /\ Z.land (0x8000 + 256 * x + 16 * y + k) 0xF = k.
Proof.
  intros Hx Hy Hk. set (opcode := 0x8000 + 256 * x + 16 * y + k).
  assert (Hh : Z.land opcode 0xF000 = 0x8000) by (unfold opcode; decode).
  split; [|repeat split; unfold opcode; decode].
  dispatch Hh. reflexivity.
Qed.

End Alu.

(** X8: SUB Vx, Vy (8xy5) and SUBN Vx, Vy (8xy7) for x in 0..14.  VF
    becomes 1 when the minuend is strictly greater than the subtrahend and 0
    otherwise, so equal operands give VF = 0.  Vx becomes the difference
    modulo 256, where the code reads Vy after it has written VF: with y = 15
    the value subtracted (SUB) or subtracted from (SUBN) is the new flag.
    No other register changes. *)
Theorem X8_sub_subn_flag_and_difference rnd s (n : bool) x y :
  wf s -> pc s < CHIP8_MEMORY_SIZE - 1 -> 0 <= x < 15 -> 0 <= y < 16 ->
  fetch s = Some (0x8000 + 256 * x + 16 * y + (if n then 7 else 5)) ->
  let flag :=
    if (if n then reg s x <? reg s y else reg s y <? reg s x) then 1 else 0 in
  let vy := if y =? 15 then flag else reg s y in
  exists s',
    emulate_cycle rnd s = Done s'
    /\ reg s' 0xF = flag
    /\ reg s' x = (if n then vy - reg s x else reg s x - vy) mod 256
    /\ forall r, 0 <= r < 15 -> r <> x -> reg s' r = reg s r.
Proof.
  intros Hwf Hpc Hx Hy Hf flag vy. rewrite (emulate_cycle_step rnd s _ Hwf Hpc Hf).
  destruct (execute_alu rnd x y (if n then 7 else 5) (set_pc (pc s + 2) s))
    as (He & Ex & Ey & Ek); [lia | lia | destruct n; lia |].
  rewrite He. eexists. split; [reflexivity|].
  set (s0 := set_pc (pc s + 2) s).
  assert (Hwf0 : wf s0) by (apply wf_set_pc; [assumption|]; pose proof (wf_pc s Hwf);
                            unfold is_u16, CHIP8_MEMORY_SIZE in *; lia).
  pose proof (wf_V_len s Hwf) as Hl.
  unfold op_alu. rewrite Ek.
  assert (Hvy : reg (set_reg 0xF flag s0) y = vy).
  { unfold vy, reg, set_reg. simpl. destruct (Z.eqb_spec y 15) as [->|Hne].
    - apply get_put_eq. lia.
    - apply get_put_ne; lia. }
  assert (Hvx : reg (set_reg 0xF flag s0) x = reg s x).
  { unfold reg, set_reg. simpl. apply get_put_ne; lia. }
  destruct n; switch; try lia;
    [unfold op_subn_xy | unfold op_sub_xy]; rewrite Ex, Ey;
    change (reg s0) with (reg s); fold flag;
    rewrite Hvy, Hvx; unfold u8;
    match goal with
    | |- context [set_reg x ?v (set_reg 0xF flag s0)] =>
        destruct (reg_flag_then_x s0 x flag v Hwf0 Hx) as (H1 & H2 & H3)
    end;
    (split; [exact H2|]; split; [exact H1|]; exact H3).
Qed.

Lemma X8_witness :
  (let flag :=
     if (if false then reg (after 2 rom_sub_equal) 0 <? reg (after 2 rom_sub_equal) 1
         else reg (after 2 rom_sub_equal) 1 <? reg (after 2 rom_sub_equal) 0)
     then 1 else 0 in
   let vy := if 1 =? 15 then flag else reg (after 2 rom_sub_equal) 1 in
   exists s',
     emulate_cycle 0 (after 2 rom_sub_equal) = Done s'
     /\ reg s' 0xF = flag
     /\ reg s' 0 = (if false then vy - reg (after 2 rom_sub_equal) 0
                    else reg (after 2 rom_sub_equal) 0 - vy) mod 256
     /\ forall r, 0 <= r < 15 -> r <> 0 -> reg s' r = reg (after 2 rom_sub_equal) r)
  /\ (let flag :=
        if (if true then reg (after 2 rom_subn_equal) 0 <? reg (after 2 rom_subn_equal) 1
            else reg (after 2 rom_subn_equal) 1 <? reg (after 2 rom_subn_equal) 0)
        then 1 else 0 in
      let vy := if 1 =? 15 then flag else reg (after 2 rom_subn_equal) 1 in
      exists s',
        emulate_cycle 0 (after 2 rom_subn_equal) = Done s'
        /\ reg s' 0xF = flag
        /\ reg s' 0 = (if true then vy - reg (after 2 rom_subn_equal) 0
                       else reg (after 2 rom_subn_equal) 0 - vy) mod 256
        /\ forall r, 0 <= r < 15 -> r <> 0 -> reg s' r = reg (after 2 rom_subn_equal) r).
Proof.
  split.
  - apply (X8_sub_subn_flag_and_difference 0 (after 2 rom_sub_equal) false 0 1).
    + apply wf_check_sound. vm_compute. reflexivity.
    + vm_compute. reflexivity.
    + lia.
    + lia.
    + vm_compute. reflexivity.
  - apply (X8_sub_subn_flag_and_difference 0 (after 2 rom_subn_equal) true 0 1).
    + apply wf_check_sound. vm_compute. reflexivity.
    + vm_compute. reflexivity.
    + lia.
    + lia.
    + vm_compute. reflexivity.
Defined.

Section Shifts.

Lemma top_bit_of_byte v : is_u8 v -> Z.shiftr (Z.land v 0x80) 7 = v / 128.
Proof.
  unfold is_u8. intros Hv. rewrite Z.shiftr_land. change (Z.shiftr 0x80 7) with 1.
  rewrite land_1, Z.shiftr_div_pow2 by lia. change (2 ^ 7) with 128.
  apply Z.mod_small. Z.div_mod_to_equations. lia.
Qed.

Lemma land_le_r a b : 0 <= b -> 0 <= Z.land a b <= b.
Proof.
  intros Hb. split; [apply Z.land_nonneg; auto|].
  assert (H : Z.land a b + Z.land (Z.lnot a) b = b).
  { rewrite Z.add_nocarry_lxor.
    - apply Z.bits_inj'. intros n Hn.
      rewrite Z.lxor_spec, !Z.land_spec, Z.lnot_spec by lia.
      destruct (Z.testbit a n), (Z.testbit b n); reflexivity.
    - apply Z.bits_inj'. intros n Hn.
      rewrite !Z.land_spec, Z.lnot_spec, Z.bits_0 by lia.
      destruct (Z.testbit a n), (Z.testbit b n); reflexivity. }
  assert (0 <= Z.land (Z.lnot a) b) by (apply Z.land_nonneg; auto).
  lia.
Qed.

Lemma reg_timers s r : reg (timers s) r = reg s r.
Proof. reflexivity. Qed.

End Shifts.

(** X9: SHR Vx (8xy6) and SHL Vx (8xyE) for x in 0..14.  The bit shifted
    out goes to VF and no bit is lost: after SHR the old Vx is
    [2 * Vx + VF], after SHL twice the old Vx is [256 * VF + Vx].  The
    register Vy that the opcode names is neither read nor written, and no
    other register changes. *)
Theorem X9_shift_moves_one_bit_into_vf rnd s (left : bool) x y :
  wf s -> pc s < CHIP8_MEMORY_SIZE - 1 -> 0 <= x < 15 -> 0 <= y < 16 ->
  fetch s = Some (0x8000 + 256 * x + 16 * y + (if left then 0xE else 0x6)) ->
  exists s',
    emulate_cycle rnd s = Done s'
    /\ (reg s' 0xF = 0 \/ reg s' 0xF = 1)
    /\ (if left then 2 * reg s x = 256 * reg s' 0xF + reg s' x
        else reg s x = 2 * reg s' x + reg s' 0xF)
    /\ forall r, 0 <= r < 15 -> r <> x -> reg s' r = reg s r.
Proof.
  intros Hwf Hpc Hx Hy Hf. rewrite (emulate_cycle_step rnd s _ Hwf Hpc Hf).
  destruct (execute_alu rnd x y (if left then 0xE else 0x6) (set_pc (pc s + 2) s))
    as (He & Ex & Ey & Ek); [lia | lia | destruct left; lia |].
  rewrite He. eexists. split; [reflexivity|].
  set (s0 := set_pc (pc s + 2) s).
  assert (Hwf0 : wf s0) by (apply wf_set_pc; [assumption|]; pose proof (wf_pc s Hwf);
                            unfold is_u16, CHIP8_MEMORY_SIZE in *; lia).
  pose proof (wf_V_len s Hwf) as Hl.
  pose proof (reg_is_u8 s Hwf x ltac:(lia)) as Hv.
  unfold op_alu. rewrite Ek.
  assert (Hvx : forall f, reg (set_reg 0xF f s0) x = reg s x).
  { intros f. unfold reg, set_reg. simpl. apply get_put_ne; lia. }
  destruct left; switch; try lia;
    [unfold op_shl | unfold op_shr]; rewrite Ex;
    change (reg s0) with (reg s); rewrite Hvx;
    match goal with
    | |- context [set_reg x ?v (set_reg 0xF ?f s0)] =>
        destruct (reg_flag_then_x s0 x f v Hwf0 Hx) as (H1 & H2 & H3)
    end;
    rewrite !reg_timers, H1, H2; (split; [|split; [|exact H3]]).
  - rewrite top_bit_of_byte by assumption. unfold is_u8 in Hv.
    Z.div_mod_to_equations. lia.
  - rewrite top_bit_of_byte by assumption. unfold u8.
    rewrite Z.shiftl_mul_pow2 by lia. change (2 ^ 1) with 2. unfold is_u8 in Hv.
    Z.div_mod_to_equations. lia.
  - rewrite land_1. Z.div_mod_to_equations. lia.
  - rewrite land_1, Z.shiftr_div_pow2 by lia. change (2 ^ 1) with 2.
    Z.div_mod_to_equations. lia.
Qed.

Lemma X9_witness :
  (exists s',
     emulate_cycle 0 (after 1 rom_shr) = Done s'
     /\ (reg s' 0xF = 0 \/ reg s' 0xF = 1)
     /\ (if false then 2 * reg (after 1 rom_shr) 0 = 256 * reg s' 0xF + reg s' 0
         else reg (after 1 rom_shr) 0 = 2 * reg s' 0 + reg s' 0xF)
     /\ forall r, 0 <= r < 15 -> r <> 0 -> reg s' r = reg (after 1 rom_shr) r)
  /\ (exists s',
        emulate_cycle 0 (after 1 rom_shl) = Done s'
        /\ (reg s' 0xF = 0 \/ reg s' 0xF = 1)
        /\ (if true then 2 * reg (after 1 rom_shl) 0 = 256 * reg s' 0xF + reg s' 0
            else reg (after 1 rom_shl) 0 = 2 * reg s' 0 + reg s' 0xF)
        /\ forall r, 0 <= r < 15 -> r <> 0 -> reg s' r = reg (after 1 rom_shl) r).
Proof.
  split.
  - apply (X9_shift_moves_one_bit_into_vf 0 (after 1 rom_shr) false 0 1).
    + apply wf_check_sound. vm_compute. reflexivity.
    + vm_compute. reflexivity.
    + lia.
    + lia.
    + vm_compute. reflexivity.
  - apply (X9_shift_moves_one_bit_into_vf 0 (after 1 rom_shl) true 0 1).
    + apply wf_check_sound. vm_compute. reflexivity.
    + vm_compute. reflexivity.
    + lia.
    + lia.
    + vm_compute. reflexivity.
Defined.

(** X10: RND Vx, nn (Cxnn).  Whatever value rand() returns, Vx ends with no
    bit set outside the mask [nn]; so it is at most [nn], and it is 0 when
    the mask is 0.  No other register changes. *)
Theorem X10_rnd_stays_within_mask rnd s x nn :
  wf s -> pc s < CHIP8_MEMORY_SIZE - 1 -> 0 <= x < 16 -> 0 <= nn < 256 ->
  fetch s = Some (0xC000 + 256 * x + nn) ->
  exists s',
    emulate_cycle rnd s = Done s'
    /\ Z.land (reg s' x) nn = reg s' x
    /\ 0 <= reg s' x <= nn
    /\ forall r, 0 <= r < 16 -> r <> x -> reg s' r = reg s r.
Proof.
  intros Hwf Hpc Hx Hn Hf. rewrite (emulate_cycle_step rnd s _ Hwf Hpc Hf).
  set (opcode := 0xC000 + 256 * x + nn).
  assert (Hh : Z.land opcode 0xF000 = 0xC000) by (unfold opcode; decode).
  assert (Ex : op_x opcode = x) by (unfold opcode; decode).
  assert (En : op_nn opcode = nn) by (unfold opcode; decode).
  dispatch Hh. rewrite Ex, En. eexists. split; [reflexivity|].
  pose proof (wf_V_len s Hwf) as Hl. unfold reg, set_reg. simpl.
  rewrite get_put_eq by lia.
  split; [rewrite <- Z.land_assoc, Z.land_diag; reflexivity|].
  split; [apply land_le_r; lia|].
  intros r Hr Hne. apply get_put_ne; lia.
Qed.

Lemma X10_witness :
  exists s',
    emulate_cycle 12345 (boot rom_rnd) = Done s'
    /\ Z.land (reg s' 0) 0x0F = reg s' 0
    /\ 0 <= reg s' 0 <= 0x0F
    /\ forall r, 0 <= r < 16 -> r <> 0 -> reg s' r = reg (boot rom_rnd) r.
Proof.
  apply (X10_rnd_stays_within_mask 12345 (boot rom_rnd) 0 0x0F).
  - apply wf_check_sound. vm_compute. reflexivity.
  - vm_compute. reflexivity.
  - lia.
  - lia.
  - vm_compute. reflexivity.
Defined.

(** * Subroutines *)

Section Subroutines.

Lemma execute_ret rnd s : execute rnd 0x00EE s = op_ret s.
Proof. reflexivity. Qed.

Lemma fetch_bytes s hi lo :
  ld (memory s) (pc s) = Some hi -> ld (memory s) (pc s + 1) = Some lo ->
  fetch s = Some (u16 (Z.lor (Z.shiftl hi 8) lo)).
Proof. intros H1 H2. unfold fetch. rewrite H1, H2. reflexivity. Qed.

End Subroutines.

(** X11: CALL nnn with room on the stack, to a subroutine whose first
    instruction is RET.  The CALL cycle jumps to [nnn] with the stack
    pointer one higher; the RET cycle comes back to the instruction after
    the CALL with the stack pointer as it was before.  Registers, index
    register, memory and framebuffer are as before the CALL. *)
Theorem X11_call_then_ret_resumes_after_call rnd rnd' s nnn :
  wf s -> pc s < CHIP8_MEMORY_SIZE - 1 -> 0 <= nnn < CHIP8_MEMORY_SIZE - 1 ->
  fetch s = Some (0x2000 + nnn) ->
  sp s < CHIP8_STACK_SIZE ->
  ld (memory s) nnn = Some 0x00 -> ld (memory s) (nnn + 1) = Some 0xEE ->
  exists s1 s2,
    emulate_cycle rnd s = Done s1
    /\ pc s1 = nnn /\ sp s1 = sp s + 1
    /\ emulate_cycle rnd' s1 = Done s2
    /\ pc s2 = pc s + 2 /\ sp s2 = sp s
    /\ V s2 = V s /\ I s2 = I s /\ memory s2 = memory s /\ gfx s2 = gfx s.
Proof.
  intros Hwf Hpc Hn Hf Hsp Hhi Hlo.
  pose proof (wf_sp s Hwf) as Hsp'. pose proof (wf_stack_len s Hwf) as Hsl.
  pose proof (wf_pc s Hwf) as Hpc'.
  unfold is_u16, CHIP8_MEMORY_SIZE, CHIP8_STACK_SIZE in *.
  assert (Hn' : 0 <= nnn < 4096) by lia.
  assert (H1 : emulate_cycle rnd s
               = Done (timers (set_pc nnn (set_sp (sp s + 1)
                         (set_stack (put (stack s) (sp s) (pc s + 2))
                            (set_pc (pc s + 2) s)))))).
  { rewrite (emulate_cycle_step rnd s _ Hwf Hpc Hf).
    destruct (execute_call rnd nnn (set_pc (pc s + 2) s) Hn') as [-> En].
    unfold op_call, CHIP8_STACK_SIZE. rewrite En. simpl.
    destruct (Z.leb_spec 16 (sp s)); [lia|].
    rewrite sto_in_range by lia. rewrite u8_small by (unfold is_u8; lia). reflexivity. }
  pose proof (wf_emulate_cycle rnd s Hwf) as Hwf1. unfold holds_after in Hwf1.
  rewrite H1 in Hwf1. simpl state_after in Hwf1.
  eexists. eexists. split; [exact H1|]. split; [reflexivity|]. split; [reflexivity|].
  match goal with |- emulate_cycle rnd' ?t = _ /\ _ => set (s1 := t) in * end.
  assert (Hf1 : fetch s1 = Some 0x00EE).
  { rewrite (fetch_bytes s1 0x00 0xEE); [reflexivity | exact Hhi | exact Hlo]. }
  rewrite (emulate_cycle_step rnd' s1 _ Hwf1 ltac:(unfold CHIP8_MEMORY_SIZE; simpl; lia) Hf1).
  rewrite execute_ret. unfold op_ret.
  change (sp (set_pc (pc s1 + 2) s1)) with (sp s + 1).
  destruct (Z.eqb_spec (sp s + 1) 0); [lia|].
  rewrite u8_small by (unfold is_u8; lia).
  replace (sp s + 1 - 1) with (sp s) by lia.
  cbn [stack set_sp set_pc sp]. change (stack s1) with (put (stack s) (sp s) (pc s + 2)).
  rewrite ld_in_range by (rewrite length_put; lia).
  rewrite get_put_eq by lia.
  split; [reflexivity|]. simpl. repeat split; reflexivity.
Qed.

Lemma X11_witness :
  exists s1 s2,
    emulate_cycle 0 (boot rom_call_ret) = Done s1
    /\ pc s1 = 0x204 /\ sp s1 = sp (boot rom_call_ret) + 1
    /\ emulate_cycle 0 s1 = Done s2
    /\ pc s2 = pc (boot rom_call_ret) + 2 /\ sp s2 = sp (boot rom_call_ret)
    /\ V s2 = V (boot rom_call_ret) /\ I s2 = I (boot rom_call_ret)
    /\ memory s2 = memory (boot rom_call_ret) /\ gfx s2 = gfx (boot rom_call_ret).
Proof.
  apply (X11_call_then_ret_resumes_after_call 0 0 (boot rom_call_ret) 0x204).
  - apply wf_check_sound. vm_compute. reflexivity.
  - vm_compute. reflexivity.
  - unfold CHIP8_MEMORY_SIZE. lia.
  - vm_compute. reflexivity.
  - vm_compute. reflexivity.
  - vm_compute. reflexivity.
  - vm_compute. reflexivity.
Defined.

(** X12: RET (00EE).  On the empty stack the cycle returns early with the
    stack-underflow condition and only the program counter has moved.
    Otherwise it pops: the stack pointer goes down by one and the program
    counter is the address stored there; in a well-formed state that stack
    slot always exists. *)
Theorem X12_ret_pops_or_reports_underflow rnd s :
  wf s -> pc s < CHIP8_MEMORY_SIZE - 1 -> fetch s = Some 0x00EE ->
  emulate_cycle rnd s
  = if sp s =? 0
    then Aborted StackUnderflow (set_pc (pc s + 2) s)
    else Done (timers (set_pc (get (stack s) (sp s - 1)) (set_sp (sp s - 1) s))).
Proof.
  intros Hwf Hpc Hf. rewrite (emulate_cycle_step rnd s _ Hwf Hpc Hf).
  rewrite execute_ret. unfold op_ret. simpl.
  pose proof (wf_sp s Hwf) as Hsp. pose proof (wf_stack_len s Hwf) as Hsl.
  destruct (Z.eqb_spec (sp s) 0); [reflexivity|].
  rewrite u8_small by (unfold is_u8; lia).
  rewrite ld_in_range by lia. reflexivity.
Qed.

Lemma X12_witness :
  emulate_cycle 0 (boot rom_ret_first)
  = if sp (boot rom_ret_first) =? 0
    then Aborted StackUnderflow (set_pc (pc (boot rom_ret_first) + 2) (boot rom_ret_first))
    else Done (timers (set_pc (get (stack (boot rom_ret_first))
                                   (sp (boot rom_ret_first) - 1))
                         (set_sp (sp (boot rom_ret_first) - 1) (boot rom_ret_first)))).
Proof.
  apply (X12_ret_pops_or_reports_underflow 0 (boot rom_ret_first)).
  - apply wf_check_sound. vm_compute. reflexivity.
  - vm_compute. reflexivity.
  - vm_compute. reflexivity.
Defined.

(** * LD B, Vx *)

(** X13: LD B, Vx (Fx33) with [I + 2] inside memory.  The three bytes at
    [I], [I + 1], [I + 2] are decimal digits, each 0..9, and read as
    hundreds, tens and units they give back Vx.  No other byte of memory and
    no register changes. *)
Theorem X13_bcd_digits_recompose rnd s x :
  wf s -> pc s < CHIP8_MEMORY_SIZE - 1 -> 0 <= x < 16 ->
  fetch s = Some (0xF033 + 256 * x) ->
  I s + 2 < CHIP8_MEMORY_SIZE ->
  exists s',
    emulate_cycle rnd s = Done s'
    /\ 0 <= get (memory s') (I s) <= 9
    /\ 0 <= get (memory s') (I s + 1) <= 9
    /\ 0 <= get (memory s') (I s + 2) <= 9
    /\ 100 * get (memory s') (I s) + 10 * get (memory s') (I s + 1)
       + get (memory s') (I s + 2) = reg s x
    /\ (forall a, 0 <= a < CHIP8_MEMORY_SIZE -> ~ I s <= a <= I s + 2 ->
          get (memory s') a = get (memory s) a)
    /\ V s' = V s.
Proof.
  intros Hwf Hpc Hx Hf HI. rewrite (emulate_cycle_step rnd s _ Hwf Hpc Hf).
  set (opcode := 0xF033 + 256 * x).
  assert (Hh : Z.land opcode 0xF000 = 0xF000) by (unfold opcode; decode).
  assert (Hk : Z.land opcode 0xFF = 0x33) by (unfold opcode; decode).
  assert (Ex : op_x opcode = x) by (unfold opcode; decode).
  dispatch Hh. unfold op_misc. rewrite Hk. switch; try lia.
  unfold op_bcd. rewrite Ex. simpl.
  change (reg (set_pc (pc s + 2) s) x) with (reg s x).
  pose proof (wf_I s Hwf) as HI'. pose proof (wf_memory_len s Hwf) as Hml.
  pose proof (reg_is_u8 s Hwf x Hx) as Hv.
  unfold is_u16, is_u8, CHIP8_MEMORY_SIZE in *.
  rewrite sto_in_range by lia.
  rewrite sto_in_range by (rewrite length_put; lia).
  rewrite sto_in_range by (rewrite !length_put; lia).
  eexists. split; [reflexivity|]. simpl.
  rewrite get_put_eq by (rewrite !length_put; lia).
  rewrite (get_put_ne _ (I s + 2) (I s + 1)) by lia.
  rewrite get_put_eq by (rewrite !length_put; lia).
  rewrite (get_put_ne _ (I s + 2) (I s)), (get_put_ne _ (I s + 1) (I s)) by lia.
  rewrite get_put_eq by lia.
  repeat split; try (Z.div_mod_to_equations; lia).
  intros a Ha Hout. rewrite !get_put_ne by lia. reflexivity.
Qed.

Lemma X13_witness :
  exists s',
    emulate_cycle 0 (after 2 rom_bcd) = Done s'
    /\ 0 <= get (memory s') (I (after 2 rom_bcd)) <= 9
    /\ 0 <= get (memory s') (I (after 2 rom_bcd) + 1) <= 9
    /\ 0 <= get (memory s') (I (after 2 rom_bcd) + 2) <= 9
    /\ 100 * get (memory s') (I (after 2 rom_bcd))
       + 10 * get (memory s') (I (after 2 rom_bcd) + 1)
       + get (memory s') (I (after 2 rom_bcd) + 2) = reg (after 2 rom_bcd) 0
    /\ (forall a, 0 <= a < CHIP8_MEMORY_SIZE ->
          ~ I (after 2 rom_bcd) <= a <= I (after 2 rom_bcd) + 2 ->
          get (memory s') a = get (memory (after 2 rom_bcd)) a)
    /\ V s' = V (after 2 rom_bcd).
Proof.
  apply (X13_bcd_digits_recompose 0 (after 2 rom_bcd) 0).
  - apply wf_check_sound. vm_compute. reflexivity.
  - vm_compute. reflexivity.
  - lia.
  - vm_compute. reflexivity.
  - vm_compute. reflexivity.
Defined.

(** * Saving and restoring registers *)

Lemma Done_inj a b : Done a = Done b -> a = b.
Proof. intros [= ->]. reflexivity. Qed.

(** X14: registers saved with LD [I], Vx come back with LD Vx, [I].  Let
    the dump run in [s] with [I + x] inside memory, and let [s2] be any
    later state with the same [I] and the memory the dump left, whatever its
    registers hold; the load in [s2] gives V0..Vx the values they had in
    [s]. *)
Theorem X14_dump_then_load_restores_registers rnd rnd' s x :
  wf s -> pc s < CHIP8_MEMORY_SIZE - 1 -> 0 <= x < 16 ->
  fetch s = Some (bulk_opcode Dump x) ->
  I s + x < CHIP8_MEMORY_SIZE ->
  exists s1,
    emulate_cycle rnd s = Done s1
    /\ forall s2,
         wf s2 -> pc s2 < CHIP8_MEMORY_SIZE - 1 ->
         fetch s2 = Some (bulk_opcode Load x) ->
         I s2 = I s -> memory s2 = memory s1 ->
         exists s3,
           emulate_cycle rnd' s2 = Done s3
           /\ forall k, 0 <= k <= x -> reg s3 k = reg s k.
Proof.
  intros Hwf Hpc Hx Hf HI.
  pose proof (wf_I s Hwf) as HI'. pose proof (wf_memory_len s Hwf) as Hml.
  unfold is_u16, CHIP8_MEMORY_SIZE in *.
  rewrite (emulate_cycle_step rnd s _ Hwf Hpc Hf).
  set (s0 := set_pc (pc s + 2) s).
  destruct (execute_bulk rnd Dump x s0 Hx) as [-> Ex].
  unfold op_dump. rewrite Ex. change (I s0) with (I s). unfold CHIP8_MEMORY_SIZE.
  destruct (Z.leb_spec 4096 (I s + x)); [lia|].
  destruct (dump_regs_spec (Z.to_nat (x + 1)) 0 s0) as (m' & -> & Hm');
    [lia | simpl; lia | simpl; lia |].
  eexists. split; [reflexivity|].
  intros s2 Hwf2 Hpc2 Hf2 HI2 Hm2. simpl in Hm2.
  pose proof (wf_memory_len s2 Hwf2) as Hml2. pose proof (wf_V_len s2 Hwf2) as Hvl2.
  rewrite (emulate_cycle_step rnd' s2 _ Hwf2 Hpc2 Hf2).
  set (t0 := set_pc (pc s2 + 2) s2).
  destruct (execute_bulk rnd' Load x t0 Hx) as [-> Ex'].
  unfold op_load. rewrite Ex'. change (I t0) with (I s2). rewrite HI2.
  unfold CHIP8_MEMORY_SIZE. destruct (Z.leb_spec 4096 (I s + x)); [lia|].
  destruct (load_regs_spec (Z.to_nat (x + 1)) 0 t0) as (v' & -> & _ & Hv');
    [lia | simpl; lia | simpl; lia | simpl; lia |].
  eexists. split; [reflexivity|].
  intros k Hk. unfold reg at 1. simpl. rewrite (Hv' k) by lia.
  destruct (decide (0 <= k < 0 + Z.of_nat (Z.to_nat (x + 1)))); [|lia].
  change (memory t0) with (memory s2). change (I t0) with (I s2).
  rewrite Hm2, HI2, (Hm' (I s + k)) by lia.
  change (I s0) with (I s). change (reg s0) with (reg s).
  destruct (decide (I s + 0 <= I s + k < I s + 0 + Z.of_nat (Z.to_nat (x + 1)))); [|lia].
  f_equal. lia.
Qed.

Lemma X14_witness :
  exists s3,
    emulate_cycle 0 (after 6 rom_save_restore) = Done s3
    /\ forall k, 0 <= k <= 1 -> reg s3 k = reg (after 3 rom_save_restore) k.
Proof.
  destruct (X14_dump_then_load_restores_registers 0 0 (after 3 rom_save_restore) 1)
    as (s1 & H1 & H2).
  - apply wf_check_sound. vm_compute. reflexivity.
  - vm_compute. reflexivity.
  - lia.
  - vm_compute. reflexivity.
  - vm_compute. reflexivity.
  - apply (H2 (after 6 rom_save_restore)).
    + apply wf_check_sound. vm_compute. reflexivity.
    + vm_compute. reflexivity.
    + vm_compute. reflexivity.
    + vm_compute. reflexivity.
    + assert (E : Done s1 = Done (after 4 rom_save_restore))
        by (rewrite <- H1; vm_compute; reflexivity).
      apply Done_inj in E. rewrite E. vm_compute. reflexivity.
Defined.

(** * Keys *)

(** X15: a key set through set_key is what SKP and SKNP see.  With
    [Vx = k < 16] and key [k] set to [value], SKP Vx (Ex9E) skips the next
    instruction exactly when [value] is not 0 and SKNP Vx (ExA1) exactly
    when it is 0; the cycle changes nothing else but the timers. *)
Theorem X15_set_key_decides_skp_sknp rnd s (np : bool) x k value :
  wf s -> pc s < CHIP8_MEMORY_SIZE - 1 -> 0 <= x < 16 ->
  fetch s = Some (0xE000 + 256 * x + (if np then 0xA1 else 0x9E)) ->
  reg s x = k -> 0 <= k < CHIP8_KEYBOARD_SIZE ->
  emulate_cycle rnd (set_key k value s)
  = Done (timers (set_pc (pc s + (if xorb np (negb (value =? 0)) then 4 else 2))
                         (set_key k value s))).
Proof.
  intros Hwf Hpc Hx Hf Hr Hk.
  pose proof (wf_pc s Hwf) as Hpc'. pose proof (wf_key_len s Hwf) as Hkl.
  unfold is_u16, CHIP8_MEMORY_SIZE, CHIP8_KEYBOARD_SIZE in *.
  assert (Hs : set_key k value s = set_keys (put (key s) k value) s).
  { unfold set_key, CHIP8_KEYBOARD_SIZE. destruct (Z.ltb_spec k 16); [reflexivity | lia]. }
  rewrite Hs. set (s' := set_keys (put (key s) k value) s).
  assert (Hc : emulate_cycle rnd s'
               = match execute rnd (0xE000 + 256 * x + (if np then 0xA1 else 0x9E))
                         (set_pc (pc s + 2) s') with
                 | Done s1 => Done (timers s1)
                 | Aborted c s1 => Aborted c s1
                 | Undefined => Undefined
                 end).
  { unfold emulate_cycle. change (fetch s') with (fetch s). rewrite Hf.
    change (pc s') with (pc s). unfold CHIP8_MEMORY_SIZE.
    destruct (Z.leb_spec (4096 - 1) (pc s)); [lia|].
    rewrite u16_small by (unfold is_u16; lia). reflexivity. }
  rewrite Hc. clear Hc.
  set (opcode := 0xE000 + 256 * x + (if np then 0xA1 else 0x9E)).
  assert (Hh : Z.land opcode 0xF000 = 0xE000) by (unfold opcode; destruct np; decode).
  assert (Hlo : Z.land opcode 0xFF = if np then 0xA1 else 0x9E)
    by (unfold opcode; destruct np; decode).
  assert (Ex : op_x opcode = x) by (unfold opcode; destruct np; decode).
  unfold execute. rewrite Hh, Hlo.
  assert (Hld : ld (key (set_pc (pc s + 2) s')) (reg (set_pc (pc s + 2) s') x) = Some value).
  { change (reg (set_pc (pc s + 2) s') x) with (reg s x). rewrite Hr.
    change (key (set_pc (pc s + 2) s')) with (put (key s) k value).
    rewrite ld_in_range by (rewrite length_put; lia). rewrite get_put_eq by lia.
    reflexivity. }
  destruct np; switch; try lia;
    [unfold op_sknp | unfold op_skp]; rewrite Ex, Hld;
    destruct (value =? 0); unfold skip_if; simpl; try reflexivity;
    rewrite u16_small by (unfold is_u16; lia);
    replace (pc s + 2 + 2) with (pc s + 4) by lia; reflexivity.
Qed.

Lemma X15_witness :
  emulate_cycle 0 (set_key 5 1 (after 1 rom_skp))
  = Done (timers (set_pc (pc (after 1 rom_skp)
                          + (if xorb false (negb (1 =? 0)) then 4 else 2))
                         (set_key 5 1 (after 1 rom_skp))))
  /\ emulate_cycle 0 (set_key 5 1 (after 1 rom_sknp))
     = Done (timers (set_pc (pc (after 1 rom_sknp)
                             + (if xorb true (negb (1 =? 0)) then 4 else 2))
                            (set_key 5 1 (after 1 rom_sknp)))).
Proof.
  split.
  - apply (X15_set_key_decides_skp_sknp 0 (after 1 rom_skp) false 2 5 1).
    + apply wf_check_sound. vm_compute. reflexivity.
    + vm_compute. reflexivity.
    + lia.
    + vm_compute. reflexivity.
    + vm_compute. reflexivity.
    + unfold CHIP8_KEYBOARD_SIZE. lia.
  - apply (X15_set_key_decides_skp_sknp 0 (after 1 rom_sknp) true 2 5 1).
    + apply wf_check_sound. vm_compute. reflexivity.
    + vm_compute. reflexivity.
    + lia.
    + vm_compute. reflexivity.
    + vm_compute. reflexivity.
    + unfold CHIP8_KEYBOARD_SIZE. lia.
Defined.

(** * Loading a timer *)

(** X16: LD DT, Vx (Fx15) and LD ST, Vx (Fx18).  The timer is counted down
    at the end of the very cycle that loads it, so it is left at [Vx - 1]
    (at 0 for [Vx = 0]) while the other timer is counted down from its old
    value.  After LD ST, Vx the sound is active exactly when [Vx >= 2]:
    loading 1 gives no sound at all. *)
Theorem X16_loaded_timer_is_counted_at_once rnd s (st : bool) x :
  wf s -> pc s < CHIP8_MEMORY_SIZE - 1 -> 0 <= x < 16 ->
  fetch s = Some (0xF000 + 256 * x + (if st then 0x18 else 0x15)) ->
  exists s',
    emulate_cycle rnd s = Done s'
    /\ (if st then soundTimer s' else delayTimer s') = Z.max 0 (reg s x - 1)
    /\ (if st then delayTimer s' else soundTimer s')
       = Z.max 0 ((if st then delayTimer s else soundTimer s) - 1)
    /\ (st = true -> play_sound s' = (2 <=? reg s x)).
Proof.
  intros Hwf Hpc Hx Hf. rewrite (emulate_cycle_step rnd s _ Hwf Hpc Hf).
  set (opcode := 0xF000 + 256 * x + (if st then 0x18 else 0x15)).
  assert (Hh : Z.land opcode 0xF000 = 0xF000) by (unfold opcode; destruct st; decode).
  assert (Hlo : Z.land opcode 0xFF = if st then 0x18 else 0x15)
    by (unfold opcode; destruct st; decode).
  assert (Ex : op_x opcode = x) by (unfold opcode; destruct st; decode).
  pose proof (reg_is_u8 s Hwf x Hx) as Hv.
  pose proof (wf_delayTimer s Hwf) as Hd. pose proof (wf_soundTimer s Hwf) as Hs.
  dispatch Hh. unfold op_misc. rewrite Hlo, Ex.
  change (reg (set_pc (pc s + 2) s) x) with (reg s x).
  assert (Hmax : forall t, is_u8 t -> tick t = Z.max 0 (t - 1)).
  { intros t Ht. rewrite tick_eq by assumption. unfold is_u8 in Ht.
    destruct (Z.ltb_spec 0 t); lia. }
  destruct st; switch; try lia; (eexists; split; [reflexivity|]);
    unfold play_sound; simpl; rewrite !Hmax by assumption; unfold is_u8 in *;
    (split; [reflexivity|]); (split; [reflexivity|]); intros; try discriminate;
    destruct (Z.ltb_spec 0 (Z.max 0 (reg s x - 1))), (Z.leb_spec 2 (reg s x));
    try reflexivity; exfalso; lia.
Qed.

Lemma X16_witness :
  (exists s',
     emulate_cycle 0 (after 1 rom_ld_st_one) = Done s'
     /\ (if true then soundTimer s' else delayTimer s')
        = Z.max 0 (reg (after 1 rom_ld_st_one) 0 - 1)
     /\ (if true then delayTimer s' else soundTimer s')
        = Z.max 0 ((if true then delayTimer (after 1 rom_ld_st_one)
                    else soundTimer (after 1 rom_ld_st_one)) - 1)
     /\ (true = true -> play_sound s' = (2 <=? reg (after 1 rom_ld_st_one) 0)))
  /\ (exists s',
        emulate_cycle 0 (after 1 rom_ld_dt_three) = Done s'
        /\ (if false then soundTimer s' else delayTimer s')
           = Z.max 0 (reg (after 1 rom_ld_dt_three) 0 - 1)
        /\ (if false then delayTimer s' else soundTimer s')
           = Z.max 0 ((if false then delayTimer (after 1 rom_ld_dt_three)
                       else soundTimer (after 1 rom_ld_dt_three)) - 1)
        /\ (false = true -> play_sound s' = (2 <=? reg (after 1 rom_ld_dt_three) 0))).
Proof.
  split.
  - apply (X16_loaded_timer_is_counted_at_once 0 (after 1 rom_ld_st_one) true 0).
    + apply wf_check_sound. vm_compute. reflexivity.
    + vm_compute. reflexivity.
    + lia.
    + vm_compute. reflexivity.
  - apply (X16_loaded_timer_is_counted_at_once 0 (after 1 rom_ld_dt_three) false 0).
    + apply wf_check_sound. vm_compute. reflexivity.
    + vm_compute. reflexivity.
    + lia.
    + vm_compute. reflexivity.
Defined.

(** * The end of memory *)

(** X18: once the program counter is at 4095 or beyond, emulate_cycle
    returns at its first test: however many cycles are run, the state stays
    exactly as it is - program counter, registers and both timers. *)
Theorem X18_pc_at_end_of_memory_freezes_machine rnds s :
  CHIP8_MEMORY_SIZE - 1 <= pc s -> run rnds s = Some s.
Proof.
  intros Hpc. induction rnds as [|rnd rest IH]; [reflexivity|].
  cbn [run]. unfold emulate_cycle.
  destruct (Z.leb_spec (CHIP8_MEMORY_SIZE - 1) (pc s)); [|lia].
  simpl. exact IH.
Qed.

Lemma X18_witness :
  run [0; 0; 0] (after 1 rom_jp_fff) = Some (after 1 rom_jp_fff).
Proof.
  apply (X18_pc_at_end_of_memory_freezes_machine [0; 0; 0] (after 1 rom_jp_fff)).
  vm_compute. discriminate.
Defined.

(** * The redraw flag *)

Section RedrawFlag.

Lemma high_digit opcode :
  is_u16 opcode -> Z.land opcode 0xF000 = 4096 * (opcode / 4096) /\ 0 <= opcode / 4096 < 16.
Proof.
  unfold is_u16. intros Hop.
  assert (Hh : 0 <= opcode / 4096 < 16) by (Z.div_mod_to_equations; lia).
  split; [|assumption]. rewrite land_0xF000. f_equal. apply Z.mod_small. assumption.
Qed.

Lemma flag_op_misc opcode s :
  holds_after (fun s' => draw_flag s' = draw_flag s) (op_misc opcode s).
Proof.
  unfold op_misc. switch; unfold holds_after; try reflexivity.
  - simpl. unfold op_ld_vx_k. destruct (first_key _ _ _); reflexivity.
  - simpl. unfold op_add_i. simpl. destruct (_ <=? _); reflexivity.
  - simpl. unfold op_ld_f. destruct (_ <=? _); reflexivity.
  - unfold op_bcd. repeat (destruct (sto _ _ _); [|exact Logic.I]). reflexivity.
  - unfold op_dump. destruct (_ <=? _); [reflexivity|].
    destruct (dump_regs _ _ _) as [s'|] eqn:E; [|exact Logic.I].
    apply dump_regs_frame in E. rewrite E. reflexivity.
  - unfold op_load. destruct (_ <=? _); [reflexivity|].
    destruct (load_regs _ _ _) as [s'|] eqn:E; [|exact Logic.I].
    apply load_regs_frame in E. rewrite E. reflexivity.
Qed.

Lemma flag_execute rnd opcode s :
  is_u16 opcode ->
  holds_after (fun s' => draw_flag s' = draw_flag s || (opcode / 4096 =? 0xD))
              (execute rnd opcode s).
Proof.
  intros Hop. destruct (high_digit opcode Hop) as [Ehi Hh].
  destruct (Z.eqb_spec (opcode / 4096) 0xD) as [E|E].
  - rewrite E in Ehi. dispatch Ehi. unfold holds_after, draw_sprite.
    destruct (draw_rows _ _ _ _ _); [|exact Logic.I]. simpl. symmetry. apply orb_true_r.
  - pose proof (flag_op_misc opcode s) as Hmisc.
    unfold holds_after in *. rewrite orb_false_r.
    unfold execute, op_ret, op_call, op_skp, op_sknp, op_alu, skip_if. switch; try lia;
      try exact Hmisc; try reflexivity;
      repeat match goal with
             | |- context [match ld ?a ?i with _ => _ end] => destruct (ld a i)
             | |- context [match sto ?a ?i ?v with _ => _ end] => destruct (sto a i v)
             | |- context [if ?c then _ else _] => destruct c
             end;
      try reflexivity; try exact Logic.I.
Qed.

End RedrawFlag.

(** X17: across one cycle the redraw flag is raised by DRW (Dxyn) and by
    nothing else, and no instruction lowers it: whenever the cycle leaves a
    state, its flag is the old flag or-ed with "the opcode is a DRW". *)
Theorem X17_only_drw_raises_redraw_flag rnd s opcode :
  wf s -> pc s < CHIP8_MEMORY_SIZE - 1 -> fetch s = Some opcode ->
  match state_after (emulate_cycle rnd s) with
  | Some s' => is_screen_ready_to_redraw s'
               = is_screen_ready_to_redraw s || (opcode / 4096 =? 0xD)
  | None => emulate_cycle rnd s = Undefined
  end.
Proof.
  intros Hwf Hpc Hf. rewrite (emulate_cycle_step rnd s _ Hwf Hpc Hf).
  pose proof (flag_execute rnd opcode (set_pc (pc s + 2) s) (fetch_is_u16 s _ Hf)) as H.
  unfold holds_after in H.
  destruct (execute rnd opcode (set_pc (pc s + 2) s)); simpl in *;
    [exact H | exact H | reflexivity].
Qed.

Lemma X17_witness :
  match state_after (emulate_cycle 0 (after 1 rom_draw)) with
  | Some s' => is_screen_ready_to_redraw s'
               = is_screen_ready_to_redraw (after 1 rom_draw) || (0xD015 / 4096 =? 0xD)
  | None => emulate_cycle 0 (after 1 rom_draw) = Undefined
  end.
Proof.
  apply (X17_only_drw_raises_redraw_flag 0 (after 1 rom_draw) 0xD015).
  - apply wf_check_sound. vm_compute. reflexivity.
  - vm_compute. reflexivity.
  - vm_compute. reflexivity.
Defined.

(** * Which cycles index an array out of bounds *)

Section Safety.

Lemma draw_rows_None : forall n row x y s,
  draw_rows n row x y s = None <->
  exists r, row <= r < row + Z.of_nat n /\ y + r < 32
            /\ ~ 0 <= I s + r < Z.of_nat (length (memory s)).
Proof.
  induction n as [|n IH]; intros row x y s; cbn [draw_rows].
  - split; [discriminate|]. intros (r & Hr & _). lia.
  - destruct (Z.leb_spec 32 (y + row)) as [Hge|Hlt].
    { split; [discriminate|]. intros (r & Hr & Hy & _). lia. }
    destruct (decide (0 <= I s + row < Z.of_nat (length (memory s)))) as [Hin|Hout].
    + rewrite ld_in_range by assumption. rewrite IH.
      destruct (draw_frame_draw_cols 8 0 (get (memory s) (I s + row)) x y row s)
        as [_ -> -> _ _ _ _ _ _].
      split; intros (r & Hr & Hy & Hm).
      * exists r. split; [lia|]. split; [lia | assumption].
      * exists r. assert (r <> row) by (intros ->; contradiction).
        split; [lia|]. split; [lia | assumption].
    + rewrite ld_out_of_range by assumption. split; [intros _|reflexivity].
      exists row. split; [lia|]. split; [lia | assumption].
Qed.

Lemma draw_sprite_Undefined x_coord y_coord n s :
  wf s -> 0 <= n ->
  draw_sprite x_coord y_coord n s = Undefined <->
  0 < n /\ CHIP8_MEMORY_SIZE <= I s + Z.min n (32 - y_coord mod 32) - 1.
Proof.
  intros Hwf Hn. unfold draw_sprite.
  pose proof (wf_I s Hwf) as HI. pose proof (wf_memory_len s Hwf) as Hml.
  pose proof (Z.mod_pos_bound y_coord 32 ltac:(lia)) as Hy.
  unfold is_u16, CHIP8_MEMORY_SIZE in *.
  destruct (draw_rows _ _ _ _ _) as [s1|] eqn:E.
  - split; [discriminate|]. intros [Hpos Hout]. exfalso.
    assert (H : draw_rows (Z.to_nat n) 0 (x_coord mod 64) (y_coord mod 32) (set_reg 0xF 0 s)
                = None); [|congruence].
    apply draw_rows_None. exists (Z.min n (32 - y_coord mod 32) - 1).
    simpl. repeat split; lia.
  - split; [intros _|reflexivity].
    apply draw_rows_None in E as (r & Hr & Hyr & Hm). simpl in Hm. lia.
Qed.

Lemma op_bcd_Undefined opcode s :
  wf s -> op_bcd opcode s = Undefined <-> CHIP8_MEMORY_SIZE <= I s + 2.
Proof.
  intros Hwf. unfold op_bcd.
  pose proof (wf_I s Hwf) as HI. pose proof (wf_memory_len s Hwf) as Hml.
  unfold is_u16, CHIP8_MEMORY_SIZE in *.
  destruct (decide (I s < 4096)) as [H0|H0];
    [rewrite sto_in_range by lia | rewrite sto_out_of_range by lia; split; [lia | reflexivity]].
  destruct (decide (I s + 1 < 4096)) as [H1|H1];
    [rewrite sto_in_range by (rewrite length_put; lia)
    | rewrite sto_out_of_range by (rewrite length_put; lia); split; [lia | reflexivity]].
  destruct (decide (I s + 2 < 4096)) as [H2|H2];
    [rewrite sto_in_range by (rewrite !length_put; lia)
    | rewrite sto_out_of_range by (rewrite !length_put; lia); split; [lia | reflexivity]].
  split; [discriminate | lia].
Qed.

Lemma op_dump_defined opcode s : wf s -> op_dump opcode s <> Undefined.
Proof.
  intros Hwf. unfold op_dump.
  pose proof (wf_I s Hwf) as HI. pose proof (wf_memory_len s Hwf) as Hml.
  pose proof (op_x_range opcode) as Hx. unfold is_u16, CHIP8_MEMORY_SIZE in *.
  destruct (Z.leb_spec 4096 (I s + op_x opcode)); [discriminate|].
  destruct (dump_regs_spec (Z.to_nat (op_x opcode + 1)) 0 s) as (m' & -> & _);
    [lia | lia | lia | discriminate].
Qed.

Lemma op_load_defined opcode s : wf s -> op_load opcode s <> Undefined.
Proof.
  intros Hwf. unfold op_load.
  pose proof (wf_I s Hwf) as HI. pose proof (wf_memory_len s Hwf) as Hml.
  pose proof (wf_V_len s Hwf) as Hvl.
  pose proof (op_x_range opcode) as Hx. unfold is_u16, CHIP8_MEMORY_SIZE in *.
  destruct (Z.leb_spec 4096 (I s + op_x opcode)); [discriminate|].
  destruct (load_regs_spec (Z.to_nat (op_x opcode + 1)) 0 s) as (v' & -> & _);
    [lia | lia | lia | lia | discriminate].
Qed.

Lemma op_ret_defined s : wf s -> op_ret s <> Undefined.
Proof.
  intros Hwf. unfold op_ret.
  pose proof (wf_sp s Hwf) as Hsp. pose proof (wf_stack_len s Hwf) as Hsl.
  destruct (Z.eqb_spec (sp s) 0); [discriminate|].
  rewrite u8_small by (unfold is_u8; lia). simpl.
  rewrite ld_in_range by lia. discriminate.
Qed.

Lemma op_call_defined opcode s : wf s -> op_call opcode s <> Undefined.
Proof.
  intros Hwf. unfold op_call, CHIP8_STACK_SIZE.
  pose proof (wf_sp s Hwf) as Hsp. pose proof (wf_stack_len s Hwf) as Hsl.
  destruct (Z.leb_spec 16 (sp s)); [discriminate|].
  rewrite sto_in_range by lia. discriminate.
Qed.

Lemma execute_Undefined rnd opcode s :
  wf s -> is_u16 opcode ->
  execute rnd opcode s = Undefined <-> unguarded opcode s = true.
Proof.
  intros Hwf Hop. destruct (high_digit opcode Hop) as [Ehi Hh].
  pose proof (op_x_eq opcode) as Ex. pose proof (op_y_eq opcode) as Ey.
  pose proof (land_0xFF opcode) as Elo. pose proof (land_0xF opcode) as En.
  pose proof (op_ret_defined s Hwf) as Hret.
  pose proof (op_call_defined opcode s Hwf) as Hcall.
  unfold unguarded, CHIP8_KEYBOARD_SIZE.
  destruct (Z.eqb_spec (opcode / 4096) 0xF) as [E|NF].
  { rewrite E in *. dispatch Ehi. cbn [Z.eqb Pos.eqb andb orb]. rewrite !orb_false_r.
    unfold op_misc. rewrite Elo.
    pose proof (op_dump_defined opcode s Hwf) as Hdump.
    pose proof (op_load_defined opcode s Hwf) as Hload.
    switch; destruct (Z.eqb_spec (opcode mod 256) 0x33) as [E33|E33]; try lia;
      cbn [andb];
      try (split; [discriminate | discriminate]);
      try (split; [contradiction | discriminate]).
    rewrite op_bcd_Undefined by assumption. symmetry. apply Z.leb_le. }
  destruct (Z.eqb_spec (opcode / 4096) 0xD) as [E|ND].
  { rewrite E in *. dispatch Ehi. cbn [Z.eqb Pos.eqb andb orb]. rewrite !orb_false_r.
    rewrite En, Ey.
    rewrite draw_sprite_Undefined by (assumption || apply Z.mod_pos_bound; lia).
    rewrite andb_true_iff, Z.ltb_lt, Z.leb_le. reflexivity. }
  destruct (Z.eqb_spec (opcode / 4096) 0xE) as [E|NE].
  { rewrite E in *. cbn [andb orb].
    destruct (skp_sknp_defined_iff opcode s Hwf) as [Hskp Hsknp]. rewrite Ex in *.
    unfold execute. rewrite Ehi, Elo.
    switch; try lia; cbn [andb orb].
    - rewrite Z.leb_le. split.
      + intros H. destruct (Z.le_gt_cases 16 (reg s ((opcode / 256) mod 16))) as [|Hlt];
          [assumption|]. exfalso. apply (proj2 Hskp); [lia | exact H].
      + intros Hle. destruct (op_skp opcode s) eqn:Eo; [exfalso | exfalso | reflexivity];
          assert (reg s ((opcode / 256) mod 16) < 16)
            by (apply (proj1 Hskp); discriminate); lia.
    - rewrite Z.leb_le. split.
      + intros H. destruct (Z.le_gt_cases 16 (reg s ((opcode / 256) mod 16))) as [|Hlt];
          [assumption|]. exfalso. apply (proj2 Hsknp); [lia | exact H].
      + intros Hle. destruct (op_sknp opcode s) eqn:Eo; [exfalso | exfalso | reflexivity];
          assert (reg s ((opcode / 256) mod 16) < 16)
            by (apply (proj1 Hsknp); discriminate); lia.
    - split; discriminate. }
  cbn [andb orb]. split; [|discriminate].
  unfold execute. switch; try lia; try discriminate; try contradiction.
Qed.

End Safety.

(** X19: which cycles run into an out-of-bounds array index.  In a
    well-formed state whose fetch succeeds, emulate_cycle indexes an array
    outside its bounds exactly in the three unguarded cases: LD B, Vx with
    [I + 2 >= 4096], DRW whose last row read lies at 4096 or beyond, SKP or
    SKNP with [Vx >= 16].  Every other cycle - the fetch itself, RET, CALL,
    LD [I], Vx, LD Vx, [I] and the rest - stays inside its arrays. *)
Theorem X19_out_of_bounds_only_in_bcd_drw_skp rnd s opcode :
  wf s -> pc s < CHIP8_MEMORY_SIZE - 1 -> fetch s = Some opcode ->
  emulate_cycle rnd s = Undefined <-> unguarded opcode s = true.
Proof.
  intros Hwf Hpc Hf. rewrite (emulate_cycle_step rnd s _ Hwf Hpc Hf).
  set (s0 := set_pc (pc s + 2) s).
  assert (Hwf0 : wf s0) by (apply wf_set_pc; [assumption|]; pose proof (wf_pc s Hwf);
                            unfold is_u16, CHIP8_MEMORY_SIZE in *; lia).
  change (unguarded opcode s) with (unguarded opcode s0).
  rewrite <- (execute_Undefined rnd opcode s0 Hwf0 (fetch_is_u16 s _ Hf)).
  destruct (execute rnd opcode s0); split; intros H; try discriminate H; reflexivity.
Qed.

Lemma X19_witness :
  emulate_cycle 0 (after 1 rom_bcd_at_ffe) = Undefined
  <-> unguarded 0xF033 (after 1 rom_bcd_at_ffe) = true.
Proof.
  apply (X19_out_of_bounds_only_in_bcd_drw_skp 0 (after 1 rom_bcd_at_ffe) 0xF033).
  - apply wf_check_sound. vm_compute. reflexivity.
  - vm_compute. reflexivity.
  - vm_compute. reflexivity.
Defined.

(** * What one draw does *)

Section OneDraw.

Lemma elem_of_row_cells_rev b x y row k : forall n col,
  col <= k < col + Z.of_nat n ->
  (pixel_index_of x y row k, sprite_pixel_of b k) ∈ row_cells n col b x y row.
Proof.
  induction n as [|n IH]; intros col Hk; [lia|]. cbn [row_cells].
  destruct (decide (k = col)) as [->|Hne]; [apply list_elem_of_here|].
  apply list_elem_of_further, IH. lia.
Qed.

Lemma elem_of_sprite_cells_byte c x y mem i : forall n row,
  c ∈ sprite_cells n row x y mem i ->
  exists r k, row <= r < row + Z.of_nat n /\ y + r < 32 /\ 0 <= k < 8
              /\ c = (pixel_index_of x y r k, sprite_pixel_of (get mem (i + r)) k).
Proof.
  induction n as [|n IH]; intros row; cbn [sprite_cells].
  - intros H. inversion H.
  - destruct (Z.leb_spec 32 (y + row)) as [Hge|Hlt]; [intros H; inversion H|].
    destruct (ld mem (i + row)) as [b|] eqn:E; [|intros H; inversion H].
    apply ld_Some in E as [_ <-].
    rewrite elem_of_app. intros [H|H].
    + apply elem_of_row_cells in H as (k & Hk & ->).
      exists row, k. repeat split; lia.
    + apply IH in H as (r & k & Hr & Hy & Hk & ->).
      exists r, k. repeat split; lia.
Qed.

Lemma elem_of_sprite_cells_rev x y mem i r k : forall n row,
  (forall r', row <= r' < row + Z.of_nat n -> y + r' < 32 ->
     0 <= i + r' < Z.of_nat (length mem)) ->
  row <= r < row + Z.of_nat n -> y + r < 32 -> 0 <= k < 8 ->
  (pixel_index_of x y r k, sprite_pixel_of (get mem (i + r)) k)
  ∈ sprite_cells n row x y mem i.
Proof.
  induction n as [|n IH]; intros row Hmem Hr Hy Hk; [lia|]. cbn [sprite_cells].
  destruct (Z.leb_spec 32 (y + row)) as [Hge|Hlt]; [lia|].
  rewrite ld_in_range by (apply Hmem; lia).
  rewrite elem_of_app. destruct (decide (r = row)) as [->|Hne].
  - left. apply elem_of_row_cells_rev. lia.
  - right. apply IH; try lia. intros r' Hr' Hy'. apply Hmem; lia.
Qed.

Lemma get_screen_pixel_in_range px py s :
  0 <= px < 64 -> 0 <= py < 32 ->
  get_screen_pixel px py s = (get (gfx s) (py * 64 + px), false).
Proof.
  intros Hx Hy. unfold get_screen_pixel, CHIP8_SCREEN_WIDTH, CHIP8_SCREEN_HEIGHT.
  destruct (Z.ltb_spec px 0), (Z.leb_spec 64 px), (Z.ltb_spec py 0), (Z.leb_spec 32 py);
    try lia. reflexivity.
Qed.

(** The framebuffer and VF after one draw, in terms of its pixels. *)
Lemma draw_sprite_cells x_coord y_coord height s :
  wf s ->
  (forall row, 0 <= row < height -> y_coord mod 32 + row < 32 ->
     I s + row < CHIP8_MEMORY_SIZE) ->
  let cells := sprite_cells (Z.to_nat height) 0 (x_coord mod 64) (y_coord mod 32)
                 (memory s) (I s) in
  exists s1,
    draw_sprite x_coord y_coord height s = Done s1
    /\ NoDup (fst <$> cells)
    /\ (forall p, 0 <= p < 2048 ->
          get (gfx s1) p = Z.lxor (get (gfx s) p) (xacc cells p))
    /\ reg s1 0xF = (if hit cells (gfx s) then 1 else 0)
    /\ (forall r, 0 <= r < 15 -> reg s1 r = reg s r).
Proof.
  intros Hwf Hrows cells.
  rewrite (draw_sprite_blit x_coord y_coord height s Hwf Hrows). fold cells.
  eexists. split; [reflexivity|].
  pose proof (wf_gfx_len s Hwf) as Hgl. pose proof (wf_V_len s Hwf) as Hvl.
  assert (Hnd : NoDup (fst <$> cells)).
  { apply NoDup_sprite_cells; [|lia]. apply Z.mod_pos_bound. lia. }
  assert (Hrange : Forall (fun c => 0 <= fst c < Z.of_nat (length (gfx (set_reg 0xF 0 s))))
                     cells).
  { eapply Forall_impl; [apply sprite_cells_range|].
    intros c [Hc _]. simpl in *. lia. }
  split; [exact Hnd|]. split; [|split].
  - intros p Hp. cbn [gfx set_draw_flag].
    rewrite gfx_blit; [reflexivity | exact Hrange | simpl; lia].
  - unfold reg. cbn [V set_draw_flag]. rewrite V_blit by assumption.
    cbn [gfx V set_reg set_V]. destruct (hit cells (gfx s)).
    + rewrite put_put_eq. apply get_put_eq. lia.
    + apply get_put_eq. lia.
  - intros r Hr. unfold reg. cbn [V set_draw_flag]. rewrite V_blit by assumption.
    cbn [gfx V set_reg set_V]. destruct (hit cells (gfx s));
      rewrite ?put_put_eq; apply get_put_ne; lia.
Qed.

End OneDraw.

(** X20: the pixels of one draw, read back with get_screen_pixel.  Let
    [x = x_coord mod 64] and [y = y_coord mod 32], and let the rows the draw
    reads lie inside memory.  For each sprite row [r] that fits above the
    bottom edge and each of its 8 bits [k], the pixel in column
    [(x + k) mod 64] of line [y + r] is its old value exclusive-or bit [k]
    of [memory[I + r]]: columns wrap around the right edge.  Every pixel
    not addressed this way keeps its value: rows below the bottom edge are
    dropped, nothing wraps to the top. *)
Theorem X20_draw_xors_sprite_and_clips_at_bottom x_coord y_coord height s :
  wf s ->
  (forall row, 0 <= row < height -> y_coord mod 32 + row < 32 ->
     I s + row < CHIP8_MEMORY_SIZE) ->
  let x := x_coord mod 64 in
  let y := y_coord mod 32 in
  exists s1,
    draw_sprite x_coord y_coord height s = Done s1
    /\ (forall r k, 0 <= r < height -> y + r < 32 -> 0 <= k < 8 ->
          fst (get_screen_pixel ((x + k) mod 64) (y + r) s1)
          = Z.lxor (fst (get_screen_pixel ((x + k) mod 64) (y + r) s))
                   (sprite_pixel_of (get (memory s) (I s + r)) k))
    /\ (forall px py, 0 <= px < 64 -> 0 <= py < 32 ->
          ~ (y <= py < y + height /\ (px - x) mod 64 < 8) ->
          fst (get_screen_pixel px py s1) = fst (get_screen_pixel px py s)).
Proof.
  intros Hwf Hrows x y.
  destruct (draw_sprite_cells x_coord y_coord height s Hwf Hrows)
    as (s1 & H1 & Hnd & Hg & _ & _).
  fold x y in Hnd, Hg.
  set (cells := sprite_cells (Z.to_nat height) 0 x y (memory s) (I s)) in *.
  pose proof (wf_I s Hwf) as HI. pose proof (wf_memory_len s Hwf) as Hml.
  assert (Hx : 0 <= x < 64) by (apply Z.mod_pos_bound; lia).
  assert (Hy : 0 <= y < 32) by (apply Z.mod_pos_bound; lia).
  unfold is_u16, CHIP8_MEMORY_SIZE in *.
  exists s1. split; [exact H1|]. split.
  - intros r k Hr Hyr Hk.
    assert (Hc : 0 <= (x + k) mod 64 < 64) by (apply Z.mod_pos_bound; lia).
    rewrite !get_screen_pixel_in_range by lia. cbn [fst].
    assert (Hin : (pixel_index_of x y r k, sprite_pixel_of (get (memory s) (I s + r)) k)
                  ∈ cells).
    { apply elem_of_sprite_cells_rev; try lia.
      intros r' Hr' Hy'. specialize (Hrows r'). fold y in Hrows. lia. }
    assert (Ep : pixel_index_of x y r k = (y + r) * 64 + (x + k) mod 64).
    { unfold pixel_index_of. f_equal. f_equal. apply Z.mod_small. lia. }
    rewrite <- Ep. rewrite Hg by apply pixel_index_of_range.
    rewrite (xacc_in cells _ _ Hnd Hin). reflexivity.
  - intros px py Hpx Hpy Hout.
    rewrite !get_screen_pixel_in_range by lia. cbn [fst].
    rewrite Hg by lia. rewrite xacc_not_in; [apply Z.lxor_0_r|].
    rewrite list_elem_of_fmap. intros ([p b] & Hp & Hin). simpl in Hp. subst p.
    apply elem_of_sprite_cells_byte in Hin as (r & k & Hr & Hyr & Hk & [= Hp _]).
    apply Hout. unfold pixel_index_of in Hp.
    rewrite (Z.mod_small (y + r) 32) in Hp by lia.
    assert (Hc : 0 <= (x + k) mod 64 < 64) by (apply Z.mod_pos_bound; lia).
    assert (py = y + r) by lia. assert (px = (x + k) mod 64) by lia.
    subst py px. split; [lia|].
    replace (((x + k) mod 64 - x) mod 64) with k; [lia|].
    Z.div_mod_to_equations. lia.
Qed.

Lemma X20_witness :
  let x := 0 mod 64 in
  let y := 0 mod 32 in
  exists s1,
    draw_sprite 0 0 5 (after 1 rom_draw) = Done s1
    /\ (forall r k, 0 <= r < 5 -> y + r < 32 -> 0 <= k < 8 ->
          fst (get_screen_pixel ((x + k) mod 64) (y + r) s1)
          = Z.lxor (fst (get_screen_pixel ((x + k) mod 64) (y + r) (after 1 rom_draw)))
                   (sprite_pixel_of (get (memory (after 1 rom_draw))
                                         (I (after 1 rom_draw) + r)) k))
    /\ (forall px py, 0 <= px < 64 -> 0 <= py < 32 ->
          ~ (y <= py < y + 5 /\ (px - x) mod 64 < 8) ->
          fst (get_screen_pixel px py s1)
          = fst (get_screen_pixel px py (after 1 rom_draw))).
Proof.
  apply (X20_draw_xors_sprite_and_clips_at_bottom 0 0 5 (after 1 rom_draw)).
  - apply wf_check_sound. vm_compute. reflexivity.
  - intros row Hrow _. change (I (after 1 rom_draw)) with 0x50.
    unfold CHIP8_MEMORY_SIZE. lia.
Defined.

(** X21: the collision flag of one draw.  With the rows read inside
    memory, DRW leaves VF at 1 exactly when some set bit of the sprite falls,
    within the rows that fit above the bottom edge, on a pixel that was lit
    before the draw, and at 0 otherwise - so a draw on a cleared screen
    reports no collision.  V0..VE are unchanged. *)
Theorem X21_collision_flag_iff_overlap x_coord y_coord height s :
  wf s ->
  (forall row, 0 <= row < height -> y_coord mod 32 + row < 32 ->
     I s + row < CHIP8_MEMORY_SIZE) ->
  let x := x_coord mod 64 in
  let y := y_coord mod 32 in
  exists s1,
    draw_sprite x_coord y_coord height s = Done s1
    /\ (reg s1 0xF = 0 \/ reg s1 0xF = 1)
    /\ (reg s1 0xF = 1 <->
        exists r k, 0 <= r < height /\ y + r < 32 /\ 0 <= k < 8
                    /\ sprite_pixel_of (get (memory s) (I s + r)) k = 1
                    /\ fst (get_screen_pixel ((x + k) mod 64) (y + r) s) = 1)
    /\ (forall r, 0 <= r < 15 -> reg s1 r = reg s r).
Proof.
  intros Hwf Hrows x y.
  destruct (draw_sprite_cells x_coord y_coord height s Hwf Hrows)
    as (s1 & H1 & Hnd & _ & Hvf & Hregs).
  fold x y in Hnd, Hvf.
  set (cells := sprite_cells (Z.to_nat height) 0 x y (memory s) (I s)) in *.
  pose proof (wf_I s Hwf) as HI. pose proof (wf_memory_len s Hwf) as Hml.
  assert (Hx : 0 <= x < 64) by (apply Z.mod_pos_bound; lia).
  assert (Hy : 0 <= y < 32) by (apply Z.mod_pos_bound; lia).
  unfold is_u16, CHIP8_MEMORY_SIZE in *.
  assert (Ep : forall r k, y + r < 32 -> 0 <= r ->
            pixel_index_of x y r k = (y + r) * 64 + (x + k) mod 64).
  { intros r k Hyr Hr. unfold pixel_index_of. f_equal. f_equal. apply Z.mod_small. lia. }
  exists s1. split; [exact H1|]. rewrite Hvf.
  split; [destruct (hit cells (gfx s)); auto|]. split; [|exact Hregs].
  destruct (hit cells (gfx s)) eqn:Hhit.
  - split; [intros _|reflexivity].
    apply hit_true in Hhit as (p & b & Hin & Hlit & ->).
    apply elem_of_sprite_cells_byte in Hin as (r & k & Hr & Hyr & Hk & [= -> Hb]).
    exists r, k. assert (Hc : 0 <= (x + k) mod 64 < 64) by (apply Z.mod_pos_bound; lia).
    rewrite get_screen_pixel_in_range by lia. cbn [fst].
    rewrite <- Ep by lia. repeat split; first [lia | assumption | symmetry; assumption].
  - split; [discriminate|]. intros (r & k & Hr & Hyr & Hk & Hb & Hlit). exfalso.
    assert (Hc : 0 <= (x + k) mod 64 < 64) by (apply Z.mod_pos_bound; lia).
    rewrite get_screen_pixel_in_range in Hlit by lia. cbn [fst] in Hlit.
    rewrite <- Ep in Hlit by lia.
    assert (hit cells (gfx s) = true); [|congruence].
    apply hit_true. exists (pixel_index_of x y r k), 1.
    split; [|split; [exact Hlit | reflexivity]].
    rewrite <- Hb. apply elem_of_sprite_cells_rev; try lia.
    intros r' Hr' Hy'. specialize (Hrows r'). fold y in Hrows. lia.
Qed.

Lemma X21_witness :
  let x := 0 mod 64 in
  let y := 0 mod 32 in
  exists s1,
    draw_sprite 0 0 5 (after 1 rom_draw) = Done s1
    /\ (reg s1 0xF = 0 \/ reg s1 0xF = 1)
    /\ (reg s1 0xF = 1 <->
        exists r k, 0 <= r < 5 /\ y + r < 32 /\ 0 <= k < 8
                    /\ sprite_pixel_of (get (memory (after 1 rom_draw))
                                            (I (after 1 rom_draw) + r)) k = 1
                    /\ fst (get_screen_pixel ((x + k) mod 64) (y + r) (after 1 rom_draw))
                       = 1)
    /\ (forall r, 0 <= r < 15 -> reg s1 r = reg (after 1 rom_draw) r).
Proof.
  apply (X21_collision_flag_iff_overlap 0 0 5 (after 1 rom_draw)).
  - apply wf_check_sound. vm_compute. reflexivity.
  - intros row Hrow _. change (I (after 1 rom_draw)) with 0x50.
    unfold CHIP8_MEMORY_SIZE. lia.
Defined.

(** * The main loop *)

Section Driver.

Lemma set_key_frame k v s : set_key k v s = set_keys (key (set_key k v s)) s.
Proof. unfold set_key. destruct (_ <? _); destruct s; reflexivity. Qed.

Lemma scan_keys_spec A : forall n i s,
  0 <= i -> i + Z.of_nat n <= Z.of_nat (length (key s)) ->
  Z.of_nat (length (key s)) = CHIP8_KEYBOARD_SIZE ->
  let s' := scan_keys A n i s in
  s' = set_keys (key s') s
  /\ length (key s') = length (key s)
  /\ forall j, 0 <= j < CHIP8_KEYBOARD_SIZE ->
       get (key s') j
       = if decide (i <= j < i + Z.of_nat n)
         then (if al_key_down A (map_key A j) then 1 else 0)
         else get (key s) j.
Proof.
  unfold CHIP8_KEYBOARD_SIZE.
  induction n as [|n IH]; intros i s Hi Hn Hlen; cbn [scan_keys].
  - split; [destruct s; reflexivity|]. split; [reflexivity|].
    intros j Hj. destruct (decide _); [lia | reflexivity].
  - set (v := if al_key_down A (map_key A i) then 1 else 0).
    assert (Hs : (if al_key_down A (map_key A i) then set_key i 1 s else set_key i 0 s)
                 = set_keys (put (key s) i v) s).
    { unfold v, set_key, CHIP8_KEYBOARD_SIZE.
      destruct (al_key_down A (map_key A i)); destruct (Z.ltb_spec i 16); try lia;
        reflexivity. }
    rewrite Hs. set (s1 := set_keys (put (key s) i v) s).
    destruct (IH (i + 1) s1) as (Hframe & Hl & Hkeys).
    + lia.
    + unfold s1. simpl. rewrite length_put. lia.
    + unfold s1. simpl. rewrite length_put. lia.
    + split; [rewrite Hframe at 1; reflexivity|].
      split; [rewrite Hl; unfold s1; simpl; apply length_put|].
      intros j Hj. rewrite (Hkeys j Hj).
      change (key s1) with (put (key s) i v).
      destruct (decide (i + 1 <= j < i + 1 + Z.of_nat n)),
               (decide (i <= j < i + Z.of_nat (S n))); try lia.
      * assert (j = i) as -> by lia. rewrite get_put_eq by lia. reflexivity.
      * apply get_put_ne; lia.
Qed.

End Driver.

(** X22: the key scan of the main loop.  After it, each of the 16 keys
    holds 1 when al_key_down answers true for the key code map_key gives its
    index and 0 when it answers false, whatever the key held before; nothing
    else in the machine changes. *)
Theorem X22_key_scan_mirrors_keyboard A s :
  wf s ->
  let s' := scan_keys A (Z.to_nat CHIP8_KEYBOARD_SIZE) 0 s in
  s' = set_keys (key s') s
  /\ forall i, 0 <= i < CHIP8_KEYBOARD_SIZE ->
       get (key s') i = if al_key_down A (map_key A i) then 1 else 0.
Proof.
  intros Hwf s'. pose proof (wf_key_len s Hwf) as Hkl.
  destruct (scan_keys_spec A (Z.to_nat CHIP8_KEYBOARD_SIZE) 0 s) as (Hframe & _ & Hkeys);
    [lia | unfold CHIP8_KEYBOARD_SIZE; lia | exact Hkl |].
  split; [exact Hframe|]. intros i Hi. fold s' in Hkeys. rewrite (Hkeys i Hi).
  destruct (decide _); [reflexivity|]. unfold CHIP8_KEYBOARD_SIZE in *. lia.
Qed.

Lemma X22_witness :
  let s' := scan_keys allegro_w_down (Z.to_nat CHIP8_KEYBOARD_SIZE) 0
              (set_key 9 1 (boot rom_wait_key)) in
  s' = set_keys (key s') (set_key 9 1 (boot rom_wait_key))
  /\ forall i, 0 <= i < CHIP8_KEYBOARD_SIZE ->
       get (key s') i
       = if al_key_down allegro_w_down (map_key allegro_w_down i) then 1 else 0.
Proof.
  apply (X22_key_scan_mirrors_keyboard allegro_w_down (set_key 9 1 (boot rom_wait_key))).
  apply wf_check_sound. vm_compute. reflexivity.
Defined.

(** X23: when the window is repainted.  A turn of the main loop that
    starts with the redraw flag down repaints the window exactly when the
    instruction it executes is a DRW - not on CLS, which changes the
    framebuffer too - and every turn ends with the flag down again. *)
Theorem X23_main_loop_repaints_on_drw_only A rnd s opcode :
  wf s -> pc s < CHIP8_MEMORY_SIZE - 1 -> fetch s = Some opcode ->
  is_screen_ready_to_redraw s = false ->
  match main_loop_turn A rnd s with
  | Some (s', repaint, _) =>
      repaint = (opcode / 4096 =? 0xD) /\ is_screen_ready_to_redraw s' = false
  | None => emulate_cycle rnd s = Undefined
  end.
Proof.
  intros Hwf Hpc Hf Hflag. unfold main_loop_turn.
  pose proof (wf_emulate_cycle rnd s Hwf) as Hwf1. unfold holds_after in Hwf1.
  rewrite (emulate_cycle_step rnd s _ Hwf Hpc Hf) in *.
  pose proof (flag_execute rnd opcode (set_pc (pc s + 2) s) (fetch_is_u16 s _ Hf)) as H.
  unfold holds_after in H. unfold is_screen_ready_to_redraw in *.
  assert (Hend : forall t, wf t ->
            draw_flag (render_screen (scan_keys A (Z.to_nat CHIP8_KEYBOARD_SIZE) 0 t))
            = false).
  { intros t Hwft. unfold render_screen.
    destruct (draw_flag (scan_keys A _ 0 t)) eqn:E; simpl; [reflexivity | exact E]. }
  destruct (execute rnd opcode (set_pc (pc s + 2) s)) as [s1|c s1|];
    cbn [state_after] in *; [| |reflexivity].
  - split; [|apply Hend; exact Hwf1].
    change (draw_flag (timers s1)) with (draw_flag s1). rewrite H.
    change (draw_flag (set_pc (pc s + 2) s)) with (draw_flag s). rewrite Hflag.
    reflexivity.
  - split; [|apply Hend; exact Hwf1].
    rewrite H. change (draw_flag (set_pc (pc s + 2) s)) with (draw_flag s).
    rewrite Hflag. reflexivity.
Qed.

Lemma X23_witness :
  match main_loop_turn allegro_w_down 0 (boot rom_cls) with
  | Some (s', repaint, _) =>
      repaint = (0x00E0 / 4096 =? 0xD) /\ is_screen_ready_to_redraw s' = false
  | None => emulate_cycle 0 (boot rom_cls) = Undefined
  end.
Proof.
  apply (X23_main_loop_repaints_on_drw_only allegro_w_down 0 (boot rom_cls) 0x00E0).
  - apply wf_check_sound. vm_compute. reflexivity.
  - vm_compute. reflexivity.
  - vm_compute. reflexivity.
  - vm_compute. reflexivity.
Defined.

(** * More of the instruction set *)

(** X24: JP V0, nnn (Bnnn).  The program counter becomes V0 + nnn, without
    any wrap to the 12 bits of an address, so it can be as large as 4350;
    from 4095 on, the next cycle reports the program counter out of range
    and leaves the machine as it is. *)
Theorem X24_jp_v0_adds_without_wrapping rnd s nnn :
  wf s -> pc s < CHIP8_MEMORY_SIZE - 1 -> 0 <= nnn < 4096 ->
  fetch s = Some (0xB000 + nnn) ->
  exists s',
    emulate_cycle rnd s = Done s'
    /\ pc s' = reg s 0 + nnn
    /\ (CHIP8_MEMORY_SIZE - 1 <= reg s 0 + nnn ->
        forall rnd', emulate_cycle rnd' s' = Aborted PcOutOfRange s').
Proof.
  intros Hwf Hpc Hn Hf. rewrite (emulate_cycle_step rnd s _ Hwf Hpc Hf).
  set (opcode := 0xB000 + nnn).
  assert (Hh : Z.land opcode 0xF000 = 0xB000) by (unfold opcode; decode).
  assert (En : op_nnn opcode = nnn) by (unfold opcode; decode).
  dispatch Hh. rewrite En. change (reg (set_pc (pc s + 2) s) 0) with (reg s 0).
  pose proof (reg_is_u8 s Hwf 0 ltac:(lia)) as Hr. unfold is_u8 in Hr.
  rewrite u16_small by (unfold is_u16; lia).
  eexists. split; [reflexivity|]. split; [reflexivity|].
  intros Hout rnd'. unfold emulate_cycle.
  change (pc (timers (set_pc (reg s 0 + nnn) (set_pc (pc s + 2) s)))) with (reg s 0 + nnn).
  destruct (Z.leb_spec (CHIP8_MEMORY_SIZE - 1) (reg s 0 + nnn)); [reflexivity | lia].
Qed.

Lemma X24_witness :
  exists s',
    emulate_cycle 0 (after 1 rom_jp_v0) = Done s'
    /\ pc s' = reg (after 1 rom_jp_v0) 0 + 0xFFF
    /\ (CHIP8_MEMORY_SIZE - 1 <= reg (after 1 rom_jp_v0) 0 + 0xFFF ->
        forall rnd', emulate_cycle rnd' s' = Aborted PcOutOfRange s').
Proof.
  apply (X24_jp_v0_adds_without_wrapping 0 (after 1 rom_jp_v0) 0xFFF).
  - apply wf_check_sound. vm_compute. reflexivity.
  - vm_compute. reflexivity.
  - lia.
  - vm_compute. reflexivity.
Defined.

(** X25: ADD I, Vx (Fx1E).  With the index register inside memory, the sum
    I + Vx is stored when it is below 4096; otherwise an error is printed
    and I is reset to 0 - it does not wrap around.  No register changes,
    VF included, and the cycle goes on to the timers. *)
Theorem X25_add_i_resets_index_past_memory rnd s x :
  wf s -> pc s < CHIP8_MEMORY_SIZE - 1 -> 0 <= x < 16 ->
  I s < CHIP8_MEMORY_SIZE ->
  fetch s = Some (0xF01E + 256 * x) ->
  exists s',
    emulate_cycle rnd s = Done s'
    /\ I s' = (if I s + reg s x <? CHIP8_MEMORY_SIZE then I s + reg s x else 0)
    /\ V s' = V s
    /\ pc s' = pc s + 2.
Proof.
  intros Hwf Hpc Hx HI Hf. rewrite (emulate_cycle_step rnd s _ Hwf Hpc Hf).
  set (opcode := 0xF01E + 256 * x).
  assert (Hh : Z.land opcode 0xF000 = 0xF000) by (unfold opcode; decode).
  assert (Hk : Z.land opcode 0xFF = 0x1E) by (unfold opcode; decode).
  assert (Ex : op_x opcode = x) by (unfold opcode; decode).
  dispatch Hh. unfold op_misc. rewrite Hk. switch; try lia.
  eexists. split; [reflexivity|].
  unfold op_add_i. rewrite Ex.
  change (reg (set_pc (pc s + 2) s) x) with (reg s x).
  change (I (set_pc (pc s + 2) s)) with (I s).
  pose proof (reg_is_u8 s Hwf x Hx) as Hr. unfold is_u8 in Hr.
  pose proof (wf_I s Hwf) as HI'. unfold is_u16, CHIP8_MEMORY_SIZE in *.
  rewrite u16_small by (unfold is_u16; lia).
  cbn [I set_I].
  destruct (Z.leb_spec 4096 (I s + reg s x)), (Z.ltb_spec (I s + reg s x) 4096);
    try lia; repeat split; reflexivity.
Qed.

Lemma X25_witness :
  exists s',
    emulate_cycle 0 (after 2 rom_add_i) = Done s'
    /\ I s' = (if I (after 2 rom_add_i) + reg (after 2 rom_add_i) 0 <? CHIP8_MEMORY_SIZE
               then I (after 2 rom_add_i) + reg (after 2 rom_add_i) 0 else 0)
    /\ V s' = V (after 2 rom_add_i)
    /\ pc s' = pc (after 2 rom_add_i) + 2.
Proof.
  apply (X25_add_i_resets_index_past_memory 0 (after 2 rom_add_i) 0).
  - apply wf_check_sound. vm_compute. reflexivity.
  - vm_compute. reflexivity.
  - lia.
  - vm_compute. reflexivity.
  - vm_compute. reflexivity.
Defined.

(** X26: LD, OR, AND and XOR between registers (8xy0 .. 8xy3).  Vx
    receives Vy, Vx | Vy, Vx & Vy or Vx ^ Vy, which is a byte again; every
    other register keeps its value, VF included - the flag is neither set
    nor cleared by these four. *)
Theorem X26_logic_ops_touch_only_vx rnd s x y k :
  wf s -> pc s < CHIP8_MEMORY_SIZE - 1 ->
  0 <= x < 16 -> 0 <= y < 16 -> 0 <= k < 4 ->
  fetch s = Some (0x8000 + 256 * x + 16 * y + k) ->
  exists s',
    emulate_cycle rnd s = Done s'
    /\ reg s' x = logic_result k (reg s x) (reg s y)
    /\ 0 <= reg s' x < 256
    /\ (forall r, 0 <= r < 16 -> r <> x -> reg s' r = reg s r)
    /\ pc s' = pc s + 2.
Proof.
  intros Hwf Hpc Hx Hy Hk Hf. rewrite (emulate_cycle_step rnd s _ Hwf Hpc Hf).
  destruct (execute_alu rnd x y k (set_pc (pc s + 2) s)) as (He & Ex & Ey & Ek);
    [lia | lia | lia |].
  rewrite He. eexists. split; [reflexivity|].
  pose proof (wf_V_len s Hwf) as Hvl.
  pose proof (reg_is_u8 s Hwf x Hx) as Hrx. pose proof (reg_is_u8 s Hwf y Hy) as Hry.
  unfold is_u8 in *.
  assert (Hres : reg (timers (op_alu (0x8000 + 256 * x + 16 * y + k)
                                     (set_pc (pc s + 2) s))) x
                 = logic_result k (reg s x) (reg s y)
          /\ (forall r, 0 <= r < 16 -> r <> x ->
                reg (timers (op_alu (0x8000 + 256 * x + 16 * y + k)
                                    (set_pc (pc s + 2) s))) r = reg s r)
          /\ pc (timers (op_alu (0x8000 + 256 * x + 16 * y + k)
                                (set_pc (pc s + 2) s))) = pc s + 2).
  { unfold op_alu, logic_result. rewrite Ex, Ey, Ek.
    change (reg (set_pc (pc s + 2) s)) with (reg s).
    assert (k = 0 \/ k = 1 \/ k = 2 \/ k = 3) as [-> | [-> | [-> | ->]]] by lia;
      cbn [Z.eqb Pos.eqb];
      (split; [|split; [|reflexivity]]);
      try (intros r Hr Hne);
      rewrite reg_timers; unfold reg, set_reg; cbn [V set_V set_pc];
      first [apply get_put_eq; lia | apply get_put_ne; lia]. }
  destruct Hres as (Hv & Hothers & Hpc').
  split; [exact Hv|]. split; [|split; [exact Hothers | exact Hpc']].
  rewrite Hv. unfold logic_result.
  pose proof (lor_is_u8 (reg s x) (reg s y)) as Hor.
  pose proof (land_is_u8 (reg s x) (reg s y)) as Hand.
  pose proof (lxor_is_u8 (reg s x) (reg s y)) as Hxor.
  unfold is_u8 in *.
  repeat match goal with |- context [?a =? ?b] => destruct (a =? b) end; lia.
Qed.

Lemma X26_witness :
  exists s',
    emulate_cycle 0 (after 2 rom_xor) = Done s'
    /\ reg s' 0 = logic_result 3 (reg (after 2 rom_xor) 0) (reg (after 2 rom_xor) 1)
    /\ 0 <= reg s' 0 < 256
    /\ (forall r, 0 <= r < 16 -> r <> 0 -> reg s' r = reg (after 2 rom_xor) r)
    /\ pc s' = pc (after 2 rom_xor) + 2.
Proof.
  apply (X26_logic_ops_touch_only_vx 0 (after 2 rom_xor) 0 1 3).
  - apply wf_check_sound. vm_compute. reflexivity.
  - vm_compute. reflexivity.
  - lia.
  - lia.
  - lia.
  - vm_compute. reflexivity.
Defined.

(** X27: SE Vx, Vy (5xy0).  The low nibble of the instruction is not
    looked at: every 5xyN, whatever N, compares Vx with Vy and steps over
    the next instruction when they are equal. *)
Theorem X27_se_xy_ignores_low_nibble rnd s x y n :
  wf s -> pc s < CHIP8_MEMORY_SIZE - 1 ->
  0 <= x < 16 -> 0 <= y < 16 -> 0 <= n < 16 ->
  fetch s = Some (0x5000 + 256 * x + 16 * y + n) ->
  emulate_cycle rnd s
  = Done (timers (set_pc (pc s + (if reg s x =? reg s y then 4 else 2)) s)).
Proof.
  intros Hwf Hpc Hx Hy Hn Hf. rewrite (emulate_cycle_step rnd s _ Hwf Hpc Hf).
  set (opcode := 0x5000 + 256 * x + 16 * y + n).
  assert (Hh : Z.land opcode 0xF000 = 0x5000) by (unfold opcode; decode).
  assert (Ex : op_x opcode = x) by (unfold opcode; decode).
  assert (Ey : op_y opcode = y) by (unfold opcode; decode).
  pose proof (wf_pc s Hwf) as Hpc'. unfold is_u16, CHIP8_MEMORY_SIZE in *.
  assert (He : forall t, execute rnd opcode t
                         = Done (skip_if (reg t (op_x opcode) =? reg t (op_y opcode)) t))
    by (intros t; dispatch Hh; reflexivity).
  rewrite He, Ex, Ey. change (reg (set_pc (pc s + 2) s)) with (reg s).
  destruct (reg s x =? reg s y); unfold skip_if; simpl; [|reflexivity].
  rewrite u16_small by (unfold is_u16; lia).
  replace (pc s + 2 + 2) with (pc s + 4) by lia. reflexivity.
Qed.

Lemma X27_witness :
  emulate_cycle 0 (after 2 rom_se_xy_odd)
  = Done (timers (set_pc (pc (after 2 rom_se_xy_odd)
                          + (if reg (after 2 rom_se_xy_odd) 1
                                =? reg (after 2 rom_se_xy_odd) 2 then 4 else 2))
                         (after 2 rom_se_xy_odd))).
Proof.
  apply (X27_se_xy_ignores_low_nibble 0 (after 2 rom_se_xy_odd) 1 2 0xF).
  - apply wf_check_sound. vm_compute. reflexivity.
  - vm_compute. reflexivity.
  - lia.
  - lia.
  - lia.
  - vm_compute. reflexivity.
Defined.

(** X28: clear_video_buffer and the draw that follows it.  After the
    framebuffer is cleared, get_screen_pixel answers 0 for every
    coordinate, in range or not, and a sprite drawn next leaves VF at 0:
    on a blank screen no collision is reported, whatever the sprite. *)
Theorem X28_cleared_screen_is_blank_and_collision_free x_coord y_coord height s :
  wf s ->
  (forall row, 0 <= row < height -> y_coord mod 32 + row < 32 ->
     I s + row < CHIP8_MEMORY_SIZE) ->
  (forall px py, fst (get_screen_pixel px py (clear_video_buffer s)) = 0)
  /\ exists s1,
       draw_sprite x_coord y_coord height (clear_video_buffer s) = Done s1
       /\ reg s1 0xF = 0.
Proof.
  intros Hwf Hrows. pose proof (wf_gfx_len s Hwf) as Hgl.
  assert (Hzero : forall p, 0 <= p < 2048 -> get (gfx (clear_video_buffer s)) p = 0).
  { intros p Hp. unfold clear_video_buffer, get. cbn [gfx set_gfx].
    apply lookup_total_replicate_2. lia. }
  split.
  - intros px py. unfold get_screen_pixel, CHIP8_SCREEN_WIDTH, CHIP8_SCREEN_HEIGHT.
    destruct (Z.ltb_spec px 0), (Z.leb_spec 64 px), (Z.ltb_spec py 0),
             (Z.leb_spec 32 py); cbn [orb fst]; try reflexivity.
    apply Hzero. lia.
  - destruct (draw_sprite_cells x_coord y_coord height (clear_video_buffer s)
                (wf_clear_video_buffer s Hwf) Hrows) as (s1 & H1 & _ & _ & Hvf & _).
    exists s1. split; [exact H1|]. rewrite Hvf.
    match goal with |- context [hit ?c ?g] => destruct (hit c g) eqn:Hhit end;
      [|reflexivity].
    exfalso. apply hit_true in Hhit as (p & b & Hin & Hlit & _).
    match type of Hin with (_ ∈ sprite_cells ?n ?r ?x ?y ?m ?i) =>
      pose proof (sprite_cells_range x y m i n r) as Hrange end.
    rewrite Forall_forall in Hrange. specialize (Hrange _ Hin). cbn [fst] in Hrange.
    rewrite Hzero in Hlit by lia. discriminate.
Qed.

Lemma X28_witness :
  (forall px py, fst (get_screen_pixel px py (clear_video_buffer (after 2 rom_draw))) = 0)
  /\ exists s1,
       draw_sprite 0 0 5 (clear_video_buffer (after 2 rom_draw)) = Done s1
       /\ reg s1 0xF = 0.
Proof.
  apply (X28_cleared_screen_is_blank_and_collision_free 0 0 5 (after 2 rom_draw)).
  - apply wf_check_sound. vm_compute. reflexivity.
  - intros row Hrow _.
    replace (I (after 2 rom_draw)) with 0x50 by (vm_compute; reflexivity).
    unfold CHIP8_MEMORY_SIZE. lia.
Defined.
